(** * tktr: the admin/API server of the portfolio site

    A shallow embedding of [src/space/db.js] (schema and content seed),
    [src/space/server.js] (session gate, audit recorder, admin seed,
    login/logout and the content, skills and projects handlers) and of the
    functions of the admin page's script [src/unnamed/part_000] that do
    not touch the document ([api], [escapeHtml], the body of the add-skill
    request), with the properties the specification states about them and
    further properties of the code.

    What lies outside the two source files is modelled as follows.
    - A JavaScript number is an IEEE binary64 value, Rocq's primitive [float];
      a JavaScript string is a sequence of UTF-16 code units, [list N].
    - ToBoolean, ToString, ToNumber, [trim], [JSON.stringify] and [JSON.parse]
      follow ECMAScript on the values a JSON body is made of.
    - The conversions between numbers and text, the password hash of bcryptjs,
      what better-sqlite3 binds for a value that is neither a number nor a
      string and the number SQLite reads in a text are fields of the class
      [Runtime]: the theorems hold for every runtime.
    - A table is the list of its rows and a row id is an integer without a
      bound.  A TEXT column written by a request holds the text as it is read
      back, after its passage through UTF-8; a column declared INTEGER that is
      no key holds what its affinity makes of the bound value: an integer, a
      real or a text.
    - The rate limiter, the CORS middleware and the static admin page come
      before the routes; the properties are about the requests that reach a
      route, and time and fresh session ids enter as inputs of a request. *)

From Stdlib Require Import ZArith NArith List Bool Lia String Ascii.
From Stdlib Require Import PrimFloat FloatOps SpecFloat.
From Stdlib Require Import QArith.
From Stdlib Require Uint63.
From stdpp Require Import base option list gmap sorting.
Import ListNotations.

Close Scope Q_scope.
Local Open Scope Z_scope.

(** ** JavaScript values *)

Module JS.

(** A string is a sequence of UTF-16 code units. *)
Definition jsstring := list N.

(** The code units of an ASCII literal of the source. *)
Definition lit (s : string) : jsstring :=
  List.map N_of_ascii (list_ascii_of_string s).

(** The values a parsed JSON body is made of, and [undefined] for a property
    that is absent.  An object lists its own properties in property order. *)
#[local] Unset Elimination Schemes.
Inductive jsval : Type :=
| JUndefined
| JNull
| JBool (b : bool)
| JNum (f : float)
| JStr (s : jsstring)
| JArr (items : list jsval)
| JObj (props : list (jsstring * jsval)).
#[local] Set Elimination Schemes.

(** Induction over a value with the hypotheses for the elements of an array
    and for the property values of an object. *)
Definition jsval_ind (P : jsval -> Prop)
    (Hundef : P JUndefined) (Hnull : P JNull)
    (Hbool : forall b, P (JBool b)) (Hnum : forall f, P (JNum f))
    (Hstr : forall s, P (JStr s))
    (Harr : forall items, Forall P items -> P (JArr items))
    (Hobj : forall props, Forall (fun kv => P (snd kv)) props -> P (JObj props)) :
  forall v, P v :=
  fix IH (v : jsval) : P v :=
    match v with
    | JUndefined => Hundef
    | JNull => Hnull
    | JBool b => Hbool b
    | JNum f => Hnum f
    | JStr s => Hstr s
    | JArr items =>
        Harr items
          ((fix all (l : list jsval) : Forall P l :=
              match l with
              | [] => List.Forall_nil P
              | x :: rest => @List.Forall_cons _ P x rest (IH x) (all rest)
              end) items)
    | JObj props =>
        Hobj props
          ((fix all (l : list (jsstring * jsval)) : Forall (fun kv => P (snd kv)) l :=
              match l with
              | [] => List.Forall_nil _
              | kv :: rest => @List.Forall_cons _ _ kv rest (IH (snd kv)) (all rest)
              end) props)
    end.

Definition eqs (a b : jsstring) : bool := bool_decide (a = b).

(** [o[k]] for an own property of an object.  The names the server reads from
    a body are own properties or absent: [Object.prototype] has none of them,
    and for an array body, where [sort] is inherited, every handler answers
    400 on an earlier field before it uses the value. *)
Fixpoint own_prop (props : list (jsstring * jsval)) (k : jsstring) : option jsval :=
  match props with
  | [] => None
  | (k', v) :: rest => if eqs k' k then Some v else own_prop rest k
  end.

Definition get_prop (o : jsval) (k : jsstring) : jsval :=
  match o with
  | JObj props => default JUndefined (own_prop props k)
  | _ => JUndefined
  end.

(** A destructuring default, [{ k = d }]: it replaces [undefined] only. *)
Definition or_default (v d : jsval) : jsval :=
  match v with JUndefined => d | _ => v end.

(** ToBoolean, the test behind [!v], [v || w] and [v ? a : b]. *)
Definition ToBoolean (v : jsval) : bool :=
  match v with
  | JUndefined | JNull => false
  | JBool b => b
  | JNum f => negb (is_zero f || is_nan f)
  | JStr s => match s with [] => false | _ => true end
  | JArr _ | JObj _ => true
  end.

Definition isArray (v : jsval) : bool :=
  match v with JArr _ => true | _ => false end.

(** WhiteSpace and LineTerminator code points, all in the basic plane. *)
Definition is_space (c : N) : bool :=
  ((c =? 0x09) || (c =? 0x0A) || (c =? 0x0B) || (c =? 0x0C) || (c =? 0x0D)
   || (c =? 0x20) || (c =? 0xA0) || (c =? 0x1680)
   || ((0x2000 <=? c) && (c <=? 0x200A))
   || (c =? 0x2028) || (c =? 0x2029) || (c =? 0x202F) || (c =? 0x205F)
   || (c =? 0x3000) || (c =? 0xFEFF))%N.

Fixpoint trimStart (s : jsstring) : jsstring :=
  match s with
  | c :: rest => if is_space c then trimStart rest else s
  | [] => []
  end.

Definition trimEnd (s : jsstring) : jsstring := rev (trimStart (rev s)).

(** [String.prototype.trim]. *)
Definition trim (s : jsstring) : jsstring := trimEnd (trimStart s).

(** What better-sqlite3 hands to SQLite for an argument of a statement: NULL,
    a number, which is always bound as a double, or a text. *)
Inductive bound :=
| BoundNull
| BoundNumber (f : float)
| BoundText (s : jsstring).

(** What a column that is not NULL holds, and what a query gives back for
    it: an INTEGER or a REAL, both read as a number, or a TEXT, read as a
    string. *)
Inductive sqlval :=
| SqlInteger (z : Z)
| SqlReal (f : float)
| SqlText (s : jsstring).

(** What the program takes from its language runtime and its two libraries.
    - [StringToNumber], [NumberToString]: the numeric conversions of ECMAScript;
    - [compareSync], [hashSync]: bcryptjs; [compareSync] answers [None] when the
      library raises, which it does for a password that is not a string;
    - [bind_text]: the text a TEXT column is compared with when better-sqlite3
      binds a value that is not a string, [Some None] when it binds NULL, which
      equals no text, and [None] when it refuses the value;
    - [bind_value]: what better-sqlite3 binds for an argument of [.run] that is
      neither a number nor a string, [None] when it raises instead of running
      the statement, as it does for a boolean;
    - [numeric_text]: the integer or real that a column of INTEGER affinity
      keeps in place of a text that spells a number, [None] for a text that
      spells none and is kept as it is. *)
Class Runtime := {
  StringToNumber : jsstring -> float;
  NumberToString : float -> jsstring;
  compareSync : jsval -> jsstring -> option bool;
  hashSync : jsstring -> N -> jsstring;
  bind_text : jsval -> option (option jsstring);
  bind_value : jsval -> option bound;
  numeric_text : jsstring -> option sqlval
}.

Definition has_own (props : list (jsstring * jsval)) (k : jsstring) : bool :=
  match own_prop props k with Some _ => true | None => false end.

Section Conversions.
Context {RT : Runtime}.

(** ToString.  A parsed body holds no function, so an own [toString] property
    hides [Object.prototype.toString] with a value that cannot be called and
    the conversion raises a TypeError ([None]).  An array is joined with
    commas, [undefined] and [null] elements giving the empty string. *)
Fixpoint ToString (v : jsval) : option jsstring :=
  match v with
  | JUndefined => Some (lit "undefined")
  | JNull => Some (lit "null")
  | JBool b => Some (if b then lit "true" else lit "false")
  | JNum f => Some (NumberToString f)
  | JStr s => Some s
  | JArr items =>
      (fix join (l : list jsval) : option jsstring :=
         match l with
         | [] => Some []
         | x :: rest =>
             sx ← match x with
                  | JUndefined | JNull => Some []
                  | _ => ToString x
                  end;
             match rest with
             | [] => Some sx
             | _ => srest ← join rest; Some (sx ++ [0x2C%N] ++ srest)
             end
         end) items
  | JObj props =>
      if has_own props (lit "toString") then None
      else Some (lit "[object Object]")
  end.

(** ToNumber, the conversion [Number(v)] applies.  For an array or an object
    it goes through ToPrimitive: [valueOf] never gives a primitive, so the
    result is that of [toString], read as a number. *)
Definition ToNumber (v : jsval) : option float :=
  match v with
  | JUndefined => Some nan
  | JNull => Some 0%float
  | JBool b => Some (if b then 1%float else 0%float)
  | JNum f => Some f
  | JStr s => Some (StringToNumber s)
  | JArr _ | JObj _ => StringToNumber <$> ToString v
  end.

End Conversions.

End JS.
Export JS.

(** ** The JSON object of the runtime: [JSON.stringify] and [JSON.parse] *)

Module JSON.

Local Open Scope N_scope.

Definition is_lead (c : N) : bool := (0xD800 <=? c) && (c <=? 0xDBFF).
Definition is_trail (c : N) : bool := (0xDC00 <=? c) && (c <=? 0xDFFF).

Definition hex_digit (d : N) : N := if d <? 10 then 48 + d else 87 + d.

(** UnicodeEscape: a backslash, [u] and four lower-case hexadecimal digits. *)
Definition unicode_escape (c : N) : jsstring :=
  [0x5C; 0x75; hex_digit (c / 4096 mod 16); hex_digit (c / 256 mod 16);
   hex_digit (c / 16 mod 16); hex_digit (c mod 16)].

(** One code point of QuoteJSONString that is a single code unit. *)
Definition quote_unit (c : N) : jsstring :=
  if c =? 0x08 then [0x5C; 0x62]
  else if c =? 0x09 then [0x5C; 0x74]
  else if c =? 0x0A then [0x5C; 0x6E]
  else if c =? 0x0C then [0x5C; 0x66]
  else if c =? 0x0D then [0x5C; 0x72]
  else if c =? 0x22 then [0x5C; 0x22]
  else if c =? 0x5C then [0x5C; 0x5C]
  else if (c <? 0x20) || is_lead c || is_trail c then unicode_escape c
  else [c].

(** The code points of the string in turn: a leading surrogate followed by a
    trailing one is a pair and is copied, any other surrogate is escaped. *)
Fixpoint quote_body (s : jsstring) : jsstring :=
  match s with
  | [] => []
  | c :: rest =>
      if is_lead c then
        match rest with
        | d :: rest' =>
            if is_trail d then c :: d :: quote_body rest'
            else unicode_escape c ++ quote_body rest
        | [] => unicode_escape c
        end
      else quote_unit c ++ quote_body rest
  end.

Definition quote (s : jsstring) : jsstring := [0x22] ++ quote_body s ++ [0x22].

Fixpoint join_comma (parts : list jsstring) : jsstring :=
  match parts with
  | [] => []
  | [p] => p
  | p :: rest => p ++ [0x2C] ++ join_comma rest
  end.

Section Codec.
Context {RT : Runtime}.

(** SerializeJSONProperty without indentation.  [undefined] is [null] as
    an array element and leaves its property out of an object; a number that
    is not finite is [null]. *)
Fixpoint serialize (v : jsval) : jsstring :=
  match v with
  | JUndefined | JNull => lit "null"
  | JBool b => if b then lit "true" else lit "false"
  | JNum f => if is_finite f then NumberToString f else lit "null"
  | JStr s => quote s
  | JArr items => [0x5B] ++ join_comma (List.map serialize items) ++ [0x5D]
  | JObj props =>
      [0x7B]
      ++ join_comma
           ((fix members (l : list (jsstring * jsval)) : list jsstring :=
               match l with
               | [] => []
               | (k, x) :: rest =>
                   match x with
                   | JUndefined => members rest
                   | _ => (quote k ++ [0x3A] ++ serialize x) :: members rest
                   end
               end) props)
      ++ [0x7D]
  end.

(** [JSON.stringify(value)] for a value that is not [undefined] itself: the
    program serializes object literals and arrays only. *)
Definition stringify (v : jsval) : jsstring := serialize v.

Definition is_ws (c : N) : bool :=
  (c =? 0x20) || (c =? 0x09) || (c =? 0x0A) || (c =? 0x0D).

Fixpoint skip_ws (s : jsstring) : jsstring :=
  match s with
  | c :: rest => if is_ws c then skip_ws rest else s
  | [] => []
  end.

Definition hex_value (c : N) : option N :=
  if (48 <=? c) && (c <=? 57) then Some (c - 48)
  else if (97 <=? c) && (c <=? 102) then Some (c - 87)
  else if (65 <=? c) && (c <=? 70) then Some (c - 55)
  else None.

Definition simple_escape (e : N) : option N :=
  if e =? 0x22 then Some 0x22
  else if e =? 0x5C then Some 0x5C
  else if e =? 0x2F then Some 0x2F
  else if e =? 0x62 then Some 0x08
  else if e =? 0x66 then Some 0x0C
  else if e =? 0x6E then Some 0x0A
  else if e =? 0x72 then Some 0x0D
  else if e =? 0x74 then Some 0x09
  else None.

(** The characters of a string after its opening quote, up to the closing
    one; the rest of the text follows. *)
Fixpoint parse_string (s : jsstring) : option (jsstring * jsstring) :=
  match s with
  | [] => None
  | c :: r =>
      if c =? 0x22 then Some ([], r)
      else if c =? 0x5C then
        match r with
        | [] => None
        | e :: r1 =>
            if e =? 0x75 then
              match r1 with
              | h3 :: h2 :: h1 :: h0 :: r2 =>
                  a3 ← hex_value h3; a2 ← hex_value h2;
                  a1 ← hex_value h1; a0 ← hex_value h0;
                  '(t, rest) ← parse_string r2;
                  Some ((4096 * a3 + 256 * a2 + 16 * a1 + a0) :: t, rest)
              | _ => None
              end
            else
              u ← simple_escape e;
              '(t, rest) ← parse_string r1;
              Some (u :: t, rest)
        end
      else if c <? 0x20 then None
      else '(t, rest) ← parse_string r; Some (c :: t, rest)
  end.

Definition is_digit (c : N) : bool := (48 <=? c) && (c <=? 57).

Fixpoint span_digits (s : jsstring) : jsstring * jsstring :=
  match s with
  | c :: r =>
      if is_digit c then let '(d, rest) := span_digits r in (c :: d, rest)
      else ([], s)
  | [] => ([], [])
  end.

(** The parts of a JSON number: an optional minus, the integer, an optional
    fraction and an optional exponent. *)
Definition lex_sign (s : jsstring) : jsstring * jsstring :=
  match s with
  | c :: r => if c =? 0x2D then ([c], r) else ([], s)
  | [] => ([], s)
  end.

Definition lex_int (s : jsstring) : option (jsstring * jsstring) :=
  match s with
  | c :: r =>
      if c =? 48 then Some ([c], r)
      else if is_digit c then
        let '(d, rest) := span_digits r in Some (c :: d, rest)
      else None
  | [] => None
  end.

Definition lex_frac (s : jsstring) : option (jsstring * jsstring) :=
  match s with
  | c :: r =>
      if c =? 0x2E then
        match span_digits r with
        | ([], _) => None
        | (d, rest) => Some (c :: d, rest)
        end
      else Some ([], s)
  | [] => Some ([], s)
  end.

Definition lex_exp (s : jsstring) : option (jsstring * jsstring) :=
  match s with
  | c :: r =>
      if (c =? 0x65) || (c =? 0x45) then
        let '(sg, r') :=
          match r with
          | x :: r'' => if (x =? 0x2B) || (x =? 0x2D) then ([x], r'') else ([], r)
          | [] => ([], r)
          end in
        match span_digits r' with
        | ([], _) => None
        | (d, rest) => Some (c :: sg ++ d, rest)
        end
      else Some ([], s)
  | [] => Some ([], s)
  end.

(** The longest prefix that is a JSON number, and the text behind it. *)
Definition lex_number (s : jsstring) : option (jsstring * jsstring) :=
  let '(sign, s1) := lex_sign s in
  '(int, s2) ← lex_int s1;
  '(frac, s3) ← lex_frac s2;
  '(ex, s4) ← lex_exp s3;
  Some (sign ++ int ++ frac ++ ex, s4).

Fixpoint strip_prefix (p s : jsstring) : option jsstring :=
  match p, s with
  | [], _ => Some s
  | a :: p', b :: s' => if a =? b then strip_prefix p' s' else None
  | _ :: _, [] => None
  end.

(** An array index: the canonical decimal text of an integer below 2^32 - 1. *)
Definition array_index (k : jsstring) : option N :=
  match k with
  | [] => None
  | c :: r =>
      if forallb is_digit k && implb (c =? 48) (match r with [] => true | _ => false end) then
        let n := fold_left (fun a d => 10 * a + (d - 48)) k 0 in
        if n <? 4294967295 then Some n else None
      else None
  end.

Fixpoint replace_prop (props : list (jsstring * jsval)) (k : jsstring) (v : jsval)
  : list (jsstring * jsval) :=
  match props with
  | [] => []
  | (k', v') :: rest =>
      if eqs k' k then (k', v) :: rest else (k', v') :: replace_prop rest k v
  end.

(** The place of a new key in property order: array indices first, in
    ascending order, then the other keys in the order they were created. *)
Fixpoint insert_prop (props : list (jsstring * jsval)) (k : jsstring) (v : jsval)
  : list (jsstring * jsval) :=
  match props with
  | [] => [(k, v)]
  | (k', v') :: rest =>
      match array_index k, array_index k' with
      | Some i, Some i' =>
          if i <? i' then (k, v) :: props else (k', v') :: insert_prop rest k v
      | Some _, None => (k, v) :: props
      | None, _ => (k', v') :: insert_prop rest k v
      end
  end.

(** CreateDataProperty on an ordinary object. *)
Definition define_prop (props : list (jsstring * jsval)) (kv : jsstring * jsval)
  : list (jsstring * jsval) :=
  if has_own props (fst kv) then replace_prop props (fst kv) (snd kv)
  else insert_prop props (fst kv) (snd kv).

(** Recursive descent over the text; [fuel] bounds the depth of the calls.
    A nested value costs two calls and its two brackets, a further element or
    member one call and its comma, so a value never needs more fuel than it
    has characters. *)
Fixpoint parse_value (fuel : nat) (s : jsstring) : option (jsval * jsstring) :=
  match fuel with
  | O => None
  | S fuel' =>
      match skip_ws s with
      | [] => None
      | c :: r =>
          if c =? 0x22 then
            '(str, r') ← parse_string r; Some (JStr str, r')
          else if c =? 0x5B then
            match skip_ws r with
            | [] => None
            | d :: r' =>
                if d =? 0x5D then Some (JArr [], r')
                else '(vs, r'') ← parse_elements fuel' r; Some (JArr vs, r'')
            end
          else if c =? 0x7B then
            match skip_ws r with
            | [] => None
            | d :: r' =>
                if d =? 0x7D then Some (JObj [], r')
                else
                  '(ms, r'') ← parse_members fuel' r;
                  Some (JObj (fold_left define_prop ms []), r'')
            end
          else if c =? 0x74 then
            r' ← strip_prefix (lit "rue") r; Some (JBool true, r')
          else if c =? 0x66 then
            r' ← strip_prefix (lit "alse") r; Some (JBool false, r')
          else if c =? 0x6E then
            r' ← strip_prefix (lit "ull") r; Some (JNull, r')
          else
            '(tok, r') ← lex_number (c :: r);
            Some (JNum (StringToNumber tok), r')
      end
  end
with parse_elements (fuel : nat) (s : jsstring) : option (list jsval * jsstring) :=
  match fuel with
  | O => None
  | S fuel' =>
      '(v, r) ← parse_value fuel' s;
      match skip_ws r with
      | [] => None
      | c :: r' =>
          if c =? 0x2C then
            '(vs, r'') ← parse_elements fuel' r'; Some (v :: vs, r'')
          else if c =? 0x5D then Some ([v], r')
          else None
      end
  end
with parse_members (fuel : nat) (s : jsstring)
  : option (list (jsstring * jsval) * jsstring) :=
  match fuel with
  | O => None
  | S fuel' =>
      match skip_ws s with
      | [] => None
      | q :: r0 =>
          if q =? 0x22 then
            '(k, r1) ← parse_string r0;
            match skip_ws r1 with
            | [] => None
            | colon :: r2 =>
                if colon =? 0x3A then
                  '(v, r3) ← parse_value fuel' r2;
                  match skip_ws r3 with
                  | [] => None
                  | c :: r4 =>
                      if c =? 0x2C then
                        '(ms, r5) ← parse_members fuel' r4; Some ((k, v) :: ms, r5)
                      else if c =? 0x7D then Some ([(k, v)], r4)
                      else None
                  end
                else None
            end
          else None
      end
  end.

(** [JSON.parse(text)]; [None] stands for the SyntaxError it raises. *)
Definition parse (text : jsstring) : option jsval :=
  '(v, r) ← parse_value (S (length text)) text;
  match skip_ws r with
  | [] => Some v
  | _ :: _ => None
  end.

End Codec.

(** A key that is no array index keeps the place it was created at. *)
Definition named_key (k : jsstring) : Prop := array_index k = None.

(** Values made of [null], booleans, strings, arrays and objects whose keys
    are distinct names: the values whose text holds all of them. *)
#[local] Unset Elimination Schemes.
Inductive plain : jsval -> Prop :=
| plain_null : plain JNull
| plain_bool b : plain (JBool b)
| plain_str s : plain (JStr s)
| plain_arr items : Forall plain items -> plain (JArr items)
| plain_obj props :
    NoDup (List.map fst props) ->
    Forall named_key (List.map fst props) ->
    Forall (fun kv => plain (snd kv)) props ->
    plain (JObj props).
#[local] Set Elimination Schemes.

(** The three parsers at one fuel: a result never depends on the fuel beyond
    the number of characters it consumed. *)
Definition fuel_free `{Runtime} (f : nat) : Prop :=
  (forall s v r,
     parse_value f s = Some (v, r) ->
     (length r < length s)%nat
     /\ forall f', (length s - length r <= f')%nat -> parse_value f' s = Some (v, r))
  /\ (forall s vs r,
        parse_elements f s = Some (vs, r) ->
        (length r < length s)%nat
        /\ forall f', (length s - length r <= f')%nat ->
                      parse_elements f' s = Some (vs, r))
  /\ (forall s ms r,
        parse_members f s = Some (ms, r) ->
        (length r < length s)%nat
        /\ forall f', (length s - length r <= f')%nat ->
                      parse_members f' s = Some (ms, r)).

(** The characters the text of a plain value can start with. *)
Definition opens (c : N) : Prop :=
  c = 0x22 \/ c = 0x5B \/ c = 0x7B \/ c = 0x74 \/ c = 0x66 \/ c = 0x6E.

(** The text of one property of an object. *)
Definition member `{Runtime} (kv : jsstring * jsval) : jsstring :=
  quote (fst kv) ++ 0x3A :: serialize (snd kv).

(** The parser reads the text of [v] back, whatever follows it, with fuel for
    the length of that text. *)
Definition parses `{Runtime} (v : jsval) : Prop :=
  plain v ->
  forall fuel rest,
    (length (serialize v) <= fuel)%nat ->
    parse_value fuel (serialize v ++ rest) = Some (v, rest).

(** *** The text of any value, read back *)

(** What follows a value inside a text: nothing, a comma or a closing
    bracket. *)
Definition closes (rest : jsstring) : Prop :=
  match rest with
  | [] => True
  | c :: _ => c = 0x2C \/ c = 0x5D \/ c = 0x7D
  end.

(** The text [NumberToString] writes for the number is a JSON number: the
    lexer reads exactly that text in front of whatever closes the value. *)
Definition number_text `{Runtime} (f : float) : Prop :=
  forall rest, closes rest ->
    lex_number (NumberToString f ++ rest) = Some (NumberToString f, rest).

(** Every finite number inside the value is written as a JSON number. *)
Fixpoint lexable `{Runtime} (v : jsval) : Prop :=
  match v with
  | JNum f => is_finite f = true -> number_text f
  | JArr items =>
      (fix all (l : list jsval) : Prop :=
         match l with
         | [] => True
         | x :: rest => lexable x /\ all rest
         end) items
  | JObj props =>
      (fix all (l : list (jsstring * jsval)) : Prop :=
         match l with
         | [] => True
         | (_, x) :: rest => lexable x /\ all rest
         end) props
  | _ => True
  end.

(** The properties [JSON.stringify] writes: those that are not [undefined]. *)
Definition written (props : list (jsstring * jsval)) : list (jsstring * jsval) :=
  List.filter (fun kv => match snd kv with JUndefined => false | _ => true end) props.

(** The value [JSON.parse] makes of the text [JSON.stringify] wrote for a
    value: [undefined] and the numbers that are not finite have become
    [null], a number went through its text, and the properties of an object
    were created again in the order of the text. *)
Fixpoint echo `{Runtime} (v : jsval) : jsval :=
  match v with
  | JUndefined | JNull => JNull
  | JBool b => JBool b
  | JNum f => if is_finite f then JNum (StringToNumber (NumberToString f)) else JNull
  | JStr s => JStr s
  | JArr items => JArr (List.map echo items)
  | JObj props =>
      JObj (fold_left define_prop
              ((fix each (l : list (jsstring * jsval)) : list (jsstring * jsval) :=
                  match l with
                  | [] => []
                  | (k, x) :: rest =>
                      match x with
                      | JUndefined => each rest
                      | _ => (k, echo x) :: each rest
                      end
                  end) props) [])
  end.

(** The parser reads the text of the value back as its echo. *)
Definition reads `{Runtime} (v : jsval) : Prop :=
  lexable v ->
  forall fuel rest,
    (length (serialize v) <= fuel)%nat -> closes rest ->
    parse_value fuel (serialize v ++ rest) = Some (echo v, rest).

End JSON.

(** ** The store: [src/space/db.js] *)

Module Db.

(** Rows of the five tables, with the columns of the CREATE TABLE statements.
    A row id is an integer without a bound and a TEXT column holds a string.
    [percent] and [sort] are declared INTEGER, which in SQLite is an affinity
    and no type: the column converts the bound value to an integer when it
    can and keeps a real or a text otherwise.  [featured] is only ever
    written as 1 or 0. *)
Record user_row := {
  user_id : Z;
  username : jsstring;
  password_hash : jsstring;
  role : jsstring;
  user_created_at : jsstring
}.

Record content_row := {
  content_id : Z;
  hero_headline : jsstring;
  hero_subtitle : jsstring;
  content_updated_at : jsstring
}.

Record skill_row := {
  skill_id : Z;
  label : jsstring;
  percent : sqlval;
  skill_sort : sqlval
}.

Record project_row := {
  project_id : Z;
  title : jsstring;
  summary : jsstring;
  stack : jsstring;
  links_json : jsstring;
  featured : Z;
  project_sort : sqlval;
  project_created_at : jsstring;
  project_updated_at : jsstring
}.

(** The [entity_id] the server passes to the audit recorder: [null], the row
    id of an insert (or the constant 1 of the content row), or the number
    read from the [:id] segment of the path. *)
Inductive entity_ref :=
| NoEntity
| EntityRow (id : Z)
| EntityParam (id : float).

Record audit_row := {
  audit_id : Z;
  actor : jsstring;
  action : jsstring;
  entity : jsstring;
  entity_id : entity_ref;
  meta_json : jsstring;
  audit_created_at : jsstring
}.

Record database := {
  users : list user_row;
  content : list content_row;
  skills : list skill_row;
  projects : list project_row;
  audit_log : list audit_row
}.

(** A data file that was just created: [CREATE TABLE IF NOT EXISTS] leaves
    five empty tables. *)
Definition empty : database :=
  {| users := []; content := []; skills := []; projects := []; audit_log := [] |}.

(** The row id SQLite gives an insert that names none: 1 in an empty table,
    one more than the largest otherwise. *)
Definition new_rowid (ids : list Z) : Z :=
  match ids with
  | [] => 1
  | i :: rest => fold_right Z.max i rest + 1
  end.

(** The integer a number stands for, when it stands for one. *)
Definition float_to_Z (f : float) : option Z :=
  match Prim2SF f with
  | S754_zero _ => Some 0
  | S754_finite s m e =>
      let magnitude :=
        if 0 <=? e then Some (Z.pos m * 2 ^ e)
        else if Z.pos m mod 2 ^ (- e) =? 0 then Some (Z.pos m / 2 ^ (- e))
        else None in
      (if s then Z.opp else (fun z => z)) <$> magnitude
  | S754_infinity _ | S754_nan => None
  end.

(** [WHERE id=?] with a number bound to the parameter: SQLite compares the
    integer key with it by value. *)
Definition id_is (param : float) (id : Z) : bool :=
  match float_to_Z param with
  | Some z => id =? z
  | None => false
  end.

(** *** What a column keeps of a bound value *)

(** The string a TEXT column gives back for a string that was bound to it.
    The driver writes the string as UTF-8 and reads the bytes back: a
    surrogate pair is one code point and comes back as it was, a surrogate
    that is not part of a pair is written as U+FFFD. *)
Fixpoint as_text (s : jsstring) : jsstring :=
  match s with
  | [] => []
  | c :: rest =>
      if JSON.is_lead c then
        match rest with
        | d :: rest' =>
            if JSON.is_trail d then c :: d :: as_text rest'
            else 0xFFFD%N :: as_text rest
        | [] => [0xFFFD%N]
        end
      else if JSON.is_trail c then 0xFFFD%N :: as_text rest
      else c :: as_text rest
  end.

(** An argument of [.run] as the driver binds it: a number as a double, a
    string as a text, any other value as [bind_value] has it; [None] when the
    driver raises. *)
Definition bind_argument `{Runtime} (v : jsval) : option bound :=
  match v with
  | JNum f => Some (BoundNumber f)
  | JStr s => Some (BoundText s)
  | _ => bind_value v
  end.

(** INTEGER affinity on a REAL: a number that stands for an integer strictly
    between the least and the largest 64-bit integer is kept as that
    integer, every other number as the real it is. *)
Definition real_column (f : float) : sqlval :=
  match float_to_Z f with
  | Some z => if (- 2 ^ 63 <? z) && (z <? 2 ^ 63 - 1) then SqlInteger z else SqlReal f
  | None => SqlReal f
  end.

(** The value a column declared [INTEGER NOT NULL] takes for a bound value:
    the integer or real of a number, the number a text spells or else the
    text; [None] when the constraint refuses the row, for NULL and for NaN,
    which SQLite takes for NULL. *)
Definition integer_not_null `{Runtime} (b : bound) : option sqlval :=
  match b with
  | BoundNull => None
  | BoundNumber f => if is_nan f then None else Some (real_column f)
  | BoundText s => Some (default (SqlText (as_text s)) (numeric_text (as_text s)))
  end.

(** *** The order of stored values

    ORDER BY and the comparison operators put every number below every
    text, compare an INTEGER and a REAL by their exact values, and compare
    two texts byte by byte in UTF-8, which is code point by code point. *)

(** The first comparison decides, the next one breaks a tie. *)
Definition lexicographic (first next : comparison) : comparison :=
  match first with Eq => next | _ => first end.

(** The code points of a string. *)
Fixpoint code_points (s : jsstring) : list N :=
  match s with
  | [] => []
  | c :: rest =>
      if JSON.is_lead c then
        match rest with
        | d :: rest' =>
            if JSON.is_trail d
            then (0x10000 + (c - 0xD800) * 0x400 + (d - 0xDC00))%N :: code_points rest'
            else 0xFFFD%N :: code_points rest
        | [] => [0xFFFD%N]
        end
      else if JSON.is_trail c then 0xFFFD%N :: code_points rest
      else c :: code_points rest
  end.

Fixpoint compare_points (s t : list N) : comparison :=
  match s, t with
  | [], [] => Eq
  | [], _ :: _ => Lt
  | _ :: _, [] => Gt
  | c :: s', d :: t' => lexicographic (c ?= d)%N (compare_points s' t')
  end.

(** Where a value lies: 0 for the negative infinity, 1 for an integer or a
    finite real, 2 for the positive infinity, 3 for a text.  (A REAL is never
    NaN: SQLite keeps NULL for it.) *)
Definition value_class (v : sqlval) : Z :=
  match v with
  | SqlInteger _ => 1
  | SqlReal f =>
      match Prim2SF f with
      | S754_infinity false => 2
      | S754_infinity true | S754_nan => 0
      | S754_zero _ | S754_finite _ _ _ => 1
      end
  | SqlText _ => 3
  end.

(** The exact value of an integer or of a finite real. *)
Definition number_value (v : sqlval) : Q :=
  match v with
  | SqlInteger z => z # 1
  | SqlReal f =>
      match Prim2SF f with
      | S754_finite s m e =>
          let n := if s then Z.neg m else Z.pos m in
          if 0 <=? e then (n * 2 ^ e) # 1 else n # Z.to_pos (2 ^ (- e))
      | _ => 0 # 1
      end
  | SqlText _ => 0 # 1
  end.

Definition text_value (v : sqlval) : list N :=
  match v with
  | SqlText s => code_points s
  | _ => []
  end.

Definition sql_compare (a b : sqlval) : comparison :=
  lexicographic (value_class a ?= value_class b)
    (lexicographic (number_value a ?= number_value b)%Q
       (compare_points (text_value a) (text_value b))).

Definition sql_lt (a b : sqlval) : Prop := sql_compare a b = Lt.
Definition sql_eq (a b : sqlval) : Prop := sql_compare a b = Eq.

(** [ORDER BY sort ASC, id ASC]. *)
Definition skill_le (a b : skill_row) : Prop :=
  sql_lt (skill_sort a) (skill_sort b)
  \/ (sql_eq (skill_sort a) (skill_sort b) /\ skill_id a <= skill_id b).

(** [ORDER BY featured DESC, sort ASC, id DESC]. *)
Definition project_le (a b : project_row) : Prop :=
  featured b < featured a
  \/ (featured a = featured b
      /\ (sql_lt (project_sort a) (project_sort b)
          \/ (sql_eq (project_sort a) (project_sort b) /\ project_id b <= project_id a))).

#[export] Instance skill_le_dec (a b : skill_row) : Decision (skill_le a b).
Proof. unfold skill_le, sql_lt, sql_eq. apply _. Defined.

#[export] Instance project_le_dec (a b : project_row) : Decision (project_le a b).
Proof. unfold project_le, sql_lt, sql_eq. apply _. Defined.

(** *** The statements the server prepares *)

(** [SELECT ... FROM users WHERE username=?], [.get], for a name. *)
Definition select_user (d : database) (name : jsstring) : option user_row :=
  List.find (fun u => eqs (username u) name) (users d).

(** The same statement run on a value of the body: a string is the name, any
    other value is compared as the driver binds it; [None] when it raises. *)
Definition select_user_by `{Runtime} (d : database) (v : jsval)
  : option (option user_row) :=
  match v with
  | JStr name => Some (select_user d name)
  | _ => key ← bind_text v; Some (name ← key; select_user d name)
  end.

(** [INSERT INTO users (username, password_hash, role) VALUES (?, ?, 'admin')];
    [username] is UNIQUE, so a second row of that name is refused. *)
Definition insert_user (now name hash : jsstring) (d : database) : option database :=
  match select_user d name with
  | Some _ => None
  | None =>
      Some {| users := users d ++ [ {| user_id := new_rowid (List.map user_id (users d));
                                       username := name;
                                       password_hash := hash;
                                       role := lit "admin";
                                       user_created_at := now |} ];
              content := content d; skills := skills d;
              projects := projects d; audit_log := audit_log d |}
  end.

(** [SELECT hero_headline, hero_subtitle, updated_at FROM content WHERE id=1], [.get]. *)
Definition select_content (d : database) : option content_row :=
  List.find (fun c => content_id c =? 1) (content d).

(** [UPDATE content SET hero_headline=?, hero_subtitle=?, updated_at=datetime('now')
    WHERE id=1]. *)
Definition update_content (now headline subtitle : jsstring) (d : database) : database :=
  {| users := users d;
     content :=
       List.map (fun c =>
                   if content_id c =? 1
                   then {| content_id := content_id c;
                           hero_headline := as_text headline;
                           hero_subtitle := as_text subtitle;
                           content_updated_at := now |}
                   else c) (content d);
     skills := skills d; projects := projects d; audit_log := audit_log d |}.

(** [SELECT ... FROM skills ORDER BY sort ASC, id ASC], [.all]. *)
Definition select_skills (d : database) : list skill_row :=
  merge_sort skill_le (skills d).

(** The CHECK constraint of [skills.percent],
    [percent >= 0 AND percent <= 100]. *)
Definition percent_check (p : sqlval) : bool :=
  match sql_compare p (SqlInteger 0), sql_compare p (SqlInteger 100) with
  | Lt, _ | _, Gt => false
  | _, _ => true
  end.

(** [INSERT INTO skills (label, percent, sort) VALUES (?, ?, ?)] with the
    values the driver bound; the result carries [lastInsertRowid].  The
    statement raises, and inserts nothing, when a constraint refuses the
    row. *)
Definition insert_skill `{Runtime} (lbl : jsstring) (pct : float) (sort : bound)
    (d : database) : option (Z * database) :=
  p ← integer_not_null (BoundNumber pct);
  s ← integer_not_null sort;
  if percent_check p then
    let id := new_rowid (List.map skill_id (skills d)) in
    Some (id,
          {| users := users d; content := content d;
             skills := skills d ++ [ {| skill_id := id; label := as_text lbl;
                                        percent := p; skill_sort := s |} ];
             projects := projects d; audit_log := audit_log d |})
  else None.

(** [UPDATE skills SET label=?, percent=?, sort=? WHERE id=?].  The
    constraints are checked on the rows the statement rewrites: with no row
    of that id nothing is checked and nothing changes. *)
Definition update_skill `{Runtime} (lbl : jsstring) (pct : float) (sort : bound)
    (id : float) (d : database) : option database :=
  if existsb (fun r => id_is id (skill_id r)) (skills d) then
    p ← integer_not_null (BoundNumber pct);
    s ← integer_not_null sort;
    if percent_check p then
      Some {| users := users d; content := content d;
              skills :=
                List.map (fun r =>
                            if id_is id (skill_id r)
                            then {| skill_id := skill_id r; label := as_text lbl;
                                    percent := p; skill_sort := s |}
                            else r) (skills d);
              projects := projects d; audit_log := audit_log d |}
    else None
  else Some d.

(** [DELETE FROM skills WHERE id=?]. *)
Definition delete_skill (id : float) (d : database) : database :=
  {| users := users d; content := content d;
     skills := List.filter (fun r => negb (id_is id (skill_id r))) (skills d);
     projects := projects d; audit_log := audit_log d |}.

(** [SELECT ... FROM projects ORDER BY featured DESC, sort ASC, id DESC], [.all]. *)
Definition select_projects (d : database) : list project_row :=
  merge_sort project_le (projects d).

(** [INSERT INTO projects (title, summary, stack, links_json, featured, sort)
    VALUES (?, ?, ?, ?, ?, ?)].  The text of the links is the output of
    [JSON.stringify], which escapes a surrogate that is not part of a pair,
    and is kept as it is. *)
Definition insert_project `{Runtime} (now ttl smry stk links : jsstring) (feat : Z)
    (sort : bound) (d : database) : option (Z * database) :=
  s ← integer_not_null sort;
  let id := new_rowid (List.map project_id (projects d)) in
  Some (id,
        {| users := users d; content := content d; skills := skills d;
           projects := projects d ++ [ {| project_id := id; title := as_text ttl;
                                          summary := as_text smry;
                                          stack := as_text stk;
                                          links_json := links; featured := feat;
                                          project_sort := s;
                                          project_created_at := now;
                                          project_updated_at := now |} ];
           audit_log := audit_log d |}).

(** [UPDATE projects SET title=?, summary=?, stack=?, links_json=?, featured=?,
    sort=?, updated_at=datetime('now') WHERE id=?]; NOT NULL is checked on the
    rows the statement rewrites. *)
Definition update_project `{Runtime} (now ttl smry stk links : jsstring) (feat : Z)
    (sort : bound) (id : float) (d : database) : option database :=
  if existsb (fun r => id_is id (project_id r)) (projects d) then
    s ← integer_not_null sort;
    Some {| users := users d; content := content d; skills := skills d;
            projects :=
              List.map (fun r =>
                          if id_is id (project_id r)
                          then {| project_id := project_id r; title := as_text ttl;
                                  summary := as_text smry; stack := as_text stk;
                                  links_json := links; featured := feat;
                                  project_sort := s;
                                  project_created_at := project_created_at r;
                                  project_updated_at := now |}
                          else r) (projects d);
            audit_log := audit_log d |}
  else Some d.

(** [DELETE FROM projects WHERE id=?]. *)
Definition delete_project (id : float) (d : database) : database :=
  {| users := users d; content := content d; skills := skills d;
     projects := List.filter (fun r => negb (id_is id (project_id r))) (projects d);
     audit_log := audit_log d |}.

(** [INSERT INTO audit_log (actor, action, entity, entity_id, meta_json)
    VALUES (?, ?, ?, ?, ?)]. *)
Definition insert_audit (now who what on : jsstring) (ref : entity_ref)
    (meta : jsstring) (d : database) : database :=
  {| users := users d; content := content d; skills := skills d;
     projects := projects d;
     audit_log := audit_log d ++ [ {| audit_id := new_rowid (List.map audit_id (audit_log d));
                                      actor := who; action := what; entity := on;
                                      entity_id := ref; meta_json := meta;
                                      audit_created_at := now |} ] |}.

(** *** The seed of the content row *)

Definition default_headline : jsstring :=
  lit "TR-KING " ++ [0x2014%N] ++ lit " Software Developer".

Definition default_subtitle : jsstring :=
  lit "I build modern web apps and reliable APIs with JavaScript and Python, and I train custom AI LoRAs as part of practical ML workflows.".

(** [INSERT INTO content (id, hero_headline, hero_subtitle) VALUES (1, ?, ?)]. *)
Definition insert_content (now headline subtitle : jsstring) (d : database) : database :=
  {| users := users d;
     content := content d ++ [ {| content_id := 1; hero_headline := headline;
                                  hero_subtitle := subtitle;
                                  content_updated_at := now |} ];
     skills := skills d; projects := projects d; audit_log := audit_log d |}.

(** The module body of [db.js] on the data file it opens: the content row is
    inserted when [SELECT 1 FROM content WHERE id=1] finds none. *)
Definition open (now : jsstring) (d : database) : database :=
  match select_content d with
  | Some _ => d
  | None => insert_content now default_headline default_subtitle d
  end.

(** What the schema makes of the content table: the key is unique and the
    CHECK constraint admits the id 1 only. *)
Definition content_schema (d : database) : Prop :=
  NoDup (List.map content_id (content d))
  /\ Forall (fun c => content_id c = 1) (content d).

End Db.

(** ** The server: [src/space/server.js] *)

Module Server.
Import Db.

(** The session payload, [{ username, role }]. *)
Record session_user := {
  su_username : jsstring;
  su_role : jsstring
}.

(** The value of the [tektrey.sid] cookie once its signature is checked. *)
Abbreviation sid := (list N).

(** The process: the data file and the session store of express-session.  A
    session is kept in the store from the request that sets [user] on it
    ([saveUninitialized: false]) until it is destroyed. *)
Record state := {
  db : database;
  sessions : gmap sid session_user
}.

(** What a request takes from outside the program: the clock behind
    [datetime('now')] and the id express-session draws for a new session. *)
Record env := {
  now : jsstring;
  new_sid : sid
}.

(** The routes of the application.  A body is the value [express.json]
    parsed, [undefined] when there is none; [:id] is the path segment. *)
Inductive route :=
| PostLogin (body : jsval)
| PostLogout
| GetMe
| GetPublicContent
| GetAdminContent
| PutAdminContent (body : jsval)
| GetAdminSkills
| PostAdminSkills (body : jsval)
| PutAdminSkill (id : jsstring) (body : jsval)
| DeleteAdminSkill (id : jsstring)
| GetAdminProjects
| PostAdminProjects (body : jsval)
| PutAdminProject (id : jsstring) (body : jsval)
| DeleteAdminProject (id : jsstring).

Record request := {
  cookie : option sid;
  target : route
}.

(** What a call raised: a TypeError or SyntaxError of the language, the
    error of SQLite for a row a constraint refuses, the error of bcryptjs,
    and the error of better-sqlite3 for an argument it cannot bind. *)
Inductive exn := TypeError | SyntaxError | SqliteError | BcryptError | BindError.

(** The columns the content queries select. *)
Record content_view := {
  cv_hero_headline : jsstring;
  cv_hero_subtitle : jsstring;
  cv_updated_at : jsstring
}.

(** A skill of the public page: [SELECT id, label, percent]. *)
Record public_skill := {
  ps_id : Z;
  ps_label : jsstring;
  ps_percent : sqlval
}.

(** A listed project, [{ ...p, links: JSON.parse(p.links_json || "[]") }]
    over the columns the query selects. *)
Record project_view := {
  pv_id : Z;
  pv_title : jsstring;
  pv_summary : jsstring;
  pv_stack : jsstring;
  pv_links_json : jsstring;
  pv_featured : Z;
  pv_sort : sqlval;
  pv_updated_at : jsstring;
  pv_links : jsval
}.

(** The objects handed to [res.json], and the answer of Express to an error
    no handler caught. *)
Inductive payload :=
| Ok                                           (* { ok: true } *)
| OkId (id : Z)                                (* { ok: true, id } *)
| OkUser (user : session_user)                 (* { ok: true, user } *)
| Error (message : string)                     (* { error } *)
| Me (user : option session_user)              (* { user } *)
| Content (content : option content_view)      (* { content } *)
| Skills (skills : list skill_row)             (* { skills } *)
| Projects (projects : list project_view)      (* { projects } *)
| Public (content : option content_view) (skills : list public_skill)
         (projects : list project_view)        (* { content, skills, projects } *)
| Uncaught (e : exn).

Record response := {
  status : Z;
  body : payload
}.

(** [res.json(...)], [res.status(code).json(...)] and the final handler. *)
Definition json (p : payload) : response := {| status := 200; body := p |}.
Definition status_json (code : Z) (p : payload) : response :=
  {| status := code; body := p |}.
Definition uncaught (e : exn) : response := {| status := 500; body := Uncaught e |}.

(** A handler runs on the state of the process until it answers: with the
    response of a [return res...] in its middle, or because a call raised. *)
Definition M (A : Type) : Type := state -> (response + A) * state.

Definition ret {A} (a : A) : M A := fun st => (inr a, st).
Definition bind {A B} (m : M A) (k : A -> M B) : M B :=
  fun st =>
    match m st with
    | (inl r, st') => (inl r, st')
    | (inr a, st') => k a st'
    end.
Definition reply {A} (r : response) : M A := fun st => (inl r, st).
Definition throw {A} (e : exn) : M A := reply (uncaught e).

Notation "'let*' x ':=' m 'in' k" := (bind m (fun x => k))
  (at level 10, x pattern, m at level 100, k at level 200).
Notation "'do' m 'then' k" := (bind m (fun _ => k))
  (at level 10, m at level 100, k at level 200).

Definition run (m : M response) (st : state) : response * state :=
  match m st with
  | (inl r, st') => (r, st')
  | (inr r, st') => (r, st')
  end.

(** A query, a statement that cannot fail, and one that raises when a
    constraint of the schema refuses it. *)
Definition query {A} (q : database -> A) : M A := fun st => (inr (q (db st)), st).
Definition exec (f : database -> database) : M unit :=
  fun st => (inr tt, {| db := f (db st); sessions := sessions st |}).
Definition exec_or_raise {A} (f : database -> option (A * database)) : M A :=
  fun st =>
    match f (db st) with
    | Some (a, d) => (inr a, {| db := d; sessions := sessions st |})
    | None => (inl (uncaught SqliteError), st)
    end.
Definition query_or_raise {A} (e : exn) (q : database -> option A) : M A :=
  fun st =>
    match q (db st) with
    | Some a => (inr a, st)
    | None => (inl (uncaught e), st)
    end.
Definition or_raise {A} (e : exn) (o : option A) : M A :=
  match o with
  | Some a => ret a
  | None => throw e
  end.

Section Handlers.
Context {RT : Runtime}.
Variable E : env.
Variable req : request.

(** The session of the request: the stored one the cookie names, if any. *)
Definition session_id (st : state) : sid :=
  match cookie req with
  | Some c => match sessions st !! c with Some _ => c | None => new_sid E end
  | None => new_sid E
  end.

(** [req.session?.user]. *)
Definition session_user_of (st : state) : option session_user :=
  c ← cookie req; sessions st !! c.

Definition get_session_user : M (option session_user) :=
  fun st => (inr (session_user_of st), st).

(** [req.session.user = u], saved when the response ends. *)
Definition set_session_user (u : session_user) : M unit :=
  fun st => (inr tt, {| db := db st; sessions := <[session_id st := u]> (sessions st) |}).

(** [req.session.destroy(...)]. *)
Definition destroy_session : M unit :=
  fun st =>
    (inr tt,
     {| db := db st;
        sessions := match cookie req with
                    | Some c => delete c (sessions st)
                    | None => sessions st
                    end |}).

(** [req.session.user.username]. *)
Definition session_username : M jsstring :=
  let* u := get_session_user in
  match u with
  | Some u => ret (su_username u)
  | None => throw TypeError
  end.

Definition requireAuth (next : M response) : M response :=
  let* u := get_session_user in
  match u with
  | None => reply (status_json 401 (Error "Unauthorized"))
  | Some _ => next
  end.

Definition audit (actor action entity : jsstring) (entity_id : entity_ref)
    (meta : jsval) : M unit :=
  exec (insert_audit (now E) actor action entity entity_id (JSON.stringify meta)).

(** [v.trim()]: a TypeError unless [v] is a string. *)
Definition call_trim (v : jsval) : M jsstring :=
  match v with
  | JStr s => ret (trim s)
  | _ => throw TypeError
  end.

(** [a || b]. *)
Definition js_or (a b : jsval) : jsval := if ToBoolean a then a else b.

(** [Number(v)], which raises where the conversion does. *)
Definition Number (v : jsval) : M float := or_raise TypeError (ToNumber v).

Definition content_view_of (c : content_row) : content_view :=
  {| cv_hero_headline := Db.hero_headline c;
     cv_hero_subtitle := Db.hero_subtitle c;
     cv_updated_at := content_updated_at c |}.

Definition public_skill_of (s : skill_row) : public_skill :=
  {| ps_id := skill_id s; ps_label := Db.label s; ps_percent := Db.percent s |}.

(** [p => ({ ...p, links: JSON.parse(p.links_json || "[]") })]. *)
Definition expand_links (p : project_row) : option project_view :=
  links ← JSON.parse (match links_json p with [] => lit "[]" | text => text end);
  Some {| pv_id := project_id p; pv_title := Db.title p;
          pv_summary := Db.summary p; pv_stack := Db.stack p;
          pv_links_json := links_json p; pv_featured := Db.featured p;
          pv_sort := project_sort p; pv_updated_at := project_updated_at p;
          pv_links := links |}.

(** [.all().map(...)]: the first text that does not parse raises. *)
Definition list_projects : M (list project_view) :=
  let* rows := query select_projects in
  or_raise SyntaxError (mapM expand_links rows).

(** [POST /api/login] *)
Definition post_login (body : jsval) : M response :=
  let body := js_or body (JObj []) in
  let username := get_prop body (lit "username") in
  let password := get_prop body (lit "password") in
  let* user := query_or_raise TypeError (fun d => select_user_by d username) in
  match user with
  | None => reply (status_json 401 (Error "Invalid credentials"))
  | Some user =>
      let* ok := or_raise BcryptError (compareSync password (Db.password_hash user)) in
      if negb ok then reply (status_json 401 (Error "Invalid credentials"))
      else
        let su := {| su_username := Db.username user; su_role := Db.role user |} in
        do set_session_user su then
        do audit (Db.username user) (lit "login") (lit "auth") NoEntity (JObj []) then
        ret (json (OkUser su))
  end.

(** [POST /api/logout] *)
Definition post_logout : M response :=
  requireAuth (
    let* actor := session_username in
    do destroy_session then
    do audit actor (lit "logout") (lit "auth") NoEntity (JObj []) then
    ret (json Ok)).

(** [GET /api/me] *)
Definition get_me : M response :=
  let* u := get_session_user in
  ret (json (Me u)).

(** [GET /api/public/content] *)
Definition get_public_content : M response :=
  let* content := query select_content in
  let* skills := query select_skills in
  let* projects := list_projects in
  ret (json (Public (content_view_of <$> content)
                    (List.map public_skill_of skills) projects)).

(** [GET /api/admin/content] *)
Definition get_admin_content : M response :=
  requireAuth (
    let* content := query select_content in
    ret (json (Content (content_view_of <$> content)))).

(** [PUT /api/admin/content] *)
Definition put_admin_content (body : jsval) : M response :=
  requireAuth (
    let body := js_or body (JObj []) in
    let hero_headline := get_prop body (lit "hero_headline") in
    let hero_subtitle := get_prop body (lit "hero_subtitle") in
    if negb (ToBoolean hero_headline) || negb (ToBoolean hero_subtitle)
    then reply (status_json 400 (Error "Missing fields"))
    else
      let* headline := call_trim hero_headline in
      let* subtitle := call_trim hero_subtitle in
      do exec (update_content (now E) headline subtitle) then
      let* actor := session_username in
      do audit actor (lit "update") (lit "content") (EntityRow 1) (JObj []) then
      ret (json Ok)).

(** [GET /api/admin/skills] *)
Definition get_admin_skills : M response :=
  requireAuth (
    let* skills := query select_skills in
    ret (json (Skills skills))).

Definition percent_rejected (pct : float) : bool :=
  negb (is_finite pct) || (pct <? 0)%float || (100 <? pct)%float.

(** [POST /api/admin/skills] *)
Definition post_admin_skills (body : jsval) : M response :=
  requireAuth (
    let body := js_or body (JObj []) in
    let label := get_prop body (lit "label") in
    let percent := get_prop body (lit "percent") in
    let sort := or_default (get_prop body (lit "sort")) (JNum 0) in
    if negb (ToBoolean label) then reply (status_json 400 (Error "Label required"))
    else
      let* pct := Number percent in
      if percent_rejected pct then reply (status_json 400 (Error "Percent 0-100"))
      else
        let* trimmed := call_trim label in
        let* srt := or_raise BindError (bind_argument sort) in
        let* id := exec_or_raise (insert_skill trimmed pct srt) in
        let* actor := session_username in
        do audit actor (lit "create") (lit "skill") (EntityRow id)
                 (JObj [(lit "label", label); (lit "percent", JNum pct)]) then
        ret (json (OkId id))).

(** [PUT /api/admin/skills/:id] *)
Definition put_admin_skill (id_param : jsstring) (body : jsval) : M response :=
  requireAuth (
    let id := StringToNumber id_param in
    let body := js_or body (JObj []) in
    let label := get_prop body (lit "label") in
    let percent := get_prop body (lit "percent") in
    let sort := or_default (get_prop body (lit "sort")) (JNum 0) in
    let* pct := Number percent in
    if negb (ToBoolean label) then reply (status_json 400 (Error "Label required"))
    else if percent_rejected pct then reply (status_json 400 (Error "Percent 0-100"))
    else
      let* trimmed := call_trim label in
      let* srt := or_raise BindError (bind_argument sort) in
      do exec_or_raise (fun d => pair tt <$> update_skill trimmed pct srt id d) then
      let* actor := session_username in
      do audit actor (lit "update") (lit "skill") (EntityParam id)
               (JObj [(lit "label", label); (lit "percent", JNum pct)]) then
      ret (json Ok)).

(** [DELETE /api/admin/skills/:id] *)
Definition delete_admin_skill (id_param : jsstring) : M response :=
  requireAuth (
    let id := StringToNumber id_param in
    do exec (delete_skill id) then
    let* actor := session_username in
    do audit actor (lit "delete") (lit "skill") (EntityParam id) (JObj []) then
    ret (json Ok)).

(** [GET /api/admin/projects] *)
Definition get_admin_projects : M response :=
  requireAuth (
    let* projects := list_projects in
    ret (json (Projects projects))).

(** The arguments both project statements are run with, left to right. *)
Definition project_arguments (title summary stack links featured : jsval)
  : M (jsstring * jsstring * jsstring * jsstring * Z) :=
  let* ttl := call_trim title in
  let* smry := call_trim summary in
  let* stk := or_raise TypeError (ToString (js_or stack (JStr []))) in
  ret (ttl, smry, trim stk,
       JSON.stringify (if isArray links then links else JArr []),
       if ToBoolean featured then 1 else 0).

(** [POST /api/admin/projects] *)
Definition post_admin_projects (body : jsval) : M response :=
  requireAuth (
    let body := js_or body (JObj []) in
    let title := get_prop body (lit "title") in
    let summary := get_prop body (lit "summary") in
    let stack := or_default (get_prop body (lit "stack")) (JStr []) in
    let links := or_default (get_prop body (lit "links")) (JArr []) in
    let featured := or_default (get_prop body (lit "featured")) (JNum 0) in
    let sort := or_default (get_prop body (lit "sort")) (JNum 0) in
    if negb (ToBoolean title) || negb (ToBoolean summary)
    then reply (status_json 400 (Error "Title and summary required"))
    else
      let* (ttl, smry, stk, links_text, feat) :=
        project_arguments title summary stack links featured in
      let* srt := or_raise BindError (bind_argument sort) in
      let* id := exec_or_raise (insert_project (now E) ttl smry stk links_text feat srt) in
      let* actor := session_username in
      do audit actor (lit "create") (lit "project") (EntityRow id)
               (JObj [(lit "title", title)]) then
      ret (json (OkId id))).

(** [PUT /api/admin/projects/:id] *)
Definition put_admin_project (id_param : jsstring) (body : jsval) : M response :=
  requireAuth (
    let id := StringToNumber id_param in
    let body := js_or body (JObj []) in
    let title := get_prop body (lit "title") in
    let summary := get_prop body (lit "summary") in
    let stack := or_default (get_prop body (lit "stack")) (JStr []) in
    let links := or_default (get_prop body (lit "links")) (JArr []) in
    let featured := or_default (get_prop body (lit "featured")) (JNum 0) in
    let sort := or_default (get_prop body (lit "sort")) (JNum 0) in
    if negb (ToBoolean title) || negb (ToBoolean summary)
    then reply (status_json 400 (Error "Title and summary required"))
    else
      let* (ttl, smry, stk, links_text, feat) :=
        project_arguments title summary stack links featured in
      let* srt := or_raise BindError (bind_argument sort) in
      do exec_or_raise (fun d =>
           pair tt <$> update_project (now E) ttl smry stk links_text feat srt id d) then
      let* actor := session_username in
      do audit actor (lit "update") (lit "project") (EntityParam id)
               (JObj [(lit "title", title)]) then
      ret (json Ok)).

(** [DELETE /api/admin/projects/:id] *)
Definition delete_admin_project (id_param : jsstring) : M response :=
  requireAuth (
    let id := StringToNumber id_param in
    do exec (delete_project id) then
    let* actor := session_username in
    do audit actor (lit "delete") (lit "project") (EntityParam id) (JObj []) then
    ret (json Ok)).

(** The router: the handler registered for the route. *)
Definition dispatch : M response :=
  match target req with
  | PostLogin body => post_login body
  | PostLogout => post_logout
  | GetMe => get_me
  | GetPublicContent => get_public_content
  | GetAdminContent => get_admin_content
  | PutAdminContent body => put_admin_content body
  | GetAdminSkills => get_admin_skills
  | PostAdminSkills body => post_admin_skills body
  | PutAdminSkill id body => put_admin_skill id body
  | DeleteAdminSkill id => delete_admin_skill id
  | GetAdminProjects => get_admin_projects
  | PostAdminProjects body => post_admin_projects body
  | PutAdminProject id body => put_admin_project id body
  | DeleteAdminProject id => delete_admin_project id
  end.

End Handlers.

(** One request served: the response and the state it leaves. *)
Definition handle `{Runtime} (E : env) (req : request) (st : state)
  : response * state :=
  run (dispatch E req) st.

(** The routes under [/api/admin/]. *)
Definition is_admin (r : route) : bool :=
  match r with
  | PostLogin _ | PostLogout | GetMe | GetPublicContent => false
  | _ => true
  end.

(** The environment variables of the process and the constants read from
    them: [process.env.X || default]. *)
Record process_env := {
  env_ADMIN_USERNAME : option jsstring;
  env_ADMIN_PASSWORD : option jsstring
}.

Definition ADMIN_USERNAME (pe : process_env) : jsstring :=
  match env_ADMIN_USERNAME pe with
  | Some (c :: s) => c :: s
  | _ => lit "admin"
  end.

Definition ADMIN_PASSWORD (pe : process_env) : option jsstring :=
  match env_ADMIN_PASSWORD pe with
  | Some (c :: s) => Some (c :: s)
  | _ => None
  end.

(** [ensureAdminUser()]. *)
Definition ensureAdminUser `{Runtime} (pe : process_env) (now : jsstring)
    (d : database) : database :=
  match select_user d (ADMIN_USERNAME pe) with
  | Some _ => d
  | None =>
      match ADMIN_PASSWORD pe with
      | None => d
      | Some password =>
          let password_hash := hashSync password 12 in
          default d (insert_user now (ADMIN_USERNAME pe) password_hash d)
      end
  end.

(** Start of the process on a data file: [db.js] runs on import, then the
    admin user is seeded; the session store is empty. *)
Definition boot `{Runtime} (pe : process_env) (now : jsstring) (d : database) : state :=
  {| db := ensureAdminUser pe now (Db.open now d); sessions := ∅ |}.

(** The states of the process: it starts on a data file that obeys the
    schema and then serves requests one after the other. *)
Inductive reachable `{Runtime} : state -> Prop :=
| reachable_boot pe now d :
    content_schema d -> reachable (boot pe now d)
| reachable_handle E req st :
    reachable st -> reachable (snd (handle E req st)).

(** The content table holds one row, and its id is 1. *)
Definition content_singleton (d : database) : Prop :=
  exists row, content d = [row] /\ content_id row = 1.

(** Every stored [links_json] is a text [JSON.parse] accepts. *)
Definition projects_readable `{Runtime} (d : database) : Prop :=
  Forall (fun p => is_Some (expand_links p)) (projects d).


(** A computation keeps a relation between the data it starts on and the
    data it leaves. *)
Definition keeps (P : relation database) {A} (m : M A) : Prop :=
  forall st, P (db st) (db (snd (m st))).

(** The content table is the same after as before. *)
Definition same_content : relation database := fun d d' => content d' = content d.

(** The content table is still a single row of id 1 if it was. *)
Definition keeps_singleton : relation database :=
  fun d d' => content_singleton d -> content_singleton d'.

(** A link of a project, [{ "url": ..., "label": ... }]. *)
Definition link_object (v : jsval) : Prop :=
  exists url label : jsstring,
    v = JObj [(lit "url", JStr url); (lit "label", JStr label)].

(** *** What the routes write and what the data keeps *)

(** The routes that only read: the GET routes. *)
Definition is_read (r : route) : bool :=
  match r with
  | GetMe | GetPublicContent | GetAdminContent | GetAdminSkills | GetAdminProjects => true
  | _ => false
  end.

(** The [action] and [entity] the handler of a route passes to [audit]. *)
Definition audited (r : route) : option (string * string) :=
  match r with
  | PostLogin _ => Some ("login", "auth")%string
  | PostLogout => Some ("logout", "auth")%string
  | PutAdminContent _ => Some ("update", "content")%string
  | PostAdminSkills _ => Some ("create", "skill")%string
  | PutAdminSkill _ _ => Some ("update", "skill")%string
  | DeleteAdminSkill _ => Some ("delete", "skill")%string
  | PostAdminProjects _ => Some ("create", "project")%string
  | PutAdminProject _ _ => Some ("update", "project")%string
  | DeleteAdminProject _ => Some ("delete", "project")%string
  | GetMe | GetPublicContent | GetAdminContent | GetAdminSkills | GetAdminProjects => None
  end.

(** The CHECK constraint of [skills.percent], on every row. *)
Definition percents_in_range (d : database) : Prop :=
  Forall (fun r => percent_check (percent r) = true) (skills d).

(** INTEGER PRIMARY KEY: no two rows of a table share an id. *)
Definition keys_unique (d : database) : Prop :=
  NoDup (List.map user_id (users d))
  /\ NoDup (List.map skill_id (skills d))
  /\ NoDup (List.map project_id (projects d))
  /\ NoDup (List.map audit_id (audit_log d)).

(** The requests of a run in the order they are served, each with the clock
    and the fresh session id of its moment. *)
Definition serve_all `{Runtime} (requests : list (env * request)) (st : state) : state :=
  fold_left (fun s er => snd (handle (fst er) (snd er) s)) requests st.

(** Neither the first nor the last code unit of the text is white space. *)
Definition trimmed (s : jsstring) : Prop :=
  match s with [] => True | c :: _ => is_space c = false end
  /\ match rev s with [] => True | c :: _ => is_space c = false end.

(** The texts the handlers write, in every row: skill labels, project
    titles, summaries and stacks, and the two fields of the content row. *)
Definition texts_trimmed (d : database) : Prop :=
  Forall (fun r => trimmed (label r)) (skills d)
  /\ Forall (fun p => trimmed (title p) /\ trimmed (summary p) /\ trimmed (stack p))
       (projects d)
  /\ Forall (fun c => trimmed (hero_headline c) /\ trimmed (hero_subtitle c)) (content d).

(** Every stored session holds the name and role of a row of the users
    table. *)
Definition sessions_of_accounts (st : state) : Prop :=
  forall c su,
    sessions st !! c = Some su ->
    exists row,
      row ∈ users (db st) /\ username row = su_username su /\ role row = su_role su.

End Server.

(** ** The script of the admin page: [src/unnamed/part_000] *)

Module Page.
Import Server.

(** The entity [escapeHtml] writes for each of the five characters of its
    character class, from the object literal of the replacer. *)
Definition markup_entity (c : N) : option jsstring :=
  if (c =? 0x26)%N then Some (lit "&amp;")
  else if (c =? 0x3C)%N then Some (lit "&lt;")
  else if (c =? 0x3E)%N then Some (lit "&gt;")
  else if (c =? 0x22)%N then Some (lit "&quot;")
  else if (c =? 0x27)%N then Some (lit "&#039;")
  else None.

(** [text.replace(class, replacer)]: the regular expression has the global
    flag and no unicode flag, so every code unit of the class is replaced in
    turn and the others are copied. *)
Fixpoint replace_markup (text : jsstring) : jsstring :=
  match text with
  | [] => []
  | c :: rest => default [c] (markup_entity c) ++ replace_markup rest
  end.

(** [escapeHtml(s)]; [String(s)] raises where ToString does. *)
Definition escapeHtml `{Runtime} (s : jsval) : option jsstring :=
  replace_markup <$> ToString s.

(** What [fetch] resolved with, as [api] uses it: the status and the text of
    the body. *)
Record fetched := {
  res_status : Z;
  res_text : jsstring
}.

(** [res.ok]: the status is in the range 200-299. *)
Definition res_ok (res : fetched) : bool :=
  (200 <=? res_status res) && (res_status res <=? 299).

(** What [await api(...)] comes to once the response is there: the data it
    returns, the [Error] it throws, or the TypeError of reading [error] off
    [null] or of a message that has no string. *)
Inductive outcome :=
| Returned (data : jsval)
| ThrownError (message : jsstring)
| ThrownTypeError.

(** [api], from the response on: [res.json()] rejects on a text that is not
    JSON and the [catch] puts [{}] in its place. *)
Definition api `{Runtime} (res : fetched) : outcome :=
  let data := default (JObj []) (JSON.parse (res_text res)) in
  if negb (res_ok res) then
    match data with
    | JNull => ThrownTypeError
    | _ =>
        match ToString (js_or (get_prop data (lit "error"))
                          (JStr (lit "Request failed"))) with
        | Some message => ThrownError message
        | None => ThrownTypeError
        end
    end
  else Returned data.

(** The object the [addSkill] button serializes:
    [{ label, percent: Number(value || 0), sort: 0 }]. *)
Definition add_skill_body `{Runtime} (skillLabel skillPercent : jsstring) : jsval :=
  JObj [(lit "label", JStr skillLabel);
        (lit "percent",
         JNum (match skillPercent with
               | [] => 0%float
               | _ => StringToNumber skillPercent
               end));
        (lit "sort", JNum 0)].

(** The body a route is given for an object the page sent with
    [body: JSON.stringify(...)]: [express.json] parses the text. *)
Definition received `{Runtime} (sent : jsval) : option jsval :=
  JSON.parse (JSON.stringify sent).

(** What [fetch] receives when a handler ended in
    [res.status(code).json({ error })]: the status and the text of the object. *)
Definition error_response `{Runtime} (r : response) : option fetched :=
  match body r with
  | Error message =>
      Some {| res_status := status r;
              res_text := JSON.stringify (JObj [(lit "error", JStr (lit message))]) |}
  | _ => None
  end.

(** A code unit that neither opens nor closes a tag or an attribute value. *)
Definition inert (c : N) : Prop :=
  (c <> 0x3C /\ c <> 0x3E /\ c <> 0x22 /\ c <> 0x27)%N.

(** The five entities without their ampersand. *)
Definition entity_names : list jsstring :=
  [lit "amp;"; lit "lt;"; lit "gt;"; lit "quot;"; lit "#039;"].

End Page.

(** ** A runtime and a process to run the definitions on *)

Module Sample.
Import Db Server.

(** The value of a text made of decimal digits only. *)
Definition decimal (s : jsstring) : option Z :=
  match s with
  | [] => None
  | _ :: _ =>
      if forallb JSON.is_digit s
      then Some (fold_left (fun a d => 10 * a + Z.of_N (d - 48)) s 0)
      else None
  end.

(** The digits of a natural number, most significant first. *)
Definition digits (z : Z) : jsstring :=
  match z with
  | Z0 => lit "0"
  | _ =>
      (fix go (fuel : nat) (n : N) (acc : jsstring) : jsstring :=
         match fuel with
         | O => acc
         | S fuel' =>
             if (n =? 0)%N then acc
             else go fuel' (n / 10)%N ((48 + n mod 10)%N :: acc)
         end) (Z.to_nat (Z.log2 (Z.abs z)) + 1)%nat (Z.to_N (Z.abs z)) []
  end.

(** A runtime that reads and prints small non-negative integers the way
    ECMAScript does and gives [NaN] to every other text, binds [null] as
    NULL and the only element of an array in place of the array, reads an
    integer in a text of digits, and hashes by prefixing. *)
#[export] Instance runtime : Runtime := {|
  StringToNumber := fun s =>
    match decimal (trim s) with
    | Some z => of_uint63 (Uint63.of_Z z)
    | None => nan
    end;
  NumberToString := fun f =>
    match float_to_Z f with
    | Some z => if z <? 0 then lit "-" ++ digits z else digits z
    | None => lit "NaN"
    end;
  compareSync := fun password hash =>
    match password with
    | JStr s => Some (eqs (lit "$2a$12$" ++ s) hash)
    | _ => None
    end;
  hashSync := fun password _ => lit "$2a$12$" ++ password;
  bind_text := fun v =>
    match v with
    | JUndefined | JNull => Some None
    | _ => None
    end;
  bind_value := fun v =>
    match v with
    | JUndefined | JNull | JArr [JUndefined] | JArr [JNull] => Some BoundNull
    | JArr [JNum f] => Some (BoundNumber f)
    | JArr [JStr s] => Some (BoundText s)
    | _ => None
    end;
  numeric_text := fun s => SqlInteger <$> decimal s
|}.

Definition environment : process_env :=
  {| env_ADMIN_USERNAME := None; env_ADMIN_PASSWORD := Some (lit "secret") |}.

Definition clock : env := {| now := lit "2024-01-01 00:00:00"; new_sid := lit "sid-1" |}.

(** The process started on a new data file. *)
Definition started : state := boot environment (now clock) Db.empty.

(** The body of a login, [{ username, password }]. *)
Definition credentials (username password : jsstring) : jsval :=
  JObj [(lit "username", JStr username); (lit "password", JStr password)].

(** The admin has logged in and holds the cookie [sid-1]. *)
Definition logged_in : state :=
  snd (handle clock {| cookie := None;
                       target := PostLogin (credentials (lit "admin") (lit "secret")) |}
         started).

Definition as_admin (r : route) : request :=
  {| cookie := Some (lit "sid-1"); target := r |}.

Definition anonymous (r : route) : request := {| cookie := None; target := r |}.

(** The session payload of the admin, and a later moment. *)
Definition admin : session_user :=
  {| su_username := lit "admin"; su_role := lit "admin" |}.

Definition later : env := {| now := lit "2024-01-02 00:00:00"; new_sid := lit "sid-2" |}.

(** The requests served one after the other. *)
Definition serve (reqs : list request) (st : state) : state :=
  fold_left (fun s r => snd (handle clock r s)) reqs st.

(** The admin has added two skills and two projects. *)
Definition populated : state :=
  serve
    [ as_admin (PostAdminSkills
        (JObj [(lit "label", JStr (lit "Go")); (lit "percent", JNum 80);
               (lit "sort", JNum 2)]));
      as_admin (PostAdminSkills
        (JObj [(lit "label", JStr (lit "Rust")); (lit "percent", JNum 60);
               (lit "sort", JNum 1)]));
      as_admin (PostAdminProjects
        (JObj [(lit "title", JStr (lit "Tool")); (lit "summary", JStr (lit "A CLI"))]));
      as_admin (PostAdminProjects
        (JObj [(lit "title", JStr (lit "Site")); (lit "summary", JStr (lit "Mine"));
               (lit "links",
                JArr [JObj [(lit "url", JStr (lit "https://x"));
                            (lit "label", JStr (lit "x"))]]);
               (lit "featured", JBool true)])) ]
    logged_in.

(** The data of [populated] after another program has written a links text
    that is no JSON into the project of id 1. *)
Definition damaged : state :=
  {| db := {| users := users (db populated); content := content (db populated);
              skills := skills (db populated);
              projects :=
                List.map (fun p =>
                            if project_id p =? 1
                            then {| project_id := project_id p; title := title p;
                                    summary := summary p; stack := stack p;
                                    links_json := lit "oops";
                                    featured := featured p;
                                    project_sort := project_sort p;
                                    project_created_at := project_created_at p;
                                    project_updated_at := project_updated_at p |}
                            else p) (projects (db populated));
              audit_log := audit_log (db populated) |};
     sessions := sessions populated |}.

(** The row of the admin the process seeded at its start. *)
Definition seeded : user_row :=
  {| user_id := 1; username := lit "admin"; password_hash := lit "$2a$12$secret";
     role := lit "admin"; user_created_at := now clock |}.

(** The environment with another password, and one that configures none. *)
Definition rotated : process_env :=
  {| env_ADMIN_USERNAME := None; env_ADMIN_PASSWORD := Some (lit "changed") |}.

Definition unconfigured : process_env :=
  {| env_ADMIN_USERNAME := None; env_ADMIN_PASSWORD := Some [] |}.

End Sample.

(** ** The text of a value read back *)

Module JSONFacts.
Import JSON.
Local Open Scope N_scope.

(** Booleans of the code-unit tests, as facts lia can use. *)
Ltac units :=
  repeat match goal with
  | H : (_ && _)%bool = true |- _ => apply andb_true_iff in H; destruct H
  | H : (_ || _)%bool = false |- _ => apply orb_false_iff in H; destruct H
  | H : (_ =? _) = true |- _ => apply N.eqb_eq in H
  | H : (_ =? _) = false |- _ => apply N.eqb_neq in H
  | H : (_ <=? _) = true |- _ => apply N.leb_le in H
  | H : (_ <=? _) = false |- _ => apply N.leb_gt in H
  | H : (_ <? _) = true |- _ => apply N.ltb_lt in H
  | H : (_ <? _) = false |- _ => apply N.ltb_ge in H
  end.

Lemma hex_value_digit d : d < 16 -> hex_value (hex_digit d) = Some d.
Proof.
  intros Hd. unfold hex_digit, hex_value.
  destruct (d <? 10) eqn:H10; units.
  - replace ((48 <=? 48 + d) && (48 + d <=? 57))%bool with true
      by (symmetry; apply andb_true_iff; split; apply N.leb_le; lia).
    f_equal. lia.
  - replace ((48 <=? 87 + d) && (87 + d <=? 57))%bool with false
      by (symmetry; apply andb_false_iff; right; apply N.leb_gt; lia).
    replace ((97 <=? 87 + d) && (87 + d <=? 102))%bool with true
      by (symmetry; apply andb_true_iff; split; apply N.leb_le; lia).
    f_equal. lia.
Qed.

Lemma hex_split c :
  c < 65536 ->
  4096 * (c / 4096 mod 16) + 256 * (c / 256 mod 16) + 16 * (c / 16 mod 16) + c mod 16 = c.
Proof.
  intros Hc.
  replace (c / 256) with (c / 16 / 16) by (rewrite N.Div0.div_div; reflexivity).
  replace (c / 4096) with (c / 16 / 16 / 16) by (rewrite !N.Div0.div_div; reflexivity).
  pose proof (N.div_mod c 16 ltac:(lia)).
  pose proof (N.div_mod (c / 16) 16 ltac:(lia)).
  pose proof (N.div_mod (c / 16 / 16) 16 ltac:(lia)).
  assert (c / 16 / 16 / 16 < 16) as Hs.
  { repeat apply N.Div0.div_lt_upper_bound. lia. }
  rewrite (N.mod_small (c / 16 / 16 / 16) 16) by assumption. lia.
Qed.

Lemma parse_unicode_escape c tail :
  c < 65536 ->
  parse_string (unicode_escape c ++ tail)
  = '(t, rest) ← parse_string tail; Some (c :: t, rest).
Proof.
  intros Hc. unfold unicode_escape. cbn [app parse_string].
  cbn [N.eqb Pos.eqb]. 
  rewrite !hex_value_digit by (apply N.mod_lt; lia). cbn [mbind option_bind].
  rewrite hex_split by assumption. reflexivity.
Qed.


Lemma parse_literal c tail :
  c <> 0x22 -> c <> 0x5C -> 0x20 <= c ->
  parse_string (c :: tail) = '(t, rest) ← parse_string tail; Some (c :: t, rest).
Proof.
  intros H1 H2 H3. cbn [parse_string].
  apply N.eqb_neq in H1. apply N.eqb_neq in H2. rewrite H1, H2.
  replace (c <? 0x20) with false by (symmetry; apply N.ltb_ge; exact H3).
  reflexivity.
Qed.

Lemma parse_quote_unit c tail :
  is_lead c = false ->
  parse_string (quote_unit c ++ tail)
  = '(t, rest) ← parse_string tail; Some (c :: t, rest).
Proof.
  intros Hlead. unfold quote_unit.
  repeat match goal with
  | |- context [if ?c =? ?k then _ else _] =>
      destruct (N.eqb_spec c k) as [->|?]; [reflexivity|]
  end.
  destruct ((c <? 0x20) || is_lead c || is_trail c)%bool eqn:Hesc.
  - apply parse_unicode_escape.
    rewrite Hlead, orb_false_r in Hesc. apply orb_true_iff in Hesc as [H|H].
    + apply N.ltb_lt in H. lia.
    + unfold is_trail in H. units. lia.
  - units. apply parse_literal; assumption.
Qed.

Lemma parse_quote_body s : forall rest,
  parse_string (quote_body s ++ 0x22 :: rest) = Some (s, rest).
Proof.
  remember (length s) as n eqn:Hn. revert s Hn.
  induction n as [n IH] using lt_wf_ind. intros s Hn rest.
  destruct s as [ | c s ]; [reflexivity|].
  cbn [quote_body]. destruct (is_lead c) eqn:Hlead.
  - destruct s as [ | d s ].
    + rewrite parse_unicode_escape by (unfold is_lead in Hlead; units; lia). reflexivity.
    + destruct (is_trail d) eqn:Htrail.
      * cbn [app]. unfold is_lead in Hlead. unfold is_trail in Htrail. units.
        rewrite parse_literal by lia. rewrite parse_literal by lia.
        rewrite (IH (length s)) by (cbn in Hn; first [lia|reflexivity]). reflexivity.
      * rewrite <- app_assoc.
        rewrite parse_unicode_escape by (unfold is_lead in Hlead; units; lia).
        rewrite (IH (length (d :: s))) by (cbn in Hn |- *; first [lia|reflexivity]).
        reflexivity.
  - rewrite <- app_assoc. rewrite parse_quote_unit by assumption.
    rewrite (IH (length s)) by (cbn in Hn; first [lia|reflexivity]). reflexivity.
Qed.

Lemma quote_app s rest : quote s ++ rest = 0x22 :: quote_body s ++ 0x22 :: rest.
Proof. unfold quote. cbn. rewrite <- app_assoc. reflexivity. Qed.


Lemma skip_ws_cons c tail : is_ws c = false -> skip_ws (c :: tail) = c :: tail.
Proof. intros H. cbn. rewrite H. reflexivity. Qed.

Lemma opens_not_ws c : opens c -> is_ws c = false.
Proof. intros H. repeat destruct H as [->|H]; try subst c; reflexivity. Qed.

Lemma has_own_false props k :
  k ∉ List.map fst props -> has_own props k = false.
Proof.
  unfold has_own. induction props as [ | [k' v] props IH ]; cbn; [reflexivity|].
  intros Hnotin. apply not_elem_of_cons in Hnotin as [Hne Hrest].
  unfold eqs. rewrite bool_decide_eq_false_2 by congruence. apply IH, Hrest.
Qed.

Lemma insert_prop_named props k v :
  named_key k -> insert_prop props k v = props ++ [(k, v)].
Proof.
  unfold named_key. intros Hk.
  induction props as [ | [k' v'] props IH ]; cbn; [reflexivity|].
  rewrite Hk, IH. reflexivity.
Qed.

Lemma define_props_named props : forall acc,
  NoDup (List.map fst (acc ++ props)) ->
  Forall named_key (List.map fst props) ->
  fold_left define_prop props acc = acc ++ props.
Proof.
  induction props as [ | [k v] props IH ]; intros acc Hnodup Hnamed; cbn.
  - rewrite app_nil_r. reflexivity.
  - inversion Hnamed as [ | ? ? Hk Hrest ]; subst.
    unfold define_prop at 2. cbn [fst snd].
    rewrite has_own_false.
    + rewrite insert_prop_named by assumption.
      rewrite IH; [rewrite <- app_assoc; reflexivity| |assumption].
      rewrite <- app_assoc. exact Hnodup.
    + rewrite map_app in Hnodup. cbn in Hnodup.
      apply NoDup_app in Hnodup as (_ & Hdisj & _).
      intros Hin. apply (Hdisj k Hin). left.
Qed.

Section Codec.
Context {RT : Runtime}.

Lemma skip_ws_length s : (length (skip_ws s) <= length s)%nat.
Proof.
  induction s as [ | c s IH ]; cbn; [lia|]. destruct (is_ws c); cbn; lia.
Qed.

Lemma parse_string_length s t r :
  parse_string s = Some (t, r) -> (length r < length s)%nat.
Proof.
  remember (length s) as n eqn:Hn. revert s t r Hn.
  induction n as [n IH] using lt_wf_ind. intros s t r Hn H.
  assert (forall s' t' r', (length s' < n)%nat ->
            parse_string s' = Some (t', r') -> (length r' < length s')%nat) as IH'
    by (intros s' t' r' Hlt; eapply IH; [exact Hlt|reflexivity]).
  clear IH. subst n.
  destruct s as [ | c s ]; [discriminate|]. cbn [parse_string] in H.
  destruct (c =? 0x22); [injection H as <- <-; cbn in *; lia|].
  destruct (c =? 0x5C).
  - destruct s as [ | e s ]; [discriminate|].
    destruct (e =? 0x75).
    + destruct s as [ | h3 [ | h2 [ | h1 [ | h0 s ] ] ] ]; try discriminate.
      destruct (hex_value h3); cbn in H; [|discriminate H].
      destruct (hex_value h2); cbn in H; [|discriminate H].
      destruct (hex_value h1); cbn in H; [|discriminate H].
      destruct (hex_value h0); cbn in H; [|discriminate H].
      destruct (parse_string s) as [[t' r']|] eqn:Hp; cbn in H; [|discriminate H].
      injection H as <- <-. apply IH' in Hp; cbn; lia.
    + destruct (simple_escape e); cbn in H; [|discriminate H].
      destruct (parse_string s) as [[t' r']|] eqn:Hp; cbn in H; [|discriminate H].
      injection H as <- <-. apply IH' in Hp; cbn; lia.
  - destruct (c <? 0x20); [discriminate|].
    destruct (parse_string s) as [[t' r']|] eqn:Hp; cbn in H; [|discriminate H].
    injection H as <- <-. apply IH' in Hp; cbn; lia.
Qed.

Lemma strip_prefix_length p s r :
  strip_prefix p s = Some r -> (length r <= length s)%nat.
Proof.
  revert s. induction p as [ | a p IH ]; intros s H; cbn in H.
  - injection H as <-. lia.
  - destruct s as [ | b s ]; [discriminate|]. destruct (a =? b); [|discriminate].
    apply IH in H. cbn. lia.
Qed.

Lemma span_digits_length s d r :
  span_digits s = (d, r) -> (length r <= length s)%nat.
Proof.
  revert d r. induction s as [ | c s IH ]; intros d r H; cbn in H.
  - injection H as <- <-. cbn. lia.
  - destruct (is_digit c).
    + destruct (span_digits s) as [d' r'] eqn:Hs. injection H as <- <-.
      specialize (IH _ _ eq_refl). cbn. lia.
    + injection H as <- <-. cbn. lia.
Qed.

Lemma lex_number_length s tok r :
  lex_number s = Some (tok, r) -> (length r < length s)%nat.
Proof.
  unfold lex_number. intros H.
  destruct (lex_sign s) as [sign s1] eqn:Hsign.
  destruct (lex_int s1) as [[int s2]|] eqn:Hint; cbn in H; [|discriminate H].
  destruct (lex_frac s2) as [[frac s3]|] eqn:Hfrac; cbn in H; [|discriminate H].
  destruct (lex_exp s3) as [[ex s4]|] eqn:Hexp; cbn in H; [|discriminate H].
  injection H as <- <-.
  assert (length s1 <= length s)%nat.
  { unfold lex_sign in Hsign. destruct s as [ | c s ]; [injection Hsign as <- <-; lia|].
    destruct (c =? 0x2D); injection Hsign as <- <-; cbn; lia. }
  assert (length s2 < length s1)%nat.
  { unfold lex_int in Hint. destruct s1 as [ | c s1 ]; [discriminate|].
    destruct (c =? 48); [injection Hint as <- <-; cbn; lia|].
    destruct (is_digit c); [|discriminate].
    destruct (span_digits s1) as [d rest] eqn:Hd. injection Hint as <- <-.
    apply span_digits_length in Hd. cbn. lia. }
  assert (length s3 <= length s2)%nat.
  { unfold lex_frac in Hfrac. destruct s2 as [ | c s2 ]; [injection Hfrac as <- <-; lia|].
    destruct (c =? 0x2E); [|injection Hfrac as <- <-; lia].
    destruct (span_digits s2) as [d rest] eqn:Hd. apply span_digits_length in Hd.
    destruct d; [discriminate|]. injection Hfrac as <- <-. cbn. lia. }
  assert (length s4 <= length s3)%nat.
  { unfold lex_exp in Hexp. destruct s3 as [ | c s3 ]; [injection Hexp as <- <-; lia|].
    destruct ((c =? 0x65) || (c =? 0x45)); [|injection Hexp as <- <-; lia].
    destruct (match s3 with
              | [] => ([], s3)
              | x :: r'' => if (x =? 0x2B) || (x =? 0x2D) then ([x], r'') else ([], s3)
              end) as [sg r'] eqn:Hsg.
    assert (length r' <= length s3)%nat.
    { destruct s3 as [ | x s3 ]; [injection Hsg as <- <-; lia|].
      destruct ((x =? 0x2B) || (x =? 0x2D)); injection Hsg as <- <-; cbn; lia. }
    destruct (span_digits r') as [d rest] eqn:Hd. apply span_digits_length in Hd.
    destruct d; [discriminate|]. injection Hexp as <- <-. cbn. lia. }
  lia.
Qed.

Lemma parse_fuel_free f : fuel_free f.
Proof.
  induction f as [ | f (IHv & IHe & IHm) ]; [repeat split; discriminate|].
  split; [|split].
  - intros s v r H. cbn [parse_value] in H.
    pose proof (skip_ws_length s) as Hws.
    destruct (skip_ws s) as [ | c t ] eqn:Hskip; [discriminate|]. cbn [length] in Hws.
    destruct (c =? 0x22) eqn:Hq.
    { destruct (parse_string t) as [[str r']|] eqn:Hp; cbn in H; [|discriminate H].
      injection H as <- <-. apply parse_string_length in Hp as Hlen.
      split; [lia|]. intros [ | f' ] Hf'; [lia|].
      cbn [parse_value]. rewrite Hskip, Hq, Hp. reflexivity. }
    destruct (c =? 0x5B) eqn:Harr.
    { pose proof (skip_ws_length t) as Hws'.
      destruct (skip_ws t) as [ | d t' ] eqn:Hskip'; [discriminate|]. cbn [length] in Hws'.
      destruct (d =? 0x5D) eqn:Hclose.
      - injection H as <- <-. split; [lia|]. intros [ | f' ] Hf'; [lia|].
        cbn [parse_value]. rewrite Hskip, Hq, Harr, Hskip', Hclose. reflexivity.
      - destruct (parse_elements f t) as [[vs r']|] eqn:Hp; cbn in H; [|discriminate H].
        injection H as <- <-. destruct (IHe _ _ _ Hp) as [Hlen Hfuel].
        split; [lia|]. intros [ | f' ] Hf'; [lia|].
        cbn [parse_value]. rewrite Hskip, Hq, Harr, Hskip', Hclose.
        rewrite Hfuel by lia. reflexivity. }
    destruct (c =? 0x7B) eqn:Hobj.
    { pose proof (skip_ws_length t) as Hws'.
      destruct (skip_ws t) as [ | d t' ] eqn:Hskip'; [discriminate|]. cbn [length] in Hws'.
      destruct (d =? 0x7D) eqn:Hclose.
      - injection H as <- <-. split; [lia|]. intros [ | f' ] Hf'; [lia|].
        cbn [parse_value]. rewrite Hskip, Hq, Harr, Hobj, Hskip', Hclose. reflexivity.
      - destruct (parse_members f t) as [[ms r']|] eqn:Hp; cbn in H; [|discriminate H].
        injection H as <- <-. destruct (IHm _ _ _ Hp) as [Hlen Hfuel].
        split; [lia|]. intros [ | f' ] Hf'; [lia|].
        cbn [parse_value]. rewrite Hskip, Hq, Harr, Hobj, Hskip', Hclose.
        rewrite Hfuel by lia. reflexivity. }
    assert (forall f', (1 <= f')%nat -> parse_value f' s = parse_value (S f) s) as Hsame.
    { intros [ | f' ] Hf'; [lia|]. cbn [parse_value]. rewrite Hskip, Hq, Harr, Hobj.
      reflexivity. }
    assert (length r < S (length t))%nat as Hlen.
    { destruct (c =? 0x74); [|destruct (c =? 0x66); [|destruct (c =? 0x6E)]].
      - destruct (strip_prefix _ t) eqn:Hp; cbn in H; [|discriminate H].
        injection H as <- <-. apply strip_prefix_length in Hp. lia.
      - destruct (strip_prefix _ t) eqn:Hp; cbn in H; [|discriminate H].
        injection H as <- <-. apply strip_prefix_length in Hp. lia.
      - destruct (strip_prefix _ t) eqn:Hp; cbn in H; [|discriminate H].
        injection H as <- <-. apply strip_prefix_length in Hp. lia.
      - destruct (lex_number (c :: t)) as [[tok r']|] eqn:Hp; cbn in H; [|discriminate H].
        injection H as <- <-. apply lex_number_length in Hp. cbn in Hp. lia. }
    split; [lia|]. intros f' Hf'. rewrite Hsame by lia.
    cbn [parse_value]. rewrite Hskip, Hq, Harr, Hobj. exact H.
  - intros s vs r H. cbn [parse_elements] in H.
    destruct (parse_value f s) as [[v t]|] eqn:Hv; cbn in H; [|discriminate H].
    destruct (IHv _ _ _ Hv) as [Hlen Hfuel].
    pose proof (skip_ws_length t) as Hws.
    destruct (skip_ws t) as [ | c t' ] eqn:Hskip; [discriminate|]. cbn [length] in Hws.
    destruct (c =? 0x2C) eqn:Hcomma.
    + destruct (parse_elements f t') as [[vs' r']|] eqn:Hp; cbn in H; [|discriminate H].
      injection H as <- <-. destruct (IHe _ _ _ Hp) as [Hlen' Hfuel'].
      split; [lia|]. intros [ | f' ] Hf'; [lia|].
      cbn [parse_elements]. rewrite Hfuel by lia. cbn. rewrite Hskip, Hcomma.
      rewrite Hfuel' by lia. reflexivity.
    + destruct (c =? 0x5D) eqn:Hclose; [|discriminate].
      injection H as <- <-. split; [lia|]. intros [ | f' ] Hf'; [lia|].
      cbn [parse_elements]. rewrite Hfuel by lia. cbn. rewrite Hskip, Hcomma, Hclose.
      reflexivity.
  - intros s ms r H. cbn [parse_members] in H.
    pose proof (skip_ws_length s) as Hws0.
    destruct (skip_ws s) as [ | q t0 ] eqn:Hskip0; [discriminate|]. cbn [length] in Hws0.
    destruct (q =? 0x22) eqn:Hq; [|discriminate].
    destruct (parse_string t0) as [[k t1]|] eqn:Hk; cbn in H; [|discriminate H].
    apply parse_string_length in Hk as Hklen.
    pose proof (skip_ws_length t1) as Hws1.
    destruct (skip_ws t1) as [ | colon t2 ] eqn:Hskip1; [discriminate|]. cbn [length] in Hws1.
    destruct (colon =? 0x3A) eqn:Hcolon; [|discriminate].
    destruct (parse_value f t2) as [[v t3]|] eqn:Hv; cbn in H; [|discriminate H].
    destruct (IHv _ _ _ Hv) as [Hlen Hfuel].
    pose proof (skip_ws_length t3) as Hws3.
    destruct (skip_ws t3) as [ | c t4 ] eqn:Hskip3; [discriminate|]. cbn [length] in Hws3.
    destruct (c =? 0x2C) eqn:Hcomma.
    + destruct (parse_members f t4) as [[ms' r']|] eqn:Hp; cbn in H; [|discriminate H].
      injection H as <- <-. destruct (IHm _ _ _ Hp) as [Hlen' Hfuel'].
      split; [lia|]. intros [ | f' ] Hf'; [lia|].
      cbn [parse_members]. rewrite Hskip0, Hq, Hk. cbn. rewrite Hskip1, Hcolon.
      rewrite Hfuel by lia. cbn. rewrite Hskip3, Hcomma. rewrite Hfuel' by lia.
      reflexivity.
    + destruct (c =? 0x7D) eqn:Hclose; [|discriminate].
      injection H as <- <-. split; [lia|]. intros [ | f' ] Hf'; [lia|].
      cbn [parse_members]. rewrite Hskip0, Hq, Hk. cbn. rewrite Hskip1, Hcolon.
      rewrite Hfuel by lia. cbn. rewrite Hskip3, Hcomma, Hclose. reflexivity.
Qed.

(** [JSON.parse] never fails for lack of fuel: a value some fuel finds in the
    whole text is the value [parse] returns. *)
Lemma parse_complete fuel text v r :
  parse_value fuel text = Some (v, r) -> skip_ws r = [] -> parse text = Some v.
Proof.
  intros H Hrest. destruct (parse_fuel_free fuel) as [Hv _].
  destruct (Hv _ _ _ H) as [_ Hfuel]. unfold parse.
  rewrite Hfuel by lia. cbn. rewrite Hrest. reflexivity.
Qed.

Lemma serialize_obj props :
  Forall (fun kv => plain (snd kv)) props ->
  serialize (JObj props) = 0x7B :: join_comma (List.map member props) ++ [0x7D].
Proof.
  intros Hall. cbn [serialize app]. do 3 f_equal.
  induction Hall as [ | [k v] props Hv _ IH ]; [reflexivity|].
  cbn [List.map]. rewrite <- IH. unfold member. cbn [fst snd].
  destruct v; try reflexivity. inversion Hv.
Qed.

Lemma serialize_opens v :
  plain v -> exists c tail, serialize v = c :: tail /\ opens c.
Proof.
  unfold opens. intros Hv. destruct v; try solve [inversion Hv].
  - eexists _, _. split; [reflexivity|]. auto 10.
  - destruct b; eexists _, _; (split; [reflexivity|]); auto 10.
  - eexists _, _. split; [reflexivity|]. auto 10.
  - eexists _, _. split; [reflexivity|]. auto 10.
  - eexists _, _. split; [reflexivity|]. auto 10.
Qed.

Lemma length_join_cons p q parts :
  length (join_comma (p :: q :: parts))
  = (length p + 1 + length (join_comma (q :: parts)))%nat.
Proof. cbn [join_comma]. rewrite !length_app. cbn. lia. Qed.

Lemma parse_elements_serialize items :
  items <> [] -> Forall parses items -> Forall plain items ->
  forall fuel rest,
    (length (join_comma (List.map serialize items)) < fuel)%nat ->
    parse_elements fuel (join_comma (List.map serialize items) ++ 0x5D :: rest)
    = Some (items, rest).
Proof.
  intros Hne Hall Hplain. induction Hall as [ | x items Hx Hall IH ]; [congruence|].
  intros fuel rest Hfuel. inversion Hplain as [ | ? ? Hpx Hpitems ]; subst.
  destruct fuel as [ | fuel ]; [lia|]. cbn [parse_elements].
  destruct items as [ | y items ].
  - cbn [List.map join_comma] in *.
    rewrite Hx by (assumption || lia). cbn. reflexivity.
  - cbn [List.map] in Hfuel. rewrite length_join_cons in Hfuel.
    change (join_comma (List.map serialize (x :: y :: items)))
      with (serialize x ++ [0x2C] ++ join_comma (List.map serialize (y :: items))).
    rewrite <- !app_assoc. rewrite Hx by (assumption || lia). cbn.
    rewrite IH by (congruence || assumption || cbn in *; lia). reflexivity.
Qed.

Lemma length_member kv : (length (serialize (snd kv)) < length (member kv))%nat.
Proof. unfold member. rewrite length_app. cbn. lia. Qed.

Lemma parse_members_serialize props :
  props <> [] ->
  Forall (fun kv => parses (snd kv)) props ->
  Forall (fun kv => plain (snd kv)) props ->
  forall fuel rest,
    (length (join_comma (List.map member props)) < fuel)%nat ->
    parse_members fuel (join_comma (List.map member props) ++ 0x7D :: rest)
    = Some (props, rest).
Proof.
  intros Hne Hall Hplain. induction Hall as [ | [k x] props Hx Hall IH ]; [congruence|].
  intros fuel rest Hfuel. inversion Hplain as [ | ? ? Hpx Hpprops ]; subst.
  cbn [snd] in Hx, Hpx.
  destruct fuel as [ | fuel ]; [lia|]. cbn [parse_members].
  pose proof (length_member (k, x)) as Hlen. cbn [snd] in Hlen.
  destruct props as [ | kv props ].
  - cbn [List.map join_comma] in *. unfold member at 1. cbn [fst snd].
    rewrite <- !app_assoc. rewrite quote_app. cbn. rewrite parse_quote_body.
    cbn. rewrite Hx by (assumption || lia). cbn. reflexivity.
  - cbn [List.map] in Hfuel. rewrite length_join_cons in Hfuel.
    change (join_comma (List.map member ((k, x) :: kv :: props)))
      with (member (k, x) ++ [0x2C] ++ join_comma (List.map member (kv :: props))).
    unfold member at 1. cbn [fst snd]. rewrite <- !app_assoc.
    rewrite quote_app. cbn. rewrite parse_quote_body.
    cbn. rewrite Hx by (assumption || lia). cbn.
    rewrite IH by (congruence || assumption || cbn in *; lia). reflexivity.
Qed.

Lemma parse_serialize v : parses v.
Proof.
  induction v as [ | | b | f | s | items IH | props IH ] using jsval_ind;
    intros Hplain fuel rest Hfuel; try solve [inversion Hplain].
  - destruct fuel; [cbn in Hfuel; lia|]. reflexivity.
  - destruct fuel; [destruct b; cbn in Hfuel; lia|]. destruct b; reflexivity.
  - destruct fuel; [cbn in Hfuel; lia|].
    cbn [serialize]. rewrite quote_app. cbn. rewrite parse_quote_body. reflexivity.
  - inversion Hplain as [ | | | ? Hitems | ]; subst.
    destruct fuel; [cbn in Hfuel; lia|].
    destruct items as [ | x items ]; [reflexivity|].
    cbn [serialize] in *. rewrite <- !app_assoc. cbn [app length] in *.
    rewrite length_app in Hfuel. cbn [length] in Hfuel.
    destruct (serialize_opens x) as (c & tail & Hhead & Hopens);
      [inversion Hitems; assumption|].
    cbn [parse_value skip_ws is_ws N.eqb Pos.eqb orb].
    assert (exists tail', join_comma (List.map serialize (x :: items)) ++ 0x5D :: rest
                          = c :: tail') as [tail' Htext].
    { destruct items; cbn [List.map join_comma]; rewrite Hhead;
        eexists; cbn; reflexivity. }
    rewrite Htext at 1. rewrite skip_ws_cons by (apply opens_not_ws, Hopens).
    replace (c =? 0x5D) with false
      by (symmetry; apply N.eqb_neq; unfold opens in Hopens; lia).
    rewrite parse_elements_serialize by (congruence || assumption || lia).
    reflexivity.
  - inversion Hplain as [ | | | | ? Hnodup Hnamed Hprops ]; subst.
    rewrite serialize_obj in * by assumption.
    destruct fuel; [cbn in Hfuel; lia|].
    destruct props as [ | [k x] props ]; [reflexivity|].
    cbn [app length] in *. rewrite length_app in Hfuel. cbn [length] in Hfuel.
    rewrite <- !app_assoc. cbn [app].
    cbn [parse_value skip_ws is_ws N.eqb Pos.eqb orb].
    assert (exists tail', join_comma (List.map member ((k, x) :: props)) ++ 0x7D :: rest
                          = 0x22 :: tail') as [tail' Htext].
    { destruct props; cbn [List.map join_comma]; unfold member at 1, quote;
        eexists; cbn; reflexivity. }
    rewrite Htext at 1. rewrite skip_ws_cons by reflexivity.
    cbn [N.eqb Pos.eqb].
    rewrite parse_members_serialize by (congruence || assumption || lia).
    cbn -[fold_left]. rewrite (define_props_named _ []) by assumption. reflexivity.
Qed.

(** [JSON.parse] gives back a plain value from the text [JSON.stringify]
    wrote for it. *)
Lemma parse_stringify v : plain v -> parse (stringify v) = Some v.
Proof.
  intros Hplain. unfold parse, stringify.
  rewrite <- (app_nil_r (serialize v)) at 2.
  rewrite parse_serialize by (assumption || lia). reflexivity.
Qed.

(** Outside the plain values the text does not hold everything: a number
    that is not finite is written as [null]. *)
Lemma infinity_is_not_kept :
  parse (stringify (JArr [JNum infinity])) = Some (JArr [JNull]).
Proof. vm_compute. reflexivity. Qed.

End Codec.

End JSONFacts.

(** ** The handlers, statement by statement *)

Module Facts.
Import Db Server.

Ltac monad :=
  cbv beta iota delta
    [bind ret reply throw query query_or_raise exec exec_or_raise or_raise run
     get_session_user session_username set_session_user destroy_session
     audit call_trim Number].

(** *** Comparisons that order *)

Record ordering {A} (cmp : A -> A -> comparison) : Prop := {
  cmp_opp a b : cmp b a = CompOpp (cmp a b);
  cmp_eq a b c : cmp a b = Eq -> cmp a c = cmp b c;
  cmp_lt a b c : cmp a b = Lt -> cmp b c = Lt -> cmp a c = Lt
}.

Lemma ordering_Z : ordering Z.compare.
Proof.
  split.
  - intros a b. apply Z.compare_antisym.
  - intros a b c H. apply Z.compare_eq in H. subst. reflexivity.
  - intros a b c Hab Hbc. rewrite Z.compare_lt_iff in *. lia.
Qed.

Lemma ordering_N : ordering N.compare.
Proof.
  split.
  - intros a b. apply N.compare_antisym.
  - intros a b c H. apply N.compare_eq in H. subst. reflexivity.
  - intros a b c Hab Hbc. rewrite N.compare_lt_iff in *. lia.
Qed.

Lemma ordering_Q : ordering Qcompare.
Proof.
  split.
  - intros a b. symmetry. apply Qcompare_antisym.
  - intros a b c H. apply Qeq_alt in H. rewrite H. reflexivity.
  - intros a b c Hab Hbc. rewrite <- Qlt_alt in *. eapply Qlt_trans; eassumption.
Qed.

Lemma ordering_lexicographic {A} (c1 c2 : A -> A -> comparison) :
  ordering c1 -> ordering c2 ->
  ordering (fun a b => lexicographic (c1 a b) (c2 a b)).
Proof.
  intros [O1 E1 L1] [O2 E2 L2]. split.
  - intros a b. rewrite O1, O2. destruct (c1 a b); reflexivity.
  - intros a b c H. destruct (c1 a b) eqn:H1; cbn in H; try discriminate H.
    rewrite (E1 _ _ _ H1), (E2 _ _ _ H). reflexivity.
  - intros a b c Hab Hbc.
    destruct (c1 a b) eqn:H1; cbn in Hab; try discriminate Hab.
    + rewrite (E1 _ _ _ H1). destruct (c1 b c); cbn in *; try discriminate Hbc; eauto.
    + destruct (c1 b c) eqn:H2; cbn in Hbc; try discriminate Hbc.
      * assert (c1 c b = Eq) as H2' by (rewrite O1, H2; reflexivity).
        assert (c1 c a = Gt) as H3.
        { rewrite (E1 _ _ _ H2'). rewrite O1, H1. reflexivity. }
        rewrite O1, H3. reflexivity.
      * rewrite (L1 _ _ _ H1 H2). reflexivity.
Qed.

Lemma ordering_key {A B} (key : A -> B) (cmp : B -> B -> comparison) :
  ordering cmp -> ordering (fun a b => cmp (key a) (key b)).
Proof. intros [O E L]. split; eauto. Qed.

Lemma ordering_points : ordering compare_points.
Proof.
  destruct ordering_N as [O E L]. split.
  - intros a. induction a as [ | x a IH ]; intros [ | y b ]; cbn; try reflexivity.
    rewrite O, IH. destruct (x ?= y)%N; reflexivity.
  - intros a. induction a as [ | x a IH ]; intros [ | y b ] c H; cbn in H;
      try discriminate H; [reflexivity|].
    destruct (x ?= y)%N eqn:Hxy; cbn in H; try discriminate H.
    destruct c as [ | z c ]; cbn; [reflexivity|].
    rewrite (E _ _ _ Hxy), (IH _ _ H). reflexivity.
  - intros a. induction a as [ | x a IH ]; intros [ | y b ] [ | z c ] Hab Hbc;
      cbn in *; try discriminate; try reflexivity.
    destruct (x ?= y)%N eqn:Hxy; cbn in Hab; try discriminate Hab.
    + rewrite (E _ _ _ Hxy). destruct (y ?= z)%N; cbn in *; try discriminate Hbc; eauto.
    + destruct (y ?= z)%N eqn:Hyz; cbn in Hbc; try discriminate Hbc.
      * apply N.compare_eq in Hyz. subst z. rewrite Hxy. reflexivity.
      * rewrite (L _ _ _ Hxy Hyz). reflexivity.
Qed.

Lemma ordering_sql : ordering sql_compare.
Proof.
  unfold sql_compare.
  apply (ordering_lexicographic (fun a b => value_class a ?= value_class b)).
  - apply (ordering_key value_class), ordering_Z.
  - apply (ordering_lexicographic (fun a b => (number_value a ?= number_value b)%Q)).
    + apply (ordering_key number_value), ordering_Q.
    + apply (ordering_key text_value), ordering_points.
Qed.

(** What the laws give for the stored values. *)
Lemma sql_total a b : sql_lt a b \/ sql_eq a b \/ sql_lt b a.
Proof.
  unfold sql_lt, sql_eq. rewrite (cmp_opp _ ordering_sql a b).
  destruct (sql_compare a b); auto.
Qed.

Lemma sql_eq_sym a b : sql_eq a b -> sql_eq b a.
Proof. unfold sql_eq. intros H. rewrite (cmp_opp _ ordering_sql), H. reflexivity. Qed.

Lemma sql_lt_trans a b c : sql_lt a b -> sql_lt b c -> sql_lt a c.
Proof. apply (cmp_lt _ ordering_sql). Qed.

Lemma sql_eq_trans a b c : sql_eq a b -> sql_eq b c -> sql_eq a c.
Proof. unfold sql_eq. intros H. rewrite (cmp_eq _ ordering_sql _ _ _ H). auto. Qed.

Lemma sql_eq_lt a b c : sql_eq a b -> sql_lt b c -> sql_lt a c.
Proof. unfold sql_eq, sql_lt. intros H. rewrite (cmp_eq _ ordering_sql _ _ _ H). auto. Qed.

Lemma sql_lt_eq a b c : sql_lt a b -> sql_eq b c -> sql_lt a c.
Proof.
  unfold sql_eq, sql_lt. intros Hab Hbc.
  assert (sql_compare c b = Eq) as Hcb by (rewrite (cmp_opp _ ordering_sql), Hbc; reflexivity).
  rewrite (cmp_opp _ ordering_sql), (cmp_eq _ ordering_sql _ _ _ Hcb).
  rewrite (cmp_opp _ ordering_sql), Hab. reflexivity.
Qed.

Lemma sql_lt_not_eq a b : sql_lt a b -> ~ sql_eq b a.
Proof.
  unfold sql_eq, sql_lt. intros H H'. rewrite (cmp_opp _ ordering_sql), H in H'. discriminate H'.
Qed.

Lemma sql_lt_asym a b : sql_lt a b -> ~ sql_lt b a.
Proof.
  unfold sql_lt. intros H H'. rewrite (cmp_opp _ ordering_sql), H in H'. discriminate H'.
Qed.

(** *** Text through a TEXT column *)

(** The text comes back unit by unit: each code unit as it was, or as
    U+FFFD. *)
Lemma as_text_units s :
  Forall2 (fun c c' => c' = c \/ c' = 0xFFFD%N) s (as_text s).
Proof.
  assert (forall n s, (length s <= n)%nat ->
            Forall2 (fun c c' => c' = c \/ c' = 0xFFFD%N) s (as_text s)) as H.
  { intros n. induction n as [ | n IH ]; intros [ | c rest ] Hn; cbn in Hn;
      try lia; [constructor|constructor|]. cbn [as_text].
    destruct (JSON.is_lead c).
    - destruct rest as [ | d rest' ]; [constructor; [right; reflexivity|constructor]|]. cbn in Hn.
      destruct (JSON.is_trail d).
      + constructor; [auto|]. constructor; [auto|]. apply IH. lia.
      + constructor; [auto|]. apply IH. cbn. lia.
    - destruct (JSON.is_trail c); (constructor; [auto|apply IH; lia]). }
  apply (H (length s)). lia.
Qed.


Lemma first_unit_kept (P : N -> Prop) (s t : jsstring) :
  P 0xFFFD%N ->
  Forall2 (fun c c' => c' = c \/ c' = 0xFFFD%N) s t ->
  match s with [] => True | c :: _ => P c end ->
  match t with [] => True | c :: _ => P c end.
Proof.
  intros HP H. destruct H as [ | c c' s t [-> | ->] _ ]; auto.
Qed.

Lemma Forall2_rev {A B} (R : A -> B -> Prop) l k :
  Forall2 R l k -> Forall2 R (rev l) (rev k).
Proof.
  induction 1 as [ | a b l k Hab _ IH ]; cbn; [constructor|].
  apply Forall2_app; [exact IH|]. constructor; [exact Hab|constructor].
Qed.

Lemma trimmed_as_text s : trimmed s -> trimmed (as_text s).
Proof.
  intros [Hfirst Hlast]. pose proof (as_text_units s) as H. split.
  - revert Hfirst. apply (first_unit_kept (fun c => is_space c = false)); [reflexivity|exact H].
  - revert Hlast. apply (first_unit_kept (fun c => is_space c = false)); [reflexivity|].
    apply Forall2_rev. exact H.
Qed.

Section WithRuntime.
Context {RT : Runtime}.

Lemma requireAuth_pass req next st u :
  session_user_of req st = Some u ->
  requireAuth req next st = next st.
Proof.
  intros Hu. unfold requireAuth, bind, get_session_user. rewrite Hu. reflexivity.
Qed.

Lemma requireAuth_stop req next st :
  session_user_of req st = None ->
  requireAuth req next st = (inl (status_json 401 (Error "Unauthorized")), st).
Proof.
  intros Hu. unfold requireAuth, bind, get_session_user. rewrite Hu. reflexivity.
Qed.

Lemma admin_route_stops E req st :
  is_admin (target req) = true ->
  session_user_of req st = None ->
  handle E req st = (status_json 401 (Error "Unauthorized"), st).
Proof.
  intros Hadmin Hu. unfold handle, run, dispatch.
  destruct (target req); try discriminate Hadmin;
    cbv beta delta [get_admin_content put_admin_content get_admin_skills post_admin_skills put_admin_skill delete_admin_skill get_admin_projects post_admin_projects put_admin_project delete_admin_project];
    rewrite requireAuth_stop by assumption; reflexivity.
Qed.

Lemma session_gone_after_logout E c st :
  session_user_of {| cookie := c; target := PostLogout |}
    (snd (handle E {| cookie := c; target := PostLogout |} st)) = None.
Proof.
  unfold handle, run, dispatch, post_logout. cbn [target].
  destruct (session_user_of {| cookie := c; target := PostLogout |} st) as [u|] eqn:Hu.
  - rewrite (requireAuth_pass _ _ _ u) by assumption.
    monad. rewrite Hu. cbn.
    unfold session_user_of. cbn. destruct c as [c|]; cbn; [|reflexivity].
    apply lookup_delete_eq.
  - rewrite requireAuth_stop by assumption. simpl. exact Hu.
Qed.


(** *** What a statement that ran has written *)

Lemma existsb_false_Forall {A} (f : A -> bool) (l : list A) :
  existsb f l = false -> Forall (fun r => f r = false) l.
Proof.
  induction l as [ | r l IH ]; cbn; [constructor|]. intros H.
  apply orb_false_iff in H as [Hr Hl]. constructor; auto.
Qed.

Lemma Forall_existsb_false {A} (f : A -> bool) (l : list A) :
  Forall (fun r => f r = false) l -> existsb f l = false.
Proof.
  induction 1 as [ | r l Hr _ IH ]; cbn; [reflexivity|]. rewrite Hr, IH. reflexivity.
Qed.

Lemma insert_skill_Some l p s d id d' :
  insert_skill l p s d = Some (id, d') ->
  exists kept,
    integer_not_null s = Some kept
    /\ is_nan p = false
    /\ percent_check (real_column p) = true
    /\ id = new_rowid (List.map skill_id (skills d))
    /\ d' = {| users := users d; content := content d;
               skills := skills d ++ [ {| skill_id := id; label := as_text l;
                                          percent := real_column p;
                                          skill_sort := kept |} ];
               projects := projects d; audit_log := audit_log d |}.
Proof.
  unfold insert_skill. cbn [integer_not_null]. intros H.
  destruct (is_nan p) eqn:Hnan; cbn in H; [discriminate H|].
  destruct (integer_not_null s) as [kept|]; cbn in H; [|discriminate H].
  destruct (percent_check (real_column p)) eqn:Hp; [|discriminate H].
  injection H as <- <-. exists kept. auto 10.
Qed.

Lemma update_skill_Some l p s id d d' :
  update_skill l p s id d = Some d' ->
  (Forall (fun r => id_is id (skill_id r) = false) (skills d) /\ d' = d)
  \/ exists kept,
       integer_not_null s = Some kept
       /\ is_nan p = false
       /\ percent_check (real_column p) = true
       /\ d' = {| users := users d; content := content d;
                  skills :=
                    List.map (fun r =>
                                if id_is id (skill_id r)
                                then {| skill_id := skill_id r; label := as_text l;
                                        percent := real_column p;
                                        skill_sort := kept |}
                                else r) (skills d);
                  projects := projects d; audit_log := audit_log d |}.
Proof.
  unfold update_skill. cbn [integer_not_null]. intros H.
  destruct (existsb _ (skills d)) eqn:Hrow.
  - right. destruct (is_nan p) eqn:Hnan; cbn in H; [discriminate H|].
    destruct (integer_not_null s) as [kept|]; cbn in H; [|discriminate H].
    destruct (percent_check (real_column p)) eqn:Hp; [|discriminate H].
    injection H as <-. exists kept. auto 10.
  - left. injection H as <-. split; [|reflexivity].
    apply existsb_false_Forall in Hrow. exact Hrow.
Qed.

Lemma insert_project_Some t a b c l f s d id d' :
  insert_project t a b c l f s d = Some (id, d') ->
  exists kept,
    integer_not_null s = Some kept
    /\ id = new_rowid (List.map project_id (projects d))
    /\ d' = {| users := users d; content := content d; skills := skills d;
               projects := projects d ++ [ {| project_id := id; title := as_text a;
                                              summary := as_text b;
                                              stack := as_text c;
                                              links_json := l; featured := f;
                                              project_sort := kept;
                                              project_created_at := t;
                                              project_updated_at := t |} ];
               audit_log := audit_log d |}.
Proof.
  unfold insert_project. intros H.
  destruct (integer_not_null s) as [kept|]; cbn in H; [|discriminate H].
  injection H as <- <-. eauto.
Qed.

Lemma update_project_Some t a b c l f s id d d' :
  update_project t a b c l f s id d = Some d' ->
  (Forall (fun r => id_is id (project_id r) = false) (projects d) /\ d' = d)
  \/ exists kept,
       integer_not_null s = Some kept
       /\ d' = {| users := users d; content := content d; skills := skills d;
                  projects :=
                    List.map (fun r =>
                                if id_is id (project_id r)
                                then {| project_id := project_id r; title := as_text a;
                                        summary := as_text b; stack := as_text c;
                                        links_json := l; featured := f;
                                        project_sort := kept;
                                        project_created_at := project_created_at r;
                                        project_updated_at := t |}
                                else r) (projects d);
                  audit_log := audit_log d |}.
Proof.
  unfold update_project. intros H.
  destruct (existsb _ (projects d)) eqn:Hrow.
  - right. destruct (integer_not_null s) as [kept|]; cbn in H; [|discriminate H].
    injection H as <-. eauto.
  - left. injection H as <-. split; [|reflexivity].
    apply existsb_false_Forall in Hrow. exact Hrow.
Qed.

(** *** Deleting a skill no row answers to *)

Lemma filter_all {A} (f : A -> bool) (l : list A) :
  Forall (fun x => f x = true) l -> List.filter f l = l.
Proof.
  induction 1 as [ | x l Hx _ IH ]; cbn; [reflexivity|]. rewrite Hx, IH. reflexivity.
Qed.

Lemma delete_absent_skill E req st u id :
  target req = DeleteAdminSkill id ->
  session_user_of req st = Some u ->
  Forall (fun r => id_is (StringToNumber id) (skill_id r) = false) (skills (db st)) ->
  handle E req st
  = (json Ok,
     {| db := insert_audit (now E) (su_username u) (lit "delete") (lit "skill")
                (EntityParam (StringToNumber id)) (lit "{}") (db st);
        sessions := sessions st |}).
Proof.
  intros Ht Hu Hnone. unfold handle, dispatch. rewrite Ht. unfold delete_admin_skill.
  unfold run. rewrite (requireAuth_pass _ _ _ u) by assumption.
  monad. cbn [db sessions]. unfold session_user_of in *. 
  destruct (cookie req) as [c|]; [|discriminate]. cbn in Hu |- *. rewrite Hu. cbn.
  unfold delete_skill. rewrite filter_all.
  - destruct st as [d s]. destruct d. reflexivity.
  - eapply Forall_impl; [exact Hnone|]. cbn. intros r ->. reflexivity.
Qed.


(** *** What every handler keeps

    A relation on the data that each statement of the server keeps is kept
    by every handler: the handlers are sequences of these statements. *)
Section Frame.
Variable P : relation database.
Context `{!Reflexive P, !Transitive P}.
Hypothesis P_audit : forall t a b c r m d, P d (insert_audit t a b c r m d).
Hypothesis P_insert_skill : forall l p s d id d',
  insert_skill l p s d = Some (id, d') -> P d d'.
Hypothesis P_update_skill : forall l p s id d d',
  update_skill l p s id d = Some d' -> P d d'.
Hypothesis P_delete_skill : forall id d, P d (delete_skill id d).
Hypothesis P_insert_project : forall t a b c l f s d id d',
  insert_project t a b c l f s d = Some (id, d') -> P d d'.
Hypothesis P_update_project : forall t a b c l f s id d d',
  update_project t a b c l f s id d = Some d' -> P d d'.
Hypothesis P_delete_project : forall id d, P d (delete_project id d).

#[local] Abbreviation keeps := (keeps P).

Lemma keeps_ret {A} (a : A) : keeps (ret a).
Proof. intros st. reflexivity. Qed.

Lemma keeps_reply {A} r : keeps (@reply A r).
Proof. intros st. reflexivity. Qed.

Lemma keeps_throw {A} e : keeps (@throw A e).
Proof. intros st. reflexivity. Qed.

Lemma keeps_bind {A B} (m : M A) (k : A -> M B) :
  keeps m -> (forall a, keeps (k a)) -> keeps (bind m k).
Proof.
  intros Hm Hk st. unfold bind. specialize (Hm st).
  destruct (m st) as [[r|a] st']; cbn in *; [exact Hm|].
  etransitivity; [exact Hm|apply Hk].
Qed.

Lemma keeps_query {A} (q : database -> A) : keeps (query q).
Proof. intros st. reflexivity. Qed.

Lemma keeps_query_or_raise {A} e (q : database -> option A) :
  keeps (query_or_raise e q).
Proof.
  intros st. unfold query_or_raise. destruct (q (db st)); reflexivity.
Qed.

Lemma keeps_exec f : (forall d, P d (f d)) -> keeps (exec f).
Proof. intros Hf st. apply Hf. Qed.

Lemma keeps_exec_or_raise {A} (f : database -> option (A * database)) :
  (forall d a d', f d = Some (a, d') -> P d d') -> keeps (exec_or_raise f).
Proof.
  intros Hf st. unfold exec_or_raise.
  destruct (f (db st)) as [[a d']|] eqn:Hfd; cbn; [eauto|reflexivity].
Qed.

Lemma keeps_or_raise {A} e (o : option A) : keeps (or_raise e o).
Proof. destruct o; intros st; reflexivity. Qed.

Lemma keeps_get_session_user req : keeps (get_session_user req).
Proof. intros st. reflexivity. Qed.

Lemma keeps_set_session_user E req u : keeps (set_session_user E req u).
Proof. intros st. reflexivity. Qed.

Lemma keeps_destroy_session req : keeps (destroy_session req).
Proof. intros st. reflexivity. Qed.

Lemma keeps_session_username req : keeps (session_username req).
Proof.
  apply keeps_bind; [apply keeps_get_session_user|].
  intros [u|]; [apply keeps_ret|apply keeps_throw].
Qed.

Lemma keeps_audit E a b c r m : keeps (audit E a b c r m).
Proof. apply keeps_exec. intros d. apply P_audit. Qed.

Lemma keeps_call_trim v : keeps (call_trim v).
Proof. destruct v; first [apply keeps_ret|apply keeps_throw]. Qed.

Lemma keeps_Number v : keeps (Number v).
Proof. apply keeps_or_raise. Qed.

Lemma keeps_requireAuth req next : keeps next -> keeps (requireAuth req next).
Proof.
  intros Hn. apply keeps_bind; [apply keeps_get_session_user|].
  intros [u|]; [exact Hn|apply keeps_reply].
Qed.

Lemma keeps_list_projects : keeps list_projects.
Proof.
  apply keeps_bind; [apply keeps_query|]. intros rows. apply keeps_or_raise.
Qed.

Lemma keeps_project_arguments a b c d e : keeps (project_arguments a b c d e).
Proof.
  unfold project_arguments.
  repeat first [ apply keeps_bind; [|intros ?] | apply keeps_call_trim
               | apply keeps_or_raise | apply keeps_ret ].
Qed.

Ltac keep :=
  repeat first
    [ apply keeps_requireAuth | apply keeps_bind; [|intros ?]
    | apply keeps_ret | apply keeps_reply | apply keeps_throw
    | apply keeps_query | apply keeps_query_or_raise
    | apply keeps_or_raise | apply keeps_get_session_user
    | apply keeps_set_session_user | apply keeps_destroy_session
    | apply keeps_session_username | apply keeps_audit | apply keeps_call_trim
    | apply keeps_Number | apply keeps_list_projects
    | apply keeps_project_arguments
    | apply keeps_exec; intros ?; solve [eauto]
    | apply keeps_exec_or_raise;
      let Hex := fresh "Hex" in
      intros ? ? ? Hex;
      first [ solve [eauto]
            | apply fmap_Some in Hex; destruct Hex as (? & ? & ?);
              simplify_eq; solve [eauto] ]
    | match goal with
      | |- keeps (let _ := _ in _) => lazy zeta
      | |- keeps (if ?b then _ else _) => destruct b
      | |- keeps (match ?x with _ => _ end) => destruct x
      end ].

Lemma keeps_dispatch E req :
  (forall body, target req = PutAdminContent body ->
                forall t h s d, P d (update_content t h s d)) ->
  keeps (dispatch E req).
Proof.
  intros Hput. unfold dispatch.
  destruct (target req) eqn:Ht;
    cbv beta delta
      [post_login post_logout get_me get_public_content get_admin_content
       put_admin_content get_admin_skills post_admin_skills put_admin_skill
       delete_admin_skill get_admin_projects post_admin_projects
       put_admin_project delete_admin_project];
    try specialize (Hput _ eq_refl); keep.
Qed.

Lemma handle_keeps E req st :
  (forall body, target req = PutAdminContent body ->
                forall t h s d, P d (update_content t h s d)) ->
  P (db st) (db (snd (handle E req st))).
Proof.
  intros Hput. pose proof (keeps_dispatch E req Hput st) as H.
  unfold handle, run. destruct (dispatch E req st) as [[r|r] st']; exact H.
Qed.

End Frame.


(** *** The content row *)

Lemma content_ensureAdminUser pe t d :
  content (ensureAdminUser pe t d) = content d.
Proof.
  unfold ensureAdminUser. destruct (select_user d (ADMIN_USERNAME pe)); [reflexivity|].
  destruct (ADMIN_PASSWORD pe); [|reflexivity].
  unfold insert_user. destruct (select_user d (ADMIN_USERNAME pe)); reflexivity.
Qed.

Lemma content_schema_cases d :
  content_schema d ->
  (content d = [] /\ select_content d = None)
  \/ (exists row, content d = [row] /\ content_id row = 1 /\ select_content d = Some row).
Proof.
  intros [Hnodup Hall]. unfold select_content.
  destruct (content d) as [ | row [ | row' rest ] ].
  - left. split; reflexivity.
  - right. exists row. inversion Hall as [ | ? ? Hrow _ ]; subst.
    split; [reflexivity|]. split; [exact Hrow|]. cbn. rewrite Hrow. reflexivity.
  - exfalso. inversion Hall as [ | ? ? Hrow Hrest ]; subst.
    inversion Hrest as [ | ? ? Hrow' _ ]; subst.
    cbn in Hnodup. rewrite Hrow, Hrow' in Hnodup.
    apply NoDup_cons in Hnodup as [Hnotin _]. apply Hnotin. left.
Qed.

Lemma open_seeds t d :
  content_schema d -> content d = [] ->
  content (Db.open t d)
  = [ {| content_id := 1; hero_headline := default_headline;
         hero_subtitle := default_subtitle; content_updated_at := t |} ].
Proof.
  intros Hs Hnil. unfold Db.open, select_content. rewrite Hnil. cbn. rewrite Hnil. reflexivity.
Qed.

Lemma open_singleton t d : content_schema d -> content_singleton (Db.open t d).
Proof.
  intros Hs. destruct (content_schema_cases d Hs) as [[Hnil Hsel]|(row & Hrow & Hid & Hsel)].
  - unfold content_singleton. rewrite open_seeds by assumption. eexists. split; reflexivity.
  - unfold Db.open. rewrite Hsel. exists row. split; assumption.
Qed.

Lemma boot_singleton pe t d : content_schema d -> content_singleton (db (boot pe t d)).
Proof.
  intros Hs. unfold boot, content_singleton. cbn [db].
  rewrite content_ensureAdminUser. apply open_singleton, Hs.
Qed.

Lemma update_content_singleton t h s d :
  content_singleton d -> content_singleton (update_content t h s d).
Proof.
  intros (row & Hrow & Hid). unfold content_singleton, update_content. cbn [content].
  rewrite Hrow. cbn. rewrite Hid. cbn. eexists. split; reflexivity.
Qed.


#[local] Instance same_content_refl : Reflexive same_content.
Proof. intros d. reflexivity. Qed.
#[local] Instance same_content_trans : Transitive same_content.
Proof. intros a b c Hab Hbc. unfold same_content in *. congruence. Qed.

Lemma handle_same_content E req st :
  (forall body, target req <> PutAdminContent body) ->
  content (db (snd (handle E req st))) = content (db st).
Proof.
  intros Hnot. apply (handle_keeps same_content); unfold same_content.
  - reflexivity.
  - intros l p s d id d' H. apply insert_skill_Some in H as (? & _ & _ & _ & _ & ->).
    reflexivity.
  - intros l p s id d d' H.
    apply update_skill_Some in H as [(_ & ->)|(? & _ & _ & _ & ->)]; reflexivity.
  - reflexivity.
  - intros t a b c l f s d id d' H. apply insert_project_Some in H as (? & _ & _ & ->).
    reflexivity.
  - intros t a b c l f s id d d' H.
    apply update_project_Some in H as [(_ & ->)|(? & _ & ->)]; reflexivity.
  - reflexivity.
  - intros body Hb. destruct (Hnot body Hb).
Qed.

#[local] Instance keeps_singleton_refl : Reflexive keeps_singleton.
Proof. intros d H. exact H. Qed.
#[local] Instance keeps_singleton_trans : Transitive keeps_singleton.
Proof. intros a b c Hab Hbc H. auto. Qed.

Lemma handle_singleton E req st :
  content_singleton (db st) -> content_singleton (db (snd (handle E req st))).
Proof.
  apply (handle_keeps keeps_singleton); unfold keeps_singleton, content_singleton.
  - intros; assumption.
  - intros l p s d id d' H. apply insert_skill_Some in H as (? & _ & _ & _ & _ & ->).
    intros Hd. exact Hd.
  - intros l p s id d d' H.
    apply update_skill_Some in H as [(_ & ->)|(? & _ & _ & _ & ->)]; intros Hd; exact Hd.
  - intros; assumption.
  - intros t a b c l f s d id d' H. apply insert_project_Some in H as (? & _ & _ & ->).
    intros Hd. exact Hd.
  - intros t a b c l f s id d d' H.
    apply update_project_Some in H as [(_ & ->)|(? & _ & ->)]; intros Hd; exact Hd.
  - intros; assumption.
  - intros body Hb t h s d. apply update_content_singleton.
Qed.

Lemma reachable_singleton st : reachable st -> content_singleton (db st).
Proof.
  induction 1 as [pe t d Hs | E req st _ IH].
  - apply boot_singleton, Hs.
  - apply handle_singleton, IH.
Qed.


(** *** The two listing orders *)

#[local] Instance skill_le_total : Total skill_le.
Proof.
  intros a b. unfold skill_le.
  destruct (sql_total (skill_sort a) (skill_sort b)) as [H|[H|H]]; auto.
  pose proof (sql_eq_sym _ _ H). destruct (Z.le_ge_cases (skill_id a) (skill_id b)); auto.
Qed.
#[local] Instance skill_le_trans : Transitive skill_le.
Proof.
  intros a b c. unfold skill_le. intros [H1|[H1 I1]] [H2|[H2 I2]];
    eauto using sql_lt_trans, sql_lt_eq, sql_eq_lt.
  right. split; [eauto using sql_eq_trans|lia].
Qed.
#[local] Instance project_le_total : Total project_le.
Proof.
  intros a b. unfold project_le.
  destruct (Z.lt_trichotomy (featured a) (featured b)) as [F|[F|F]];
    [right; left; exact F| |left; left; exact F].
  destruct (sql_total (project_sort a) (project_sort b)) as [H|[H|H]].
  - left. right. split; [exact F|]. left. exact H.
  - pose proof (sql_eq_sym _ _ H).
    destruct (Z.le_ge_cases (project_id a) (project_id b)); [right|left];
      right; (split; [congruence|]); right; split; auto; lia.
  - right. right. split; [congruence|]. left. exact H.
Qed.
#[local] Instance project_le_trans : Transitive project_le.
Proof.
  intros a b c. unfold project_le.
  intros [F1|[F1 H1]] [F2|[F2 H2]]; try (left; lia).
  right. split; [lia|].
  destruct H1 as [H1|[H1 I1]], H2 as [H2|[H2 I2]];
    eauto using sql_lt_trans, sql_lt_eq, sql_eq_lt.
  right. split; [eauto using sql_eq_trans|lia].
Qed.

Lemma select_skills_sorted d :
  StronglySorted skill_le (select_skills d) /\ select_skills d ≡ₚ skills d.
Proof.
  split; [apply StronglySorted_merge_sort; apply _|apply merge_sort_Permutation].
Qed.

Lemma select_projects_sorted d :
  StronglySorted project_le (select_projects d) /\ select_projects d ≡ₚ projects d.
Proof.
  split; [apply StronglySorted_merge_sort; apply _|apply merge_sort_Permutation].
Qed.

(** With unique keys the order leaves one answer to the query, whatever way
    the engine sorts. *)
Lemma same_key_same_row {A} (key : A -> Z) (l : list A) x y :
  NoDup (List.map key l) -> x ∈ l -> y ∈ l -> key x = key y -> x = y.
Proof.
  induction l as [ | a l IH ]; intros Hnodup Hx Hy Hkey.
  - apply elem_of_nil in Hx as [].
  - cbn in Hnodup. apply NoDup_cons in Hnodup as [Hnotin Hnodup].
    apply elem_of_cons in Hx as [->|Hx]; apply elem_of_cons in Hy as [->|Hy].
    + reflexivity.
    + exfalso. apply Hnotin. rewrite Hkey. apply list_elem_of_fmap. eauto.
    + exfalso. apply Hnotin. rewrite <- Hkey. apply list_elem_of_fmap. eauto.
    + auto.
Qed.

Lemma select_skills_unique d l :
  NoDup (List.map skill_id (skills d)) ->
  StronglySorted skill_le l -> l ≡ₚ skills d -> l = select_skills d.
Proof.
  intros Hnodup Hsorted Hperm.
  destruct (select_skills_sorted d) as [Hsorted' Hperm'].
  apply (StronglySorted_unique_strong skill_le); [|assumption|assumption|].
  - intros x y Hx Hy Hxy Hyx.
    apply (same_key_same_row skill_id (skills d));
      [assumption|rewrite <- Hperm; assumption|rewrite <- Hperm'; assumption|].
    unfold skill_le in *.
    destruct Hxy as [Hxy|[Hxy Ixy]], Hyx as [Hyx|[Hyx Iyx]];
      first [ lia
            | exfalso;
              solve [ eapply sql_lt_asym; eassumption
                    | eapply sql_lt_not_eq; eassumption ] ].
  - rewrite Hperm, Hperm'. reflexivity.
Qed.

Lemma select_projects_unique d l :
  NoDup (List.map project_id (projects d)) ->
  StronglySorted project_le l -> l ≡ₚ projects d -> l = select_projects d.
Proof.
  intros Hnodup Hsorted Hperm.
  destruct (select_projects_sorted d) as [Hsorted' Hperm'].
  apply (StronglySorted_unique_strong project_le); [|assumption|assumption|].
  - intros x y Hx Hy Hxy Hyx.
    apply (same_key_same_row project_id (projects d));
      [assumption|rewrite <- Hperm; assumption|rewrite <- Hperm'; assumption|].
    unfold project_le in *.
    destruct Hxy as [Fxy|[Fxy [Hxy|[Hxy Ixy]]]], Hyx as [Fyx|[Fyx [Hyx|[Hyx Iyx]]]];
      first [ lia
            | exfalso;
              solve [ eapply sql_lt_asym; eassumption
                    | eapply sql_lt_not_eq; eassumption ] ].
  - rewrite Hperm, Hperm'. reflexivity.
Qed.

Lemma expand_links_fields p v :
  expand_links p = Some v ->
  pv_id v = project_id p /\ pv_featured v = featured p /\ pv_sort v = project_sort p
  /\ JSON.parse (match links_json p with [] => lit "[]" | text => text end)
     = Some (pv_links v).
Proof.
  unfold expand_links. intros H.
  destruct (JSON.parse _) as [links|] eqn:Hparse; cbn in H; [|discriminate].
  injection H as <-. cbn. auto.
Qed.


Lemma list_projects_readable st :
  projects_readable (db st) ->
  exists views,
    list_projects st = (inr views, st)
    /\ Forall2 (fun p v => expand_links p = Some v) (select_projects (db st)) views.
Proof.
  intros Hread. unfold list_projects. monad.
  assert (is_Some (mapM expand_links (select_projects (db st)))) as [views Hviews].
  { apply mapM_is_Some. unfold projects_readable in Hread.
    destruct (select_projects_sorted (db st)) as [_ Hperm].
    rewrite Hperm. exact Hread. }
  exists views. rewrite Hviews. split; [reflexivity|].
  apply mapM_Some in Hviews. exact Hviews.
Qed.

Lemma list_projects_unreadable st :
  ~ projects_readable (db st) ->
  list_projects st = (inl (uncaught SyntaxError), st).
Proof.
  intros Hread. unfold list_projects. monad.
  destruct (mapM expand_links (select_projects (db st))) as [views|] eqn:Hviews;
    [|reflexivity].
  exfalso. apply Hread. unfold projects_readable.
  destruct (select_projects_sorted (db st)) as [_ Hperm]. rewrite <- Hperm.
  apply mapM_is_Some. eauto.
Qed.



Lemma list_projects_runs st :
  list_projects st
  = (match mapM expand_links (select_projects (db st)) with
     | Some views => inr views
     | None => inl (uncaught SyntaxError)
     end, st).
Proof.
  unfold list_projects. monad.
  destruct (mapM expand_links (select_projects (db st))); reflexivity.
Qed.

Lemma Forall2_elem_of_l {A B} (R : A -> B -> Prop) l k x :
  Forall2 R l k -> x ∈ l -> exists y, y ∈ k /\ R x y.
Proof.
  induction 1 as [ | a b l k Hab _ IH ]; intros Hin.
  - apply elem_of_nil in Hin as [].
  - apply elem_of_cons in Hin as [->|Hin].
    + exists b. split; [left|exact Hab].
    + destruct (IH Hin) as (y & Hy & Hxy). exists y. split; [right; exact Hy|exact Hxy].
Qed.

Lemma Forall2_elem_of_r {A B} (R : A -> B -> Prop) l k y :
  Forall2 R l k -> y ∈ k -> exists x, x ∈ l /\ R x y.
Proof.
  induction 1 as [ | a b l k Hab _ IH ]; intros Hin.
  - apply elem_of_nil in Hin as [].
  - apply elem_of_cons in Hin as [->|Hin].
    + exists a. split; [left|exact Hab].
    + destruct (IH Hin) as (x & Hx & Hxy). exists x. split; [right; exact Hx|exact Hxy].
Qed.

Lemma new_rowid_above ids i : i ∈ ids -> i < new_rowid ids.
Proof.
  unfold new_rowid. destruct ids as [ | j ids ]; intros Hin.
  - apply elem_of_nil in Hin as [].
  - revert j i Hin. induction ids as [ | k ids IH ]; intros j i Hin; cbn.
    + apply list_elem_of_singleton in Hin as ->. lia.
    + apply elem_of_cons in Hin as [->|Hin].
      * specialize (IH j j ltac:(left)). cbn in IH. lia.
      * apply elem_of_cons in Hin as [->|Hin].
        -- lia.
        -- specialize (IH j i ltac:(right; exact Hin)). cbn in IH. lia.
Qed.

Lemma link_objects_plain items :
  Forall link_object items -> JSON.plain (JArr items).
Proof.
  intros Hall. constructor. eapply Forall_impl; [exact Hall|].
  intros v (url & lbl & ->). constructor.
  - cbn. apply NoDup_cons. split; [|apply NoDup_singleton].
    intros Hin. apply list_elem_of_singleton in Hin. discriminate Hin.
  - repeat constructor.
  - repeat constructor.
Qed.

Lemma expand_links_stringify row v :
  JSON.plain v -> isArray v = true ->
  links_json row = JSON.stringify v ->
  exists view, expand_links row = Some view /\ pv_id view = project_id row
               /\ pv_links view = v.
Proof.
  intros Hplain Harr Htext. unfold expand_links. rewrite Htext.
  destruct v; try discriminate Harr.
  replace (match JSON.stringify (JArr items) with [] => lit "[]" | text => text end)
    with (JSON.stringify (JArr items)) by reflexivity.
  rewrite JSONFacts.parse_stringify by assumption. cbn. eexists. repeat split.
Qed.

(** *** The content handlers *)


Lemma session_user_of_db req d st :
  session_user_of req {| db := d; sessions := sessions st |} = session_user_of req st.
Proof. reflexivity. Qed.




(** *** The percent of a skill *)

Lemma post_skill_rejects E req st u body pct :
  session_user_of req st = Some u ->
  target req = PostAdminSkills body ->
  ToNumber (get_prop (js_or body (JObj [])) (lit "percent")) = Some pct ->
  percent_rejected pct = true ->
  handle E req st
  = (status_json 400
       (Error (if ToBoolean (get_prop (js_or body (JObj [])) (lit "label"))
               then "Percent 0-100" else "Label required")), st).
Proof.
  intros Hu Ht Hnum Hrej. unfold handle, dispatch. rewrite Ht.
  unfold post_admin_skills, run. rewrite (requireAuth_pass _ _ _ u) by assumption.
  lazy zeta. destruct (ToBoolean (get_prop _ (lit "label"))); cbn [negb]; [|reflexivity].
  monad. rewrite Hnum. cbn. rewrite Hrej. reflexivity.
Qed.

Lemma put_skill_rejects E req st u id body pct :
  session_user_of req st = Some u ->
  target req = PutAdminSkill id body ->
  ToNumber (get_prop (js_or body (JObj [])) (lit "percent")) = Some pct ->
  percent_rejected pct = true ->
  handle E req st
  = (status_json 400
       (Error (if ToBoolean (get_prop (js_or body (JObj [])) (lit "label"))
               then "Percent 0-100" else "Label required")), st).
Proof.
  intros Hu Ht Hnum Hrej. unfold handle, dispatch. rewrite Ht.
  unfold put_admin_skill, run. rewrite (requireAuth_pass _ _ _ u) by assumption.
  lazy zeta. destruct (ToBoolean (get_prop _ (lit "label")));
    monad; rewrite Hnum; cbn; [|reflexivity].
  rewrite Hrej. reflexivity.
Qed.

Lemma post_skill_raises E req st u body :
  session_user_of req st = Some u ->
  target req = PostAdminSkills body ->
  ToBoolean (get_prop (js_or body (JObj [])) (lit "label")) = true ->
  ToNumber (get_prop (js_or body (JObj [])) (lit "percent")) = None ->
  handle E req st = (uncaught TypeError, st).
Proof.
  intros Hu Ht Hlabel Hnum. unfold handle, dispatch. rewrite Ht.
  unfold post_admin_skills, run. rewrite (requireAuth_pass _ _ _ u) by assumption.
  lazy zeta. rewrite Hlabel. cbn [negb]. monad. rewrite Hnum. reflexivity.
Qed.

Lemma put_skill_raises E req st u id body :
  session_user_of req st = Some u ->
  target req = PutAdminSkill id body ->
  ToNumber (get_prop (js_or body (JObj [])) (lit "percent")) = None ->
  handle E req st = (uncaught TypeError, st).
Proof.
  intros Hu Ht Hnum. unfold handle, dispatch. rewrite Ht.
  unfold put_admin_skill, run. rewrite (requireAuth_pass _ _ _ u) by assumption.
  lazy zeta. monad. rewrite Hnum. reflexivity.
Qed.


(** *** A created project *)

Lemma post_project_created E req st u body id st' :
  session_user_of req st = Some u ->
  target req = PostAdminProjects body ->
  handle E req st = (json (OkId id), st') ->
  exists row,
    projects (db st') = projects (db st) ++ [row]
    /\ project_id row = id
    /\ id = new_rowid (List.map project_id (projects (db st)))
    /\ links_json row
       = JSON.stringify
           (let links := or_default (get_prop (js_or body (JObj [])) (lit "links")) (JArr []) in
            if isArray links then links else JArr [])
    /\ sessions st' = sessions st.
Proof.
  intros Hu Ht. unfold handle, dispatch. rewrite Ht.
  unfold post_admin_projects, run. rewrite (requireAuth_pass _ _ _ u) by assumption.
  lazy zeta.
  destruct (negb _ || negb _); [intros H; discriminate H|].
  unfold project_arguments. 
  destruct (get_prop (js_or body (JObj [])) (lit "title")) as [ | | | | ttl | | ];
    try (intros H; discriminate H).
  destruct (get_prop (js_or body (JObj [])) (lit "summary")) as [ | | | | smry | | ];
    try (intros H; discriminate H).
  monad.
  destruct (ToString _) as [stk|]; [|intros H; discriminate H].
  destruct (bind_argument _) as [srt|]; [|intros H; discriminate H].
  unfold insert_project.
  destruct (integer_not_null _) as [kept|]; cbn; [|intros H; discriminate H].
  unfold session_user_of in *. cbn in *. rewrite Hu. cbn. intros H. injection H as <- <-.
  eexists. cbn. repeat split; reflexivity.
Qed.

End WithRuntime.
End Facts.

(** ** The definitions at work on the sample process *)

Section Examples.
Import Db Server Sample.

Example trim_spaces : trim (lit "  a b  ") = lit "a b".
Proof. vm_compute. reflexivity. Qed.

Example trim_line_ends : trim ([0x0A; 0xA0; 0xFEFF]%N ++ lit "x" ++ [0x2028; 0x09]%N) = lit "x".
Proof. vm_compute. reflexivity. Qed.

Example number_of_text : ToNumber (JStr (lit " 42 ")) = Some 42%float.
Proof. vm_compute. reflexivity. Qed.

Example number_of_array : ToNumber (JArr [JNum 5]) = Some 5%float.
Proof. vm_compute. reflexivity. Qed.

Example number_of_object : ToNumber (JObj [(lit "percent", JNum 5)]) = Some nan.
Proof. vm_compute. reflexivity. Qed.

Example number_of_masked_object : ToNumber (JObj [(lit "toString", JNum 1)]) = None.
Proof. reflexivity. Qed.

Example text_of_links :
  JSON.stringify (JArr [JObj [(lit "url", JStr (lit "a/b")); (lit "n", JNull)]; JBool true])
  = lit "[{" ++ JSON.quote (lit "url") ++ lit ":" ++ JSON.quote (lit "a/b") ++ lit ","
    ++ JSON.quote (lit "n") ++ lit ":null},true]".
Proof. vm_compute. reflexivity. Qed.

Example parse_with_spaces_and_escapes :
  JSON.parse (lit " [ 1 , { " ++ JSON.quote (lit "k") ++ lit " : [ ] } , "
              ++ [0x22; 0x5C; 0x75; 0x30; 0x30; 0x34; 0x31; 0x5C; 0x6E; 0x22]%N ++ lit " ] ")
  = Some (JArr [JNum 1; JObj [(lit "k", JArr [])]; JStr [0x41; 0x0A]%N]).
Proof. vm_compute. reflexivity. Qed.

Example parse_orders_keys :
  JSON.parse (lit "{" ++ JSON.quote (lit "b") ++ lit ":null,"
              ++ JSON.quote (lit "10") ++ lit ":null,"
              ++ JSON.quote (lit "2") ++ lit ":null,"
              ++ JSON.quote (lit "b") ++ lit ":true}")
  = Some (JObj [(lit "2", JNull); (lit "10", JNull); (lit "b", JBool true)]).
Proof. vm_compute. reflexivity. Qed.

Example parse_refuses_trailing_comma : JSON.parse (lit "[1,]") = None.
Proof. vm_compute. reflexivity. Qed.

Example boot_seeds_the_admin :
  List.map username (users (db started)) = [lit "admin"]
  /\ List.map hero_headline (content (db started)) = [default_headline].
Proof. vm_compute. split; reflexivity. Qed.

Example login_answers :
  fst (handle clock (anonymous (PostLogin (credentials (lit "admin") (lit "secret"))))
         started)
  = json (OkUser admin).
Proof. vm_compute. reflexivity. Qed.

Example login_without_password :
  fst (handle clock (anonymous (PostLogin (JObj [(lit "username", JStr (lit "admin"))])))
         started)
  = uncaught BcryptError
  /\ fst (handle clock (anonymous (PostLogin (JObj [(lit "username", JStr (lit "nobody"))])))
            started)
     = status_json 401 (Error "Invalid credentials").
Proof. vm_compute. split; reflexivity. Qed.

(** The scenario of the specification: a skill posted without [sort] is
    listed with [sort] 0 under the id the creation returned. *)
Example skill_scenario :
  let body := JObj [(lit "label", JStr (lit "Go")); (lit "percent", JNum 80)] in
  let created := handle clock (as_admin (PostAdminSkills body)) logged_in in
  fst created = json (OkId 1)
  /\ fst (handle later (as_admin GetAdminSkills) (snd created))
     = json (Skills [ {| skill_id := 1; label := lit "Go"; percent := SqlInteger 80;
                         skill_sort := SqlInteger 0 |} ]).
Proof. vm_compute. split; reflexivity. Qed.

Example skills_listing :
  body (fst (handle later (as_admin GetAdminSkills) populated))
  = Skills [ {| skill_id := 2; label := lit "Rust"; percent := SqlInteger 60;
                skill_sort := SqlInteger 1 |};
             {| skill_id := 1; label := lit "Go"; percent := SqlInteger 80;
                skill_sort := SqlInteger 2 |} ].
Proof. vm_compute. reflexivity. Qed.

(** A percent that is no integer is kept as a real, a [sort] that spells no
    number as a text, which ORDER BY puts after every number, and a label
    with a surrogate that has no partner comes back with U+FFFD in its
    place. *)
Example half_percent_and_word_sort :
  let sent := JObj [(lit "label", JStr [0x61; 0xD800; 0x62]%N);
                    (lit "percent", JNum 80.5); (lit "sort", JStr (lit "last"))] in
  let created := handle clock (as_admin (PostAdminSkills sent)) populated in
  fst created = json (OkId 3)
  /\ List.map (fun r => (skill_id r, label r, percent r, skill_sort r))
       (match body (fst (handle later (as_admin GetAdminSkills) (snd created))) with
        | Skills l => l
        | _ => []
        end)
     = [ (2, lit "Rust", SqlInteger 60, SqlInteger 1);
         (1, lit "Go", SqlInteger 80, SqlInteger 2);
         (3, [0x61; 0xFFFD; 0x62]%N, SqlReal 80.5, SqlText (lit "last")) ].
Proof. vm_compute. split; reflexivity. Qed.

(** An update that names no row checks no constraint: a [sort] of [null],
    which NOT NULL refuses for the row of id 1, is accepted for the id 9. *)
Example null_sort_without_a_row :
  let sent := JObj [(lit "label", JStr (lit "Go")); (lit "percent", JNum 80);
                    (lit "sort", JNull)] in
  fst (handle clock (as_admin (PutAdminSkill (lit "9") sent)) populated) = json Ok
  /\ handle clock (as_admin (PutAdminSkill (lit "1") sent)) populated
     = (uncaught SqliteError, populated).
Proof. vm_compute. split; reflexivity. Qed.

Example values_in_order :
  sql_compare (SqlInteger 80) (SqlReal 80.5) = Lt
  /\ sql_compare (SqlReal 80.5) (SqlInteger 81) = Lt
  /\ sql_compare (SqlReal neg_infinity) (SqlInteger (- 2 ^ 70)) = Lt
  /\ sql_compare (SqlInteger (2 ^ 70)) (SqlReal infinity) = Lt
  /\ sql_compare (SqlReal infinity) (SqlText []) = Lt
  /\ sql_compare (SqlText (lit "a")) (SqlText (lit "ab")) = Lt
  /\ sql_compare (SqlText [0xE000]%N) (SqlText [0xD800; 0xDC00]%N) = Lt
  /\ sql_compare (SqlInteger 1) (SqlReal 1) = Eq.
Proof. vm_compute. repeat split; reflexivity. Qed.

Example projects_listing :
  match body (fst (handle later (as_admin GetAdminProjects) populated)) with
  | Projects l => List.map (fun v => (pv_id v, pv_featured v)) l = [(2, 1); (1, 0)]
  | _ => False
  end.
Proof. vm_compute. reflexivity. Qed.

Example percent_out_of_range :
  let body := JObj [(lit "label", JStr (lit "Go")); (lit "percent", JNum 101)] in
  handle clock (as_admin (PostAdminSkills body)) populated
  = (status_json 400 (Error "Percent 0-100"), populated).
Proof. vm_compute. reflexivity. Qed.

Example percent_not_a_number :
  let body := JObj [(lit "label", JStr (lit "Go")); (lit "percent", JStr (lit "high"))] in
  handle clock (as_admin (PutAdminSkill (lit "1") body)) populated
  = (status_json 400 (Error "Percent 0-100"), populated).
Proof. vm_compute. reflexivity. Qed.

Example logout_then_me :
  let out := snd (handle clock (as_admin PostLogout) populated) in
  fst (handle later (as_admin GetMe) out) = json (Me None)
  /\ List.map action (audit_log (db out))
     = List.map action (audit_log (db populated)) ++ [lit "logout"].
Proof. vm_compute. split; reflexivity. Qed.

End Examples.

(** ** The properties of the specification *)

Import Db Server Facts.

Section Claims.
Context {RT : Runtime}.


(** C2 (the code departs from the claim).  A [percent] that is an object with
    an own [toString] property cannot be converted to a number: [Number]
    raises, no handler catches it, and both skill endpoints answer 500, not
    400.  The state is left as it was. *)
Theorem percent_conversion_raises E req st u id label :
  session_user_of req st = Some u ->
  label <> [] ->
  let body := JObj [(lit "label", JStr label);
                    (lit "percent", JObj [(lit "toString", JNum 1)])] in
  target req = PostAdminSkills body \/ target req = PutAdminSkill id body ->
  handle E req st = (uncaught TypeError, st)
  /\ status (fst (handle E req st)) = 500.
Proof.
  intros Hu Hne body Ht.
  assert (handle E req st = (uncaught TypeError, st)) as H.
  { destruct Ht as [Ht|Ht].
    - eapply post_skill_raises; eauto. destruct label; [congruence|reflexivity].
    - eapply put_skill_raises; eauto. }
  rewrite H. split; reflexivity.
Qed.

(** C2, the part the code keeps: when [Number(percent)] is not finite or lies
    outside [0,100], both skill endpoints answer 400 and leave the state. *)
Lemma rejected_percent_answers_400 E req st u id body pct :
  session_user_of req st = Some u ->
  target req = PostAdminSkills body \/ target req = PutAdminSkill id body ->
  ToNumber (get_prop (js_or body (JObj [])) (lit "percent")) = Some pct ->
  is_finite pct = false \/ (pct <? 0)%float = true \/ (100 <? pct)%float = true ->
  status (fst (handle E req st)) = 400 /\ snd (handle E req st) = st.
Proof.
  intros Hu Ht Hnum Hbad.
  assert (percent_rejected pct = true) as Hrej.
  { unfold percent_rejected. destruct Hbad as [->|[->| ->]]; cbn;
      rewrite ?orb_true_r; reflexivity. }
  destruct Ht as [Ht|Ht].
  - erewrite post_skill_rejects by eauto. split; reflexivity.
  - erewrite put_skill_rejects by eauto. split; reflexivity.
Qed.


(** Beside C3: a field that is truthy and not a string has no [trim]; the
    call raises before any statement runs and the request is answered 500. *)
Lemma untrimmable_field_raises E req st u body :
  session_user_of req st = Some u ->
  target req = PutAdminContent body ->
  let hero_headline := get_prop (js_or body (JObj [])) (lit "hero_headline") in
  let hero_subtitle := get_prop (js_or body (JObj [])) (lit "hero_subtitle") in
  ToBoolean hero_headline = true -> ToBoolean hero_subtitle = true ->
  (forall s, hero_headline <> JStr s) \/ (forall s, hero_subtitle <> JStr s) ->
  handle E req st = (uncaught TypeError, st).
Proof.
  intros Hu Ht hh hs Hh Hs Hnot. unfold handle, dispatch. rewrite Ht.
  unfold put_admin_content, run. rewrite (requireAuth_pass _ _ _ u) by assumption.
  lazy zeta. fold hh hs. rewrite Hh, Hs. cbn [negb orb]. monad.
  destruct Hnot as [Hnot|Hnot].
  - destruct hh; try reflexivity. destruct (Hnot s eq_refl).
  - destruct hh; try reflexivity. destruct hs; try reflexivity. destruct (Hnot s0 eq_refl).
Qed.

(** C4 (the code departs from the claim).  The password is compared only
    when the user exists, and the comparison raises on a password it cannot
    compare, which is what bcryptjs does with one that is not a string, as
    when the body holds no password.  Such a login is answered 500 for the
    name of an existing user and 401 "Invalid credentials" for a name that
    is not in the table: the two answers differ and tell whether the user
    exists.  Neither changes the state. *)
Theorem uncomparable_password_shows_the_user E1 E2 req1 req2 st body1 body2 row :
  target req1 = PostLogin body1 ->
  target req2 = PostLogin body2 ->
  select_user_by (db st) (get_prop (js_or body1 (JObj [])) (lit "username"))
  = Some (Some row) ->
  compareSync (get_prop (js_or body1 (JObj [])) (lit "password")) (password_hash row)
  = None ->
  select_user_by (db st) (get_prop (js_or body2 (JObj [])) (lit "username"))
  = Some None ->
  handle E1 req1 st = (uncaught BcryptError, st)
  /\ handle E2 req2 st = (status_json 401 (Error "Invalid credentials"), st)
  /\ status (fst (handle E1 req1 st)) = 500
  /\ status (fst (handle E2 req2 st)) = 401
  /\ fst (handle E1 req1 st) <> fst (handle E2 req2 st).
Proof.
  intros Ht1 Ht2 Hrow Hcmp Hnone.
  assert (handle E1 req1 st = (uncaught BcryptError, st)) as H1.
  { unfold handle, dispatch. rewrite Ht1. unfold post_login. lazy zeta. monad.
    rewrite Hrow. cbv beta iota. rewrite Hcmp. reflexivity. }
  assert (handle E2 req2 st = (status_json 401 (Error "Invalid credentials"), st)) as H2.
  { unfold handle, dispatch. rewrite Ht2. unfold post_login. lazy zeta. monad.
    rewrite Hnone. reflexivity. }
  rewrite H1, H2. repeat split; try reflexivity. discriminate.
Qed.


(** C5.  A request to a route under /api/admin/ that carries no valid
    session is answered 401 "Unauthorized" and leaves the whole state, the
    tables and the sessions, as it was.  After a logout, whoever sends the
    same cookie gets [{ user: null }] from /api/me and 401 from every admin
    route. *)
Theorem admin_gate_and_logout E E0 req st :
  is_admin (target req) = true ->
  (session_user_of req st = None ->
   handle E req st = (status_json 401 (Error "Unauthorized"), st))
  /\ (let st' := snd (handle E0 {| cookie := cookie req; target := PostLogout |} st) in
      handle E {| cookie := cookie req; target := GetMe |} st' = (json (Me None), st')
      /\ handle E req st' = (status_json 401 (Error "Unauthorized"), st')).
Proof.
  intros Hadmin. split; [apply admin_route_stops, Hadmin|].
  intros st'.
  pose proof (session_gone_after_logout E0 (cookie req) st) as Hgone.
  fold st' in Hgone. split.
  - unfold handle, dispatch, get_me. cbn [target]. monad.
    change (session_user_of {| cookie := cookie req; target := GetMe |} st')
      with (session_user_of {| cookie := cookie req; target := PostLogout |} st').
    rewrite Hgone. reflexivity.
  - apply admin_route_stops; [exact Hadmin|exact Hgone].
Qed.

(** C6 (the code departs from the claim).  When the [links_json] of a stored
    project is a text [JSON.parse] refuses, the projects listing returns no
    rows in any order: expanding the links raises a SyntaxError that no
    handler catches and the request is answered 500, where the claim has an
    ordered list for every database state (and the specification an empty
    list of links for a text that does not parse).  The state is left as it
    was. *)
Theorem unreadable_links_fail_the_listing E req st u p :
  session_user_of req st = Some u ->
  target req = GetAdminProjects ->
  p ∈ projects (db st) ->
  links_json p <> [] ->
  JSON.parse (links_json p) = None ->
  handle E req st = (uncaught SyntaxError, st)
  /\ status (fst (handle E req st)) = 500
  /\ (forall l, body (fst (handle E req st)) <> Projects l).
Proof.
  intros Hu Ht Hp Hne Hparse.
  assert (handle E req st = (uncaught SyntaxError, st)) as H.
  { unfold handle, dispatch. rewrite Ht. unfold get_admin_projects, run.
    rewrite (requireAuth_pass _ _ _ u) by assumption.
    unfold bind. rewrite list_projects_unreadable; [reflexivity|].
    intros Hread. unfold projects_readable in Hread.
    pose proof (proj1 (Forall_forall _ _) Hread p Hp) as [v Hv].
    unfold expand_links in Hv. destruct (links_json p); [congruence|].
    rewrite Hparse in Hv. discriminate Hv. }
  rewrite H. repeat split. intros l. discriminate.
Qed.


(** C7.  When a project is created with a list of link objects, the listing
    that follows contains the project under the id the creation returned,
    and the [links] of every listed project of that id is the original list. *)
Theorem project_links_round_trip E E' req st u body items id st' :
  session_user_of req st = Some u ->
  target req = PostAdminProjects body ->
  get_prop body (lit "links") = JArr items ->
  Forall link_object items ->
  projects_readable (db st) ->
  handle E req st = (json (OkId id), st') ->
  exists l,
    handle E' {| cookie := cookie req; target := GetAdminProjects |} st'
    = (json (Projects l), st')
    /\ (exists v, v ∈ l /\ pv_id v = id)
    /\ (forall v, v ∈ l -> pv_id v = id -> pv_links v = JArr items).
Proof.
  intros Hu Ht Hlinks Hitems Hread Hcreate.
  destruct (post_project_created _ _ _ _ _ _ _ Hu Ht Hcreate)
    as (row & Hrows & Hid & Hnew & Htext & Hsess).
  assert (js_or body (JObj []) = body) as Hbody
    by (destruct body; cbn in Hlinks |- *; try discriminate; reflexivity).
  rewrite Hbody, Hlinks in Htext. cbn [or_default isArray] in Htext.
  destruct (expand_links_stringify row (JArr items)) as (view & Hview & Hvid & Hvlinks);
    [apply link_objects_plain, Hitems|reflexivity|exact Htext|].
  assert (projects_readable (db st')) as Hread'.
  { unfold projects_readable. rewrite Hrows. apply Forall_app. split; [exact Hread|].
    constructor; [rewrite Hview; eauto|constructor]. }
  destruct (list_projects_readable st' Hread') as (views & Hlist & Hviews).
  destruct (select_projects_sorted (db st')) as [_ Hperm].
  exists views. split; [|split].
  - unfold handle, dispatch. cbn [target]. unfold get_admin_projects, run.
    rewrite (requireAuth_pass _ _ _ u).
    + unfold bind. rewrite Hlist. reflexivity.
    + unfold session_user_of in *. cbn [cookie]. rewrite Hsess. exact Hu.
  - assert (row ∈ select_projects (db st')) as Hin.
    { rewrite Hperm, Hrows. apply elem_of_app. right. left. }
    destruct (Forall2_elem_of_l _ _ _ _ Hviews Hin) as (v & Hv & Hrv).
    exists v. split; [exact Hv|]. rewrite Hview in Hrv. injection Hrv as <-.
    rewrite Hvid. exact Hid.
  - intros v Hv Hvid'.
    destruct (Forall2_elem_of_r _ _ _ _ Hviews Hv) as (p & Hp & Hpv).
    rewrite Hperm, Hrows in Hp. apply elem_of_app in Hp as [Hold|Hnewrow].
    + exfalso. apply expand_links_fields in Hpv as (Hpid & _).
      assert (project_id p < id) as Hlt.
      { rewrite Hnew. apply new_rowid_above.
        apply list_elem_of_fmap. exists p. split; [reflexivity|exact Hold]. }
      lia.
    + apply list_elem_of_singleton in Hnewrow as ->.
      rewrite Hview in Hpv. injection Hpv as <-. exact Hvlinks.
Qed.

(** C8.  Deleting a skill under an id no row has answers [{ ok: true }],
    removes no skill and appends exactly one audit entry, with action
    "delete", entity "skill" and that id. *)
Theorem delete_missing_skill_succeeds E req st u id :
  session_user_of req st = Some u ->
  target req = DeleteAdminSkill id ->
  Forall (fun r => id_is (StringToNumber id) (skill_id r) = false) (skills (db st)) ->
  let st' := snd (handle E req st) in
  fst (handle E req st) = json Ok
  /\ skills (db st') = skills (db st)
  /\ audit_log (db st')
     = audit_log (db st)
       ++ [ {| audit_id := new_rowid (List.map audit_id (audit_log (db st)));
               actor := su_username u;
               action := lit "delete";
               entity := lit "skill";
               entity_id := EntityParam (StringToNumber id);
               meta_json := lit "{}";
               audit_created_at := now E |} ].
Proof.
  intros Hu Ht Hnone st'. subst st'.
  rewrite (delete_absent_skill E req st u id) by assumption.
  cbn. auto.
Qed.

(** C9.  The content table holds exactly one row, of id 1: opening the data
    file seeds it with the default text when it is absent, every request
    keeps it, and no request other than PUT /api/admin/content changes the
    table at all; so the row is there in every state the server reaches. *)
Theorem content_row_invariant :
  (forall pe t d, content_schema d -> content_singleton (db (boot pe t d)))
  /\ (forall pe t d,
        content_schema d -> content d = [] ->
        content (db (boot pe t d))
        = [ {| content_id := 1; hero_headline := default_headline;
               hero_subtitle := default_subtitle; content_updated_at := t |} ])
  /\ (forall E req st,
        content_singleton (db st) -> content_singleton (db (snd (handle E req st))))
  /\ (forall E req st,
        (forall body, target req <> PutAdminContent body) ->
        content (db (snd (handle E req st))) = content (db st))
  /\ (forall st, reachable st -> content_singleton (db st)).
Proof.
  split; [|split; [|split; [|split]]].
  - apply boot_singleton.
  - intros pe t d Hs Hnil. unfold boot. cbn [db].
    rewrite content_ensureAdminUser. apply open_seeds; assumption.
  - apply handle_singleton.
  - apply handle_same_content.
  - apply reachable_singleton.
Qed.

(** C10.  The public endpoint lists the same skills in the same order as the
    admin skills endpoint, each entry with the id, the label and the percent
    of the admin entry in its place and without its [sort], and the same
    projects in the same order as the admin projects endpoint; when a stored
    link text is unreadable, both project listings fail alike. *)
Theorem public_lists_match_admin_lists E1 E2 E3 pub reqS reqP st u u' :
  target pub = GetPublicContent ->
  target reqS = GetAdminSkills -> session_user_of reqS st = Some u ->
  target reqP = GetAdminProjects -> session_user_of reqP st = Some u' ->
  exists skills,
    handle E2 reqS st = (json (Skills skills), st)
    /\ ((exists content public_skills projects,
           handle E1 pub st = (json (Public content public_skills projects), st)
           /\ Forall2 (fun p s =>
                         ps_id p = skill_id s
                         /\ ps_label p = label s
                         /\ ps_percent p = percent s)
                public_skills skills
           /\ handle E3 reqP st = (json (Projects projects), st))
        \/ (handle E1 pub st = (uncaught SyntaxError, st)
            /\ handle E3 reqP st = (uncaught SyntaxError, st))).
Proof.
  intros Hpub HtS HuS HtP HuP. exists (select_skills (db st)). split.
  - unfold handle, dispatch. rewrite HtS. unfold get_admin_skills, run.
    rewrite (requireAuth_pass _ _ _ u) by assumption. reflexivity.
  - unfold handle, dispatch. rewrite Hpub, HtP.
    unfold get_public_content, get_admin_projects, run.
    rewrite (requireAuth_pass _ _ _ u') by assumption.
    unfold bind, query. rewrite list_projects_runs.
    destruct (mapM expand_links (select_projects (db st))) as [views|].
    + left. eexists _, _, views. split; [reflexivity|]. split; [|reflexivity].
      apply Forall2_fmap_l, Forall_Forall2_diag, Forall_forall.
      intros r _. repeat split.
    + right. split; reflexivity.
Qed.

End Claims.

(** ** The properties on the sample process *)

Section Witnesses.
Import Sample.


(** C1 as the specification states it fails: a headline with a surrogate
    that has no partner is accepted, and the read that follows returns
    another string than the trimmed headline, with U+FFFD in the place of
    the surrogate. *)
Lemma unpaired_surrogate_is_not_read_back :
  let headline := [0x61; 0xD800; 0x62]%N in
  let body := JObj [(lit "hero_headline", JStr headline);
                    (lit "hero_subtitle", JStr (lit "World"))] in
  let req := as_admin (PutAdminContent body) in
  let st' := snd (handle clock req logged_in) in
  trim headline = headline
  /\ fst (handle clock req logged_in) = json Ok
  /\ fst (handle later (as_admin GetAdminContent) st')
     = json (Content (Some {| cv_hero_headline := [0x61; 0xFFFD; 0x62]%N;
                              cv_hero_subtitle := lit "World";
                              cv_updated_at := now clock |}))
  /\ fst (handle later (as_admin GetAdminContent) st')
     <> json (Content (Some {| cv_hero_headline := trim headline;
                               cv_hero_subtitle := trim (lit "World");
                               cv_updated_at := now clock |})).
Proof.
  intros headline body req st'. split; [reflexivity|]. split; [vm_compute; reflexivity|].
  split; [vm_compute; reflexivity|]. vm_compute. discriminate.
Qed.

Lemma percent_conversion_raises_witness :
  let body := JObj [(lit "label", JStr (lit "Go"));
                    (lit "percent", JObj [(lit "toString", JNum 1)])] in
  (handle clock (as_admin (PostAdminSkills body)) populated
   = (uncaught TypeError, populated)
   /\ status (fst (handle clock (as_admin (PostAdminSkills body)) populated)) = 500)
  /\ (handle clock (as_admin (PutAdminSkill (lit "1") body)) populated
      = (uncaught TypeError, populated)
      /\ status (fst (handle clock (as_admin (PutAdminSkill (lit "1") body)) populated))
         = 500).
Proof.
  intros body. split.
  - apply (percent_conversion_raises clock (as_admin (PostAdminSkills body)) populated
             admin (lit "1") (lit "Go")).
    + vm_compute. reflexivity.
    + discriminate.
    + left. reflexivity.
  - apply (percent_conversion_raises clock (as_admin (PutAdminSkill (lit "1") body))
             populated admin (lit "1") (lit "Go")).
    + vm_compute. reflexivity.
    + discriminate.
    + right. reflexivity.
Defined.



Lemma uncomparable_password_shows_the_user_witness :
  let req1 := anonymous (PostLogin (JObj [(lit "username", JStr (lit "admin"))])) in
  let req2 := anonymous (PostLogin (JObj [(lit "username", JStr (lit "nobody"))])) in
  handle clock req1 populated = (uncaught BcryptError, populated)
  /\ handle later req2 populated
     = (status_json 401 (Error "Invalid credentials"), populated)
  /\ status (fst (handle clock req1 populated)) = 500
  /\ status (fst (handle later req2 populated)) = 401
  /\ fst (handle clock req1 populated) <> fst (handle later req2 populated).
Proof.
  intros req1 req2.
  apply (uncomparable_password_shows_the_user clock later req1 req2 populated
           (JObj [(lit "username", JStr (lit "admin"))])
           (JObj [(lit "username", JStr (lit "nobody"))])
           {| user_id := 1; username := lit "admin";
              password_hash := lit "$2a$12$secret"; role := lit "admin";
              user_created_at := now clock |}).
  - reflexivity.
  - reflexivity.
  - vm_compute. reflexivity.
  - vm_compute. reflexivity.
  - vm_compute. reflexivity.
Defined.


Lemma admin_gate_and_logout_witness :
  handle clock (anonymous (DeleteAdminSkill (lit "1"))) populated
  = (status_json 401 (Error "Unauthorized"), populated)
  /\ (let out := snd (handle clock (as_admin PostLogout) populated) in
      handle later (as_admin GetMe) out = (json (Me None), out)
      /\ handle later (as_admin GetAdminSkills) out
         = (status_json 401 (Error "Unauthorized"), out)).
Proof.
  split.
  - apply (proj1 (admin_gate_and_logout clock later
                    (anonymous (DeleteAdminSkill (lit "1"))) populated eq_refl)).
    reflexivity.
  - apply (proj2 (admin_gate_and_logout later clock
                    (as_admin GetAdminSkills) populated eq_refl)).
Defined.

Lemma unreadable_links_fail_the_listing_witness :
  let req := as_admin GetAdminProjects in
  handle clock req damaged = (uncaught SyntaxError, damaged)
  /\ status (fst (handle clock req damaged)) = 500
  /\ (forall l, body (fst (handle clock req damaged)) <> Projects l).
Proof.
  intros req.
  apply (unreadable_links_fail_the_listing clock req damaged admin
           {| project_id := 1; title := lit "Tool"; summary := lit "A CLI"; stack := [];
              links_json := lit "oops"; featured := 0; project_sort := SqlInteger 0;
              project_created_at := now clock; project_updated_at := now clock |}).
  - vm_compute. reflexivity.
  - reflexivity.
  - apply list_elem_of_In. vm_compute. left. reflexivity.
  - discriminate.
  - vm_compute. reflexivity.
Defined.


Lemma project_links_round_trip_witness :
  let links := [JObj [(lit "url", JStr (lit "https://x")); (lit "label", JStr (lit "x"))]] in
  let body := JObj [(lit "title", JStr (lit "Site")); (lit "summary", JStr (lit "Mine"));
                    (lit "links", JArr links)] in
  let req := as_admin (PostAdminProjects body) in
  let st' := snd (handle clock req logged_in) in
  exists l,
    handle later {| cookie := cookie req; target := GetAdminProjects |} st'
    = (json (Projects l), st')
    /\ (exists v, v ∈ l /\ pv_id v = 1)
    /\ (forall v, v ∈ l -> pv_id v = 1 -> pv_links v = JArr links).
Proof.
  intros links body req st'.
  apply (project_links_round_trip clock later req logged_in admin body links 1 st').
  - vm_compute. reflexivity.
  - reflexivity.
  - reflexivity.
  - repeat constructor. eexists _, _. reflexivity.
  - constructor.
  - vm_compute. reflexivity.
Defined.

Lemma delete_missing_skill_succeeds_witness :
  let req := as_admin (DeleteAdminSkill (lit "7")) in
  let st' := snd (handle clock req populated) in
  fst (handle clock req populated) = json Ok
  /\ skills (db st') = skills (db populated)
  /\ audit_log (db st')
     = audit_log (db populated)
       ++ [ {| audit_id := new_rowid (List.map audit_id (audit_log (db populated)));
               actor := su_username admin;
               action := lit "delete";
               entity := lit "skill";
               entity_id := EntityParam (StringToNumber (lit "7"));
               meta_json := lit "{}";
               audit_created_at := now clock |} ].
Proof.
  intros req.
  apply (delete_missing_skill_succeeds clock req populated admin (lit "7")).
  - vm_compute. reflexivity.
  - reflexivity.
  - apply (bool_decide_unpack _). vm_compute. exact I.
Defined.

Lemma content_row_invariant_witness :
  content_singleton (db (boot environment (now clock) Db.empty))
  /\ content_singleton (db populated).
Proof.
  split.
  - apply (proj1 content_row_invariant). split; constructor.
  - apply (proj2 (proj2 (proj2 (proj2 content_row_invariant)))).
    unfold populated, serve, logged_in, started. cbn [fold_left].
    repeat apply reachable_handle. apply reachable_boot. split; constructor.
Defined.

Lemma public_lists_match_admin_lists_witness :
  exists skills,
    handle clock (as_admin GetAdminSkills) populated = (json (Skills skills), populated)
    /\ ((exists content public_skills projects,
           handle later (anonymous GetPublicContent) populated
           = (json (Public content public_skills projects), populated)
           /\ Forall2 (fun p s =>
                         ps_id p = skill_id s
                         /\ ps_label p = label s
                         /\ ps_percent p = percent s)
                public_skills skills
           /\ handle clock (as_admin GetAdminProjects) populated
              = (json (Projects projects), populated))
        \/ (handle later (anonymous GetPublicContent) populated
            = (uncaught SyntaxError, populated)
            /\ handle clock (as_admin GetAdminProjects) populated
               = (uncaught SyntaxError, populated))).
Proof.
  apply (public_lists_match_admin_lists later clock clock
           (anonymous GetPublicContent) (as_admin GetAdminSkills)
           (as_admin GetAdminProjects) populated admin admin).
  - reflexivity.
  - reflexivity.
  - vm_compute. reflexivity.
  - reflexivity.
  - vm_compute. reflexivity.
Defined.

(** The public entries of the sample process, field by field. *)
Example public_skills_of_the_sample :
  match body (fst (handle later (anonymous GetPublicContent) populated)) with
  | Public _ public_skills _ =>
      public_skills
      = [ {| ps_id := 2; ps_label := lit "Rust"; ps_percent := SqlInteger 60 |};
          {| ps_id := 1; ps_label := lit "Go"; ps_percent := SqlInteger 80 |} ]
  | _ => False
  end.
Proof. vm_compute. reflexivity. Qed.

End Witnesses.

(** ** What [JSON.parse] makes of a text [JSON.stringify] wrote *)

Module EchoFacts.
Import JSON JSONFacts.
Local Open Scope N_scope.

Section Codec.
Context {RT : Runtime}.

Lemma lexable_arr items : lexable (JArr items) <-> Forall lexable items.
Proof.
  cbn [lexable]. induction items as [ | x items IH ].
  - split; [constructor|trivial].
  - rewrite Forall_cons, <- IH. reflexivity.
Qed.

Lemma lexable_obj props : lexable (JObj props) <-> Forall (fun kv => lexable (snd kv)) props.
Proof.
  cbn [lexable]. induction props as [ | [k x] props IH ].
  - split; [constructor|trivial].
  - rewrite Forall_cons, <- IH. reflexivity.
Qed.

Lemma serialize_written props :
  serialize (JObj props) = 0x7B :: join_comma (List.map member (written props)) ++ [0x7D].
Proof.
  cbn [serialize app]. do 3 f_equal. unfold written.
  induction props as [ | [k x] props IH ]; [reflexivity|].
  rewrite IH. destruct x; reflexivity.
Qed.

Lemma echo_written props :
  echo (JObj props)
  = JObj (fold_left define_prop
            (List.map (fun kv => (fst kv, echo (snd kv))) (written props)) []).
Proof.
  cbn [echo]. do 2 f_equal. unfold written.
  induction props as [ | [k x] props IH ]; [reflexivity|].
  rewrite IH. destruct x; reflexivity.
Qed.

Lemma lex_number_head s tok r :
  lex_number s = Some (tok, r) ->
  exists c t, s = c :: t /\ (c = 0x2D \/ is_digit c = true).
Proof.
  unfold lex_number, lex_sign. destruct s as [ | c t ]; [discriminate|].
  intros H. exists c, t. split; [reflexivity|].
  destruct (N.eqb_spec c 0x2D) as [->|Hc]; [left; reflexivity|right].
  unfold lex_int in H. destruct (N.eqb_spec c 48) as [->|H0]; [reflexivity|].
  destruct (is_digit c); [reflexivity|discriminate H].
Qed.

Lemma number_head_tests c :
  c = 0x2D \/ is_digit c = true ->
  is_ws c = false /\ (c =? 0x22) = false /\ (c =? 0x5B) = false
  /\ (c =? 0x7B) = false /\ (c =? 0x74) = false /\ (c =? 0x66) = false
  /\ (c =? 0x6E) = false /\ c <> 0x5D /\ c <> 0x7D.
Proof.
  intros [->|Hc]; [repeat split; discriminate|].
  unfold is_digit in Hc. units.
  assert (is_ws c = false) as ->.
  { unfold is_ws. rewrite !orb_false_iff. repeat split; apply N.eqb_neq; lia. }
  repeat split; first [reflexivity|apply N.eqb_neq; lia|lia].
Qed.

(** A text that starts like a number is read by the lexer. *)
Lemma parse_value_number fuel s tok r :
  lex_number s = Some (tok, r) ->
  parse_value (S fuel) s = Some (JNum (StringToNumber tok), r).
Proof.
  intros H. destruct (lex_number_head _ _ _ H) as (c & t & -> & Hc).
  destruct (number_head_tests c Hc) as (Hws & H1 & H2 & H3 & H4 & H5 & H6 & _).
  cbn [parse_value skip_ws]. rewrite Hws, H1, H2, H3, H4, H5, H6, H. reflexivity.
Qed.

(** The first character of the text of a value: it is no white space and
    closes no array or object. *)
Lemma serialize_head v :
  lexable v ->
  exists c tail, serialize v = c :: tail /\ is_ws c = false /\ c <> 0x5D /\ c <> 0x7D.
Proof.
  intros Hv. destruct v as [ | | b | f | s | items | props ];
    try (eexists _, _; split; [reflexivity|]; repeat split; discriminate).
  - destruct b; eexists _, _; (split; [reflexivity|]); repeat split; discriminate.
  - cbn [serialize]. destruct (is_finite f) eqn:Hf;
      [|eexists _, _; split; [reflexivity|]; repeat split; discriminate].
    cbn [lexable] in Hv. specialize (Hv Hf [] I). rewrite app_nil_r in Hv.
    destruct (lex_number_head _ _ _ Hv) as (c & t & -> & Hc).
    exists c, t. split; [reflexivity|].
    destruct (number_head_tests c Hc) as (Hws & _ & _ & _ & _ & _ & _ & H1 & H2). auto.
Qed.

Lemma closes_comma rest : closes (0x2C :: rest).
Proof. cbn. auto. Qed.

Lemma closes_bracket rest : closes (0x5D :: rest).
Proof. cbn. auto. Qed.

Lemma closes_brace rest : closes (0x7D :: rest).
Proof. cbn. auto. Qed.

Lemma parse_elements_echo items :
  items <> [] -> Forall reads items -> Forall lexable items ->
  forall fuel rest,
    (length (join_comma (List.map serialize items)) < fuel)%nat ->
    parse_elements fuel (join_comma (List.map serialize items) ++ 0x5D :: rest)
    = Some (List.map echo items, rest).
Proof.
  intros Hne Hall Hlex. induction Hall as [ | x items Hx Hall IH ]; [congruence|].
  intros fuel rest Hfuel. inversion Hlex as [ | ? ? Hlx Hlitems ]; subst.
  destruct fuel as [ | fuel ]; [lia|]. cbn [parse_elements].
  destruct items as [ | y items ].
  - cbn [List.map join_comma] in *.
    rewrite Hx by (assumption || lia || apply closes_bracket). cbn. reflexivity.
  - cbn [List.map] in Hfuel. rewrite length_join_cons in Hfuel.
    change (join_comma (List.map serialize (x :: y :: items)))
      with (serialize x ++ [0x2C] ++ join_comma (List.map serialize (y :: items))).
    rewrite <- !app_assoc. rewrite Hx by (assumption || lia || apply closes_comma). cbn.
    rewrite IH by (congruence || assumption || cbn in *; lia). reflexivity.
Qed.

Lemma parse_members_echo props :
  props <> [] ->
  Forall (fun kv => reads (snd kv)) props ->
  Forall (fun kv => lexable (snd kv)) props ->
  forall fuel rest,
    (length (join_comma (List.map member props)) < fuel)%nat ->
    parse_members fuel (join_comma (List.map member props) ++ 0x7D :: rest)
    = Some (List.map (fun kv => (fst kv, echo (snd kv))) props, rest).
Proof.
  intros Hne Hall Hlex. induction Hall as [ | [k x] props Hx Hall IH ]; [congruence|].
  intros fuel rest Hfuel. inversion Hlex as [ | ? ? Hlx Hlprops ]; subst.
  cbn [snd] in Hx, Hlx.
  destruct fuel as [ | fuel ]; [lia|]. cbn [parse_members].
  pose proof (length_member (k, x)) as Hlen. cbn [snd] in Hlen.
  destruct props as [ | kv props ].
  - cbn [List.map join_comma] in *. unfold member at 1. cbn [fst snd].
    rewrite <- !app_assoc. rewrite quote_app. cbn. rewrite parse_quote_body.
    cbn. rewrite Hx by (assumption || lia || apply closes_brace). cbn. reflexivity.
  - cbn [List.map] in Hfuel. rewrite length_join_cons in Hfuel.
    change (join_comma (List.map member ((k, x) :: kv :: props)))
      with (member (k, x) ++ [0x2C] ++ join_comma (List.map member (kv :: props))).
    unfold member at 1. cbn [fst snd]. rewrite <- !app_assoc.
    rewrite quote_app. cbn. rewrite parse_quote_body.
    cbn. rewrite Hx by (assumption || lia || apply closes_comma). cbn.
    rewrite IH by (congruence || assumption || cbn in *; lia). reflexivity.
Qed.

Lemma parse_serialize_echo v : reads v.
Proof.
  induction v as [ | | b | f | s | items IH | props IH ] using jsval_ind;
    intros Hlex fuel rest Hfuel Hrest.
  - destruct fuel; [cbn in Hfuel; lia|]. reflexivity.
  - destruct fuel; [cbn in Hfuel; lia|]. reflexivity.
  - destruct fuel; [destruct b; cbn in Hfuel; lia|]. destruct b; reflexivity.
  - cbn [serialize echo] in *. destruct (is_finite f) eqn:Hf.
    + cbn [lexable] in Hlex. specialize (Hlex Hf rest Hrest).
      destruct fuel as [ | fuel ].
      { apply lex_number_length in Hlex. rewrite length_app in Hlex. lia. }
      apply parse_value_number, Hlex.
    + destruct fuel; [cbn in Hfuel; lia|]. reflexivity.
  - destruct fuel; [cbn in Hfuel; lia|].
    cbn [serialize]. rewrite quote_app. cbn. rewrite parse_quote_body. reflexivity.
  - apply lexable_arr in Hlex.
    destruct fuel; [cbn in Hfuel; lia|].
    destruct items as [ | x items ]; [reflexivity|].
    cbn [serialize echo] in *. rewrite <- !app_assoc. cbn [app length] in *.
    rewrite length_app in Hfuel. cbn [length] in Hfuel.
    destruct (serialize_head x) as (c & tail & Hhead & Hws & Hc & _);
      [inversion Hlex; assumption|].
    cbn [parse_value skip_ws is_ws N.eqb Pos.eqb orb].
    assert (exists tail', join_comma (List.map serialize (x :: items)) ++ 0x5D :: rest
                          = c :: tail') as [tail' Htext].
    { destruct items; cbn [List.map join_comma]; rewrite Hhead;
        eexists; cbn; reflexivity. }
    rewrite Htext at 1. rewrite skip_ws_cons by exact Hws.
    replace (c =? 0x5D) with false by (symmetry; apply N.eqb_neq; exact Hc).
    rewrite parse_elements_echo by (congruence || assumption || lia).
    reflexivity.
  - apply lexable_obj in Hlex. rewrite echo_written.
    rewrite serialize_written in *.
    assert (Forall (fun kv => reads (snd kv)) (written props)) as IH'.
    { apply Forall_forall. intros kv Hkv. unfold written in Hkv.
      apply list_elem_of_In, filter_In in Hkv as [Hkv _].
      exact (proj1 (Forall_forall _ _) IH kv (proj2 (list_elem_of_In _ _) Hkv)). }
    assert (Forall (fun kv => lexable (snd kv)) (written props)) as Hlex'.
    { apply Forall_forall. intros kv Hkv. unfold written in Hkv.
      apply list_elem_of_In, filter_In in Hkv as [Hkv _].
      exact (proj1 (Forall_forall _ _) Hlex kv (proj2 (list_elem_of_In _ _) Hkv)). }
    destruct fuel; [cbn in Hfuel; lia|].
    destruct (written props) as [ | [k x] ms ]; [reflexivity|].
    cbn [app length] in *. rewrite length_app in Hfuel. cbn [length] in Hfuel.
    rewrite <- !app_assoc. cbn [app].
    cbn [parse_value skip_ws is_ws N.eqb Pos.eqb orb].
    assert (exists tail', join_comma (List.map member ((k, x) :: ms)) ++ 0x7D :: rest
                          = 0x22 :: tail') as [tail' Htext].
    { destruct ms; cbn [List.map join_comma]; unfold member at 1, quote;
        eexists; cbn; reflexivity. }
    rewrite Htext at 1. rewrite skip_ws_cons by reflexivity.
    cbn [N.eqb Pos.eqb].
    rewrite parse_members_echo by (congruence || assumption || lia).
    reflexivity.
Qed.

(** [JSON.parse(JSON.stringify(v))] is the echo of [v]. *)
Lemma parse_stringify_echo v : lexable v -> parse (stringify v) = Some (echo v).
Proof.
  intros Hlex. unfold parse, stringify.
  rewrite <- (app_nil_r (serialize v)) at 2.
  rewrite parse_serialize_echo by (assumption || lia || exact I). reflexivity.
Qed.

End Codec.

End EchoFacts.

(** ** The paths through a handler *)

Module Paths.
Import EchoFacts.

Section Statements.
Context {RT : Runtime}.

(** A property of the data that every statement of the server keeps is
    kept by every request. *)
Lemma handle_invariant (I : database -> Prop) E req st :
  (forall t a b c r m d, I d -> I (insert_audit t a b c r m d)) ->
  (forall l p s d id d', insert_skill l p s d = Some (id, d') -> I d -> I d') ->
  (forall l p s id d d', update_skill l p s id d = Some d' -> I d -> I d') ->
  (forall id d, I d -> I (delete_skill id d)) ->
  (forall t a b c l f s d id d',
     insert_project t a b c l f s d = Some (id, d') -> I d -> I d') ->
  (forall t a b c l f s id d d',
     update_project t a b c l f s id d = Some d' -> I d -> I d') ->
  (forall id d, I d -> I (delete_project id d)) ->
  (forall t h s d, I d -> I (update_content t h s d)) ->
  I (db st) -> I (db (snd (handle E req st))).
Proof.
  intros Ha His Hus Hds Hip Hup Hdp Hc.
  refine (@handle_keeps _ (fun d d' => I d -> I d') _ _ _ _ _ _ _ _ _ E req st _);
    solve [eauto | intros d H; exact H | intros a b c Hab Hbc H; auto].
Qed.

End Statements.

(** The handlers unfolded down to their statements. *)
Ltac handlers :=
  unfold handle, run, dispatch;
  cbv beta delta
    [post_login post_logout get_me get_public_content get_admin_content
     put_admin_content get_admin_skills post_admin_skills put_admin_skill
     delete_admin_skill get_admin_projects post_admin_projects
     put_admin_project delete_admin_project requireAuth list_projects project_arguments];
  monad.

(** One goal for each path through the handler. *)
Ltac paths :=
  lazy zeta; cbv beta iota;
  repeat (case_match; simplify_eq; cbn [fst snd status json status_json uncaught] in * ).

(** The statements that ran on a path, each replaced by the data it left. *)
Ltac statements :=
  repeat match goal with
  | H : insert_skill _ _ _ _ = Some _ |- _ =>
      apply insert_skill_Some in H; destruct H as (? & ? & ? & ? & ? & ?)
  | H : update_skill _ _ _ _ _ = Some _ |- _ =>
      apply update_skill_Some in H; destruct H as [(? & ?)|(? & ? & ? & ? & ?)]
  | H : insert_project _ _ _ _ _ _ _ _ = Some _ |- _ =>
      apply insert_project_Some in H; destruct H as (? & ? & ? & ?)
  | H : update_project _ _ _ _ _ _ _ _ _ = Some _ |- _ =>
      apply update_project_Some in H; destruct H as [(? & ?)|(? & ? & ?)]
  | H : _ <$> _ = Some _ |- _ => apply fmap_Some in H; destruct H as (? & ? & ?)
  end; simplify_eq.


Section Steps.
Context {RT : Runtime}.

(** *** Lists of rows *)


Lemma Forall_map_if {A} (P : A -> Prop) (f : A -> bool) (g : A -> A) l :
  (forall r, P (g r)) -> Forall P l -> Forall P (List.map (fun r => if f r then g r else r) l).
Proof.
  intros Hg Hl. apply Forall_forall. intros r' Hr'.
  apply list_elem_of_fmap in Hr' as (r & -> & Hr).
  destruct (f r); [apply Hg|exact (proj1 (Forall_forall _ _) Hl r Hr)].
Qed.

Lemma Forall_List_filter {A} (P : A -> Prop) (f : A -> bool) l :
  Forall P l -> Forall P (List.filter f l).
Proof.
  intros Hl. apply Forall_forall. intros r Hr.
  apply list_elem_of_In, filter_In in Hr as [Hr _].
  exact (proj1 (Forall_forall _ _) Hl r (proj2 (list_elem_of_In _ _) Hr)).
Qed.

Lemma sublist_List_filter {A} (f : A -> bool) (l : list A) :
  sublist (List.filter f l) l.
Proof.
  induction l as [ | x l IH ]; cbn; [constructor|].
  destruct (f x); [apply sublist_skip|apply sublist_cons]; exact IH.
Qed.

Lemma delete_filter_key {A} (key : A -> Z) (z : Z) (l : list A) :
  NoDup (List.map key l) ->
  (length l <= S (length (List.filter (fun r => negb (key r =? z)%Z) l)))%nat.
Proof.
  induction l as [ | r l IH ]; cbn; [lia|]. intros H.
  apply NoDup_cons in H as [Hr Hl]. destruct (key r =? z) eqn:Hk; cbn.
  - apply Z.eqb_eq in Hk. rewrite filter_all; [lia|].
    apply Forall_forall. intros r' Hr'. apply negb_true_iff, Z.eqb_neq.
    intros Heq. apply Hr. apply list_elem_of_fmap. exists r'. split; [congruence|exact Hr'].
  - specialize (IH Hl). lia.
Qed.

Lemma delete_filter_id {A} (key : A -> Z) (id : float) (l : list A) :
  NoDup (List.map key l) ->
  (length l <= S (length (List.filter (fun r => negb (id_is id (key r))) l)))%nat.
Proof.
  intros H. unfold id_is. destruct (float_to_Z id) as [z|].
  - apply delete_filter_key, H.
  - rewrite filter_all; [lia|]. apply Forall_forall. intros; reflexivity.
Qed.

Lemma NoDup_new_rowid ids : NoDup ids -> NoDup (ids ++ [new_rowid ids]).
Proof.
  intros H. apply NoDup_app. split; [exact H|]. split; [|apply NoDup_singleton].
  intros i Hi Hnew. apply list_elem_of_singleton in Hnew. subst i.
  apply new_rowid_above in Hi. lia.
Qed.

Lemma NoDup_map_filter {A} (key : A -> Z) (f : A -> bool) l :
  NoDup (List.map key l) -> NoDup (List.map key (List.filter f l)).
Proof.
  induction l as [ | x l IH ]; cbn; [auto|]. intros H.
  apply NoDup_cons in H as [Hx Hl]. destruct (f x); cbn; [|auto].
  apply NoDup_cons. split; [|auto]. intros Hin. apply Hx.
  apply list_elem_of_fmap in Hin as (y & Hy & Hin). apply list_elem_of_fmap.
  exists y. split; [exact Hy|]. apply list_elem_of_In, filter_In in Hin as [Hin _].
  apply list_elem_of_In, Hin.
Qed.

Lemma find_app_None {A} (f : A -> bool) l k :
  List.find f l = None -> List.find f (l ++ k) = List.find f k.
Proof.
  induction l as [ | x l IH ]; cbn; [reflexivity|].
  destruct (f x); [discriminate|exact IH].
Qed.

(** *** The handlers that answered *)






Lemma skill_handlers_read_percent E req1 req2 st b1 b2 :
  cookie req1 = cookie req2 ->
  (target req1 = PostAdminSkills b1 /\ target req2 = PostAdminSkills b2)
  \/ (exists param, target req1 = PutAdminSkill param b1
                    /\ target req2 = PutAdminSkill param b2) ->
  get_prop (js_or b1 (JObj [])) (lit "label") = get_prop (js_or b2 (JObj [])) (lit "label") ->
  get_prop (js_or b1 (JObj [])) (lit "sort") = get_prop (js_or b2 (JObj [])) (lit "sort") ->
  ToNumber (get_prop (js_or b1 (JObj [])) (lit "percent"))
  = ToNumber (get_prop (js_or b2 (JObj [])) (lit "percent")) ->
  handle E req1 st = handle E req2 st.
Proof.
  intros Hc Ht Hl Hs Hp. handlers.
  destruct Ht as [[-> ->]|(param & -> & ->)];
    lazy zeta; unfold session_user_of; rewrite Hc, Hl, Hs, Hp; reflexivity.
Qed.

Lemma projects_after_request E req st :
  (forall body, target req <> PostAdminProjects body) ->
  (forall param body, target req <> PutAdminProject param body) ->
  (forall param, target req <> DeleteAdminProject param) ->
  projects (db (snd (handle E req st))) = projects (db st).
Proof.
  handlers. destruct (target req) eqn:Ht; intros Hpost Hput Hdel;
    try (exfalso; solve [eapply Hpost; reflexivity | eapply Hput; reflexivity
                        | eapply Hdel; reflexivity]).
  all: paths; statements; reflexivity.
Qed.

Lemma users_after_request E req st :
  users (db (snd (handle E req st))) = users (db st).
Proof.
  apply (handle_invariant (fun d => users d = users (db st)));
    try reflexivity; try (intros; assumption).
  - intros l p s d id d' H Hd. apply insert_skill_Some in H as (? & _ & _ & _ & _ & ->).
    exact Hd.
  - intros l p s id d d' H Hd.
    apply update_skill_Some in H as [(_ & ->)|(? & _ & _ & _ & ->)]; exact Hd.
  - intros t a b c l f s d id d' H Hd. apply insert_project_Some in H as (? & _ & _ & ->).
    exact Hd.
  - intros t a b c l f s id d d' H Hd.
    apply update_project_Some in H as [(_ & ->)|(? & _ & ->)]; exact Hd.
Qed.

Lemma serve_all_users requests st :
  users (db (serve_all requests st)) = users (db st).
Proof.
  unfold serve_all. revert st.
  induction requests as [ | [E req] requests IH ]; intros st; [reflexivity|].
  cbn [fold_left fst snd]. rewrite IH. apply users_after_request.
Qed.

Lemma serve_all_singleton requests st :
  content_singleton (db st) -> content_singleton (db (serve_all requests st)).
Proof.
  unfold serve_all. revert st.
  induction requests as [ | [E req] requests IH ]; intros st H; [exact H|].
  cbn [fold_left fst snd]. apply IH. apply handle_singleton, H.
Qed.

(** *** The admin user *)

Lemma select_user_users d d' name :
  users d' = users d -> select_user d' name = select_user d name.
Proof. unfold select_user. intros ->. reflexivity. Qed.

Lemma select_user_Some d name row :
  select_user d name = Some row -> row ∈ users d /\ username row = name.
Proof.
  unfold select_user. intros H. apply find_some in H as [Hin Heq].
  split; [apply list_elem_of_In, Hin|].
  unfold eqs in Heq. apply bool_decide_eq_true in Heq. exact Heq.
Qed.

Lemma select_user_by_Some d v row :
  select_user_by d v = Some (Some row) -> row ∈ users d.
Proof.
  unfold select_user_by. intros H.
  destruct v; try (destruct (bind_text _) as [[name|]|]; cbn in H; try discriminate H);
    injection H as H; apply select_user_Some in H as [H _]; exact H.
Qed.

Lemma ensureAdminUser_seeds pe t d password :
  select_user d (ADMIN_USERNAME pe) = None ->
  ADMIN_PASSWORD pe = Some password ->
  let row := {| user_id := new_rowid (List.map user_id (users d));
                username := ADMIN_USERNAME pe;
                password_hash := hashSync password 12;
                role := lit "admin";
                user_created_at := t |} in
  users (ensureAdminUser pe t d) = users d ++ [row]
  /\ select_user (ensureAdminUser pe t d) (ADMIN_USERNAME pe) = Some row.
Proof.
  intros Hnone Hpw row. unfold ensureAdminUser, insert_user. rewrite Hnone, Hpw.
  cbn. split; [reflexivity|]. unfold select_user in *. cbn.
  rewrite find_app_None by exact Hnone. cbn. unfold eqs.
  rewrite bool_decide_eq_true_2 by reflexivity. reflexivity.
Qed.

Lemma boot_has_the_admin pe t d :
  is_Some (select_user (db (boot pe t d)) (ADMIN_USERNAME pe)) \/ ADMIN_PASSWORD pe = None.
Proof.
  unfold boot. cbn [db].
  destruct (select_user (Db.open t d) (ADMIN_USERNAME pe)) as [row|] eqn:Hsel.
  - left. unfold ensureAdminUser. rewrite Hsel, Hsel. eauto.
  - destruct (ADMIN_PASSWORD pe) as [password|] eqn:Hpw; [left|right; reflexivity].
    destruct (ensureAdminUser_seeds pe t _ password Hsel Hpw) as [_ ->]. eauto.
Qed.

(** *** Stored links *)

Lemma stored_links_are_read (links : jsval) :
  JSON.lexable links ->
  is_Some (JSON.parse
             (match JSON.stringify (if isArray links then links else JArr []) with
              | [] => lit "[]"
              | text => text
              end)).
Proof.
  intros Hlex. destruct links; cbn [isArray]; try (eexists; reflexivity).
  change (JSON.stringify (JArr items))
    with (0x5B%N :: JSON.join_comma (List.map JSON.serialize items) ++ [0x5D%N]).
  cbv iota.
  change (0x5B%N :: JSON.join_comma (List.map JSON.serialize items) ++ [0x5D%N])
    with (JSON.stringify (JArr items)).
  rewrite parse_stringify_echo by exact Hlex. eauto.
Qed.

Lemma lexable_default v d : JSON.lexable v -> JSON.lexable d -> JSON.lexable (or_default v d).
Proof. destruct v; auto. Qed.

(** *** Trimmed text *)

Lemma trimStart_head s :
  match trimStart s with [] => True | c :: _ => is_space c = false end.
Proof.
  induction s as [ | c s IH ]; cbn [trimStart]; [exact I|].
  destruct (is_space c) eqn:Hc; [exact IH|exact Hc].
Qed.

Lemma trimStart_snoc s c :
  is_space c = false -> trimStart (s ++ [c]) = trimStart s ++ [c].
Proof.
  intros Hc. induction s as [ | x s IH ]; cbn [trimStart app].
  - rewrite Hc. reflexivity.
  - destruct (is_space x); [exact IH|reflexivity].
Qed.

Lemma trim_trimmed s : trimmed (trim s).
Proof.
  unfold trimmed, trim, trimEnd. rewrite rev_involutive.
  pose proof (trimStart_head s) as Hhead.
  destruct (trimStart s) as [ | c a ]; [split; exact I|].
  cbn [rev]. rewrite trimStart_snoc by exact Hhead.
  rewrite rev_app_distr. cbn [rev app]. split; [exact Hhead|].
  pose proof (trimStart_head (rev a)) as Hlast.
  destruct (trimStart (rev a)); [exact Hhead|exact Hlast].
Qed.

Lemma trimmed_audit t a b c r m d :
  texts_trimmed d -> texts_trimmed (insert_audit t a b c r m d).
Proof. intros H. exact H. Qed.

Lemma trimmed_insert_skill l p s d id d' :
  insert_skill l p s d = Some (id, d') -> trimmed l -> texts_trimmed d -> texts_trimmed d'.
Proof.
  intros H Hl (Hs & Hp & Hc). apply insert_skill_Some in H as (? & _ & _ & _ & _ & ->).
  repeat split; cbn; try assumption. apply Forall_app. split; [exact Hs|].
  constructor; [apply trimmed_as_text, Hl|constructor].
Qed.

Lemma trimmed_update_skill l p s id d d' :
  update_skill l p s id d = Some d' -> trimmed l -> texts_trimmed d -> texts_trimmed d'.
Proof.
  intros H Hl (Hs & Hp & Hc).
  apply update_skill_Some in H as [(_ & ->)|(? & _ & _ & _ & ->)];
    [repeat split; assumption|].
  repeat split; cbn; try assumption.
  apply Forall_map_if; [intros r; apply trimmed_as_text, Hl|exact Hs].
Qed.

Lemma trimmed_delete_skill id d : texts_trimmed d -> texts_trimmed (delete_skill id d).
Proof.
  intros (Hs & Hp & Hc). repeat split; cbn; try assumption. apply Forall_List_filter, Hs.
Qed.

Lemma trimmed_insert_project t a b c l f s d id d' :
  insert_project t a b c l f s d = Some (id, d') ->
  trimmed a -> trimmed b -> trimmed c -> texts_trimmed d -> texts_trimmed d'.
Proof.
  intros H Ha Hb Hc' (Hs & Hp & Hc). apply insert_project_Some in H as (? & _ & _ & ->).
  repeat split; cbn; try assumption. apply Forall_app. split; [exact Hp|].
  constructor; [repeat split; apply trimmed_as_text; assumption|constructor].
Qed.

Lemma trimmed_update_project t a b c l f s id d d' :
  update_project t a b c l f s id d = Some d' ->
  trimmed a -> trimmed b -> trimmed c -> texts_trimmed d -> texts_trimmed d'.
Proof.
  intros H Ha Hb Hc' (Hs & Hp & Hc).
  apply update_project_Some in H as [(_ & ->)|(? & _ & ->)];
    [repeat split; assumption|].
  repeat split; cbn; try assumption.
  apply Forall_map_if;
    [intros r; cbn; repeat split; apply trimmed_as_text; assumption|exact Hp].
Qed.

Lemma trimmed_delete_project id d : texts_trimmed d -> texts_trimmed (delete_project id d).
Proof.
  intros (Hs & Hp & Hc). repeat split; cbn; try assumption. apply Forall_List_filter, Hp.
Qed.

Lemma trimmed_update_content t h s d :
  trimmed h -> trimmed s -> texts_trimmed d -> texts_trimmed (update_content t h s d).
Proof.
  intros Hh Hs' (Hs & Hp & Hc). repeat split; cbn; try assumption.
  apply (Forall_map_if _ (fun c => content_id c =? 1));
    [intros r; cbn; repeat split; apply trimmed_as_text; assumption|exact Hc].
Qed.

End Steps.

End Paths.

(** ** The replacement of markup characters *)

Module Markup.
Import Page.
Local Open Scope N_scope.

Lemma markup_entity_Some c e :
  markup_entity c = Some e ->
  exists name,
    e = 0x26 :: name
    /\ name ∈ [lit "amp;"; lit "lt;"; lit "gt;"; lit "quot;"; lit "#039;"]
    /\ Forall (fun x => x <> 0x26) name
    /\ Forall inert e.
Proof.
  unfold markup_entity, inert. intros H.
  repeat match type of H with
  | (if ?b then _ else _) = _ => destruct b
  end; try discriminate H; injection H as <-; eexists; (split; [reflexivity|]);
    (split; [set_solver|]); split; repeat constructor; discriminate.
Qed.

Lemma markup_entity_None c :
  markup_entity c = None -> c <> 0x26 /\ inert c.
Proof.
  unfold markup_entity, inert. intros H.
  destruct (N.eqb_spec c 0x26); [discriminate H|].
  destruct (N.eqb_spec c 0x3C); [discriminate H|].
  destruct (N.eqb_spec c 0x3E); [discriminate H|].
  destruct (N.eqb_spec c 0x22); [discriminate H|].
  destruct (N.eqb_spec c 0x27); [discriminate H|]. auto.
Qed.

Lemma replace_markup_inert text : Forall inert (replace_markup text).
Proof.
  induction text as [ | c text IH ]; [constructor|]. cbn [replace_markup].
  apply Forall_app. split; [|exact IH].
  destruct (markup_entity c) as [e|] eqn:He; cbn.
  - apply markup_entity_Some in He as (name & _ & _ & _ & He). exact He.
  - apply markup_entity_None in He as [_ He]. constructor; [exact He|constructor].
Qed.

Lemma split_behind (clean before after tail : jsstring) :
  Forall (fun x => x <> 0x26) clean ->
  before ++ 0x26 :: after = clean ++ tail ->
  exists before', before = clean ++ before' /\ before' ++ 0x26 :: after = tail.
Proof.
  revert before. induction clean as [ | x clean IH ]; intros before Hclean H.
  - exists before. split; [reflexivity|exact H].
  - apply Forall_cons in Hclean as [Hx Hclean].
    destruct before as [ | b before ]; cbn in H.
    + injection H as H _. congruence.
    + injection H as -> H. destruct (IH before Hclean H) as (before' & -> & H').
      exists before'. split; [reflexivity|exact H'].
Qed.

Lemma replace_markup_ampersand text before after :
  replace_markup text = before ++ 0x26 :: after ->
  exists name,
    name ∈ [lit "amp;"; lit "lt;"; lit "gt;"; lit "quot;"; lit "#039;"]
    /\ name `prefix_of` after.
Proof.
  revert before. induction text as [ | c text IH ]; intros before H.
  - destruct before; discriminate H.
  - cbn [replace_markup] in H. destruct (markup_entity c) as [e|] eqn:He; cbn in H.
    + apply markup_entity_Some in He as (name & -> & Hname & Hclean & _).
      destruct before as [ | b before ]; cbn in H.
      * injection H as <-. exists name. split; [exact Hname|]. eexists. reflexivity.
      * injection H as <- H. symmetry in H.
        destruct (split_behind _ _ _ _ Hclean H) as (before' & _ & H').
        symmetry in H'. eapply IH, H'.
    + apply markup_entity_None in He as [Hc _].
      destruct before as [ | b before ]; cbn in H.
      * injection H as H _. congruence.
      * injection H as _ H. eapply IH, H.
Qed.

Lemma replaced_unit_inj c c' tail tail' :
  default [c] (markup_entity c) ++ tail = default [c'] (markup_entity c') ++ tail' ->
  c = c' /\ tail = tail'.
Proof.
  unfold markup_entity.
  repeat match goal with
  | |- context [if (?x =? ?k) then _ else _] => destruct (N.eqb_spec x k)
  end; subst; intros H; vm_compute in H; try discriminate H;
    injection H; intros; subst; solve [auto|congruence].
Qed.

Lemma replace_markup_inj text text' :
  replace_markup text = replace_markup text' -> text = text'.
Proof.
  revert text'. induction text as [ | c text IH ]; intros [ | c' text' ] H.
  - reflexivity.
  - exfalso. cbn [replace_markup] in H.
    destruct (markup_entity c') as [e|] eqn:He;
      [apply markup_entity_Some in He as (? & -> & _)|]; discriminate H.
  - exfalso. cbn [replace_markup] in H.
    destruct (markup_entity c) as [e|] eqn:He;
      [apply markup_entity_Some in He as (? & -> & _)|]; discriminate H.
  - cbn [replace_markup] in H. apply replaced_unit_inj in H as [-> H].
    f_equal. apply IH, H.
Qed.

Lemma replace_markup_plain text :
  Forall (fun c => markup_entity c = None) text -> replace_markup text = text.
Proof.
  induction 1 as [ | c text Hc _ IH ]; [reflexivity|].
  cbn [replace_markup]. rewrite Hc, IH. reflexivity.
Qed.

End Markup.

(** ** The responses [api] is given *)

Module Responses.
Import Page.

Section Api.
Context {RT : Runtime}.

Lemma api_on_error_response code message :
  (200 <=? code) && (code <=? 299) = false ->
  message <> [] ->
  api {| res_status := code;
         res_text := JSON.stringify (JObj [(lit "error", JStr message)]) |}
  = ThrownError message.
Proof.
  intros Hcode Hne. unfold api, res_ok. cbn [res_status res_text]. rewrite Hcode.
  rewrite JSONFacts.parse_stringify.
  - destruct message; [congruence|reflexivity].
  - constructor.
    + cbn. apply NoDup_singleton.
    + repeat constructor.
    + repeat constructor.
Qed.

End Api.

End Responses.

(** ** Further properties of the server and of the admin page *)

Import Page EchoFacts Paths Markup Responses.

Section Coverage.
Context {RT : Runtime}.

(** X1.  A login with the name of a stored user and a password the comparison
    accepts answers [{ ok: true, user }] with the name and role of the row,
    stores that user under the session of the request, appends the audit
    entry (login, auth) and changes nothing else; /api/me, asked with the
    cookie of that session, then returns the user. *)
Theorem login_opens_session E E' req st body row :
  target req = PostLogin body ->
  select_user_by (db st) (get_prop (js_or body (JObj [])) (lit "username"))
  = Some (Some row) ->
  compareSync (get_prop (js_or body (JObj [])) (lit "password")) (password_hash row)
  = Some true ->
  let user := {| su_username := username row; su_role := role row |} in
  let st' := snd (handle E req st) in
  fst (handle E req st) = json (OkUser user)
  /\ sessions st' = <[session_id E req st := user]> (sessions st)
  /\ db st' = insert_audit (now E) (username row) (lit "login") (lit "auth") NoEntity
                (lit "{}") (db st)
  /\ handle E' {| cookie := Some (session_id E req st); target := GetMe |} st'
     = (json (Me (Some user)), st').
Proof.
  intros Ht Hrow Hcmp user st'.
  assert (handle E req st
          = (json (OkUser user),
             {| db := insert_audit (now E) (username row) (lit "login") (lit "auth")
                        NoEntity (lit "{}") (db st);
                sessions := <[session_id E req st := user]> (sessions st) |})) as Hrun.
  { unfold handle, dispatch. rewrite Ht. unfold post_login. lazy zeta. monad.
    rewrite Hrow. cbv beta iota. rewrite Hcmp. reflexivity. }
  subst st'. rewrite Hrun. cbn [fst snd sessions db].
  repeat split.
  unfold handle, dispatch, get_me. cbn [target]. monad.
  unfold session_user_of. cbn [cookie sessions mbind option_bind].
  rewrite lookup_insert_eq. reflexivity.
Qed.

(** X2.  A logout with a valid session answers [{ ok: true }], removes that
    session from the store and no other, and appends the audit entry
    (logout, auth) under the name the session held. *)
Theorem logout_ends_one_session E req st c u :
  target req = PostLogout ->
  cookie req = Some c ->
  sessions st !! c = Some u ->
  let st' := snd (handle E req st) in
  fst (handle E req st) = json Ok
  /\ sessions st' = delete c (sessions st)
  /\ (forall c', c' <> c -> sessions st' !! c' = sessions st !! c')
  /\ db st' = insert_audit (now E) (su_username u) (lit "logout") (lit "auth") NoEntity
                (lit "{}") (db st).
Proof.
  intros Ht Hc Hu st'.
  assert (handle E req st
          = (json Ok,
             {| db := insert_audit (now E) (su_username u) (lit "logout") (lit "auth")
                        NoEntity (lit "{}") (db st);
                sessions := delete c (sessions st) |})) as Hrun.
  { unfold handle, dispatch. rewrite Ht. unfold post_logout, run.
    rewrite (requireAuth_pass _ _ _ u) by (unfold session_user_of; rewrite Hc; exact Hu).
    monad. unfold session_user_of. rewrite Hc. cbn. rewrite Hu. reflexivity. }
  subst st'. rewrite Hrun. cbn [fst snd sessions db]. repeat split.
  intros c' Hne. apply lookup_delete_ne. congruence.
Qed.

(** X3.  No route other than the login and the logout touches the session
    store. *)
Theorem sessions_change_at_login_and_logout_only E req st :
  (forall body, target req <> PostLogin body) -> target req <> PostLogout ->
  sessions (snd (handle E req st)) = sessions st.
Proof.
  handlers. destruct (target req) eqn:Ht; intros Hin Hout;
    try (exfalso; solve [eapply Hin; reflexivity | apply Hout; reflexivity]).
  all: paths; reflexivity.
Qed.

(** X4.  No request changes the users table, whatever its route, body and
    session: accounts are made at the start of the process only. *)
Theorem users_table_is_frozen :
  (forall E req st, users (db (snd (handle E req st))) = users (db st))
  /\ (forall requests st, users (db (serve_all requests st)) = users (db st)).
Proof.
  split; [intros E req st; apply users_after_request|].
  intros requests st. apply serve_all_users.
Qed.

(** X5.  The audit log only grows: a request leaves every entry as it was and
    appends at most one, stamped with the time of the request and numbered
    with the next row id. *)
Theorem audit_log_only_grows E req st :
  exists entries,
    audit_log (db (snd (handle E req st))) = audit_log (db st) ++ entries
    /\ (length entries <= 1)%nat
    /\ Forall (fun r => audit_created_at r = now E
                        /\ audit_id r = new_rowid (List.map audit_id (audit_log (db st))))
         entries.
Proof.
  handlers. destruct (target req) eqn:Ht.
  all: paths; statements.
  all: cbn [db sessions audit_log insert_audit update_content delete_skill delete_project].
  all: try (exists []; rewrite app_nil_r; split; [reflexivity|split; [cbn; lia|constructor]]).
  all: try (eexists [_]; split; [reflexivity|split; [cbn; lia|repeat constructor]]).
Qed.

(** X6.  A request that is not answered with status 200 has changed nothing,
    neither in a table nor in the session store: every check of a handler and
    every call that can raise comes before its first write. *)
Theorem failed_requests_change_nothing E req st :
  status (fst (handle E req st)) <> 200 -> snd (handle E req st) = st.
Proof.
  handlers. destruct (target req) eqn:Ht.
  all: paths.
  all: try reflexivity.
  all: try (let Hne := fresh in intros Hne; exfalso; apply Hne; reflexivity).
  all: unfold session_user_of in *; cbn [db sessions] in *; congruence.
Qed.

(** X7.  Every change made by a logged-in client is recorded: when a route that
    writes answers 200, the audit log has grown by exactly one entry, with
    the user name of the session as actor, the action and entity of the
    route, and the time of the request. *)
Theorem mutations_are_audited E req st u a e :
  audited (target req) = Some (a, e) ->
  (forall body, target req <> PostLogin body) ->
  session_user_of req st = Some u ->
  status (fst (handle E req st)) = 200 ->
  exists row,
    audit_log (db (snd (handle E req st))) = audit_log (db st) ++ [row]
    /\ actor row = su_username u
    /\ action row = lit a
    /\ entity row = lit e
    /\ audit_created_at row = now E.
Proof.
  handlers. destruct (target req) eqn:Ht; intros Ha Hlogin Hu;
    try discriminate Ha; try (exfalso; eapply Hlogin; reflexivity).
  all: injection Ha as <- <-.
  all: paths; statements.
  all: try (let H := fresh in intros H; discriminate H).
  all: unfold session_user_of in *; cbn [db sessions] in *; simplify_eq.
  all: intros _; eexists; cbn; repeat split; reflexivity.
Qed.

(** X8.  The five GET routes change nothing, also when they fail. *)
Theorem reads_change_nothing E req st :
  is_read (target req) = true -> snd (handle E req st) = st.
Proof.
  handlers. destruct (target req); try discriminate; intros _; paths; reflexivity.
Qed.

(** X9.  The percent of every stored skill stays within 0 and 100 across every
    request. *)
Theorem percents_stay_in_range E req st :
  percents_in_range (db st) -> percents_in_range (db (snd (handle E req st))).
Proof.
  apply (handle_invariant percents_in_range); unfold percents_in_range;
    try (intros; assumption).
  - intros l p s d id d' H Hd. apply insert_skill_Some in H as (kept & _ & _ & Hp & _ & ->).
    cbn [skills]. apply Forall_app. split; [exact Hd|]. constructor; [exact Hp|constructor].
  - intros l p s id d d' H Hd.
    apply update_skill_Some in H as [(_ & ->)|(kept & _ & _ & Hp & ->)]; [exact Hd|].
    cbn [skills]. apply Forall_map_if; [intros r; exact Hp|exact Hd].
  - intros id d Hd. cbn. apply Forall_forall. intros r Hr.
    apply list_elem_of_In, filter_In in Hr as [Hr _]. apply list_elem_of_In in Hr.
    exact (proj1 (Forall_forall _ _) Hd r Hr).
  - intros t a b c l f s d id d' H Hd. apply insert_project_Some in H as (kept & _ & _ & ->).
    exact Hd.
  - intros t a b c l f s id d d' H Hd.
    apply update_project_Some in H as [(_ & ->)|(kept & _ & ->)]; exact Hd.
Qed.

(** X10.  Row ids stay unique in the users, skills, projects and audit tables,
    across the start of the process and across every request. *)
Theorem row_ids_stay_unique :
  (forall pe t d, keys_unique d -> keys_unique (db (boot pe t d)))
  /\ (forall E req st, keys_unique (db st) -> keys_unique (db (snd (handle E req st)))).
Proof.
  split.
  - intros pe t d (Hu & Hs & Hp & Ha). unfold boot. cbn [db].
    assert (keys_unique (Db.open t d)) as (Hu' & Hs' & Hp' & Ha').
    { unfold Db.open. destruct (select_content d); repeat split; assumption. }
    unfold ensureAdminUser. destruct (select_user _ _) eqn:Hsel; [repeat split; assumption|].
    destruct (ADMIN_PASSWORD pe); [|repeat split; assumption].
    unfold insert_user. rewrite Hsel. cbn. repeat split; cbn; try assumption.
    rewrite map_app. cbn. apply NoDup_new_rowid, Hu'.
  - intros E req st. apply (handle_invariant keys_unique); unfold keys_unique.
    + intros t a b c r m d (Hu & Hs & Hp & Ha). cbn. repeat split; try assumption.
      rewrite map_app. cbn. apply NoDup_new_rowid, Ha.
    + intros l p s d id d' H (Hu & Hs & Hp & Ha).
      apply insert_skill_Some in H as (kept & _ & _ & _ & -> & ->).
      cbn. repeat split; try assumption. rewrite map_app. cbn. apply NoDup_new_rowid, Hs.
    + intros l p s id d d' H (Hu & Hs & Hp & Ha).
      apply update_skill_Some in H as [(_ & ->)|(kept & _ & _ & _ & ->)];
        [repeat split; assumption|].
      cbn. repeat split; try assumption.
      rewrite map_map. erewrite map_ext; [exact Hs|].
      intros r. cbn. destruct (id_is id (skill_id r)); reflexivity.
    + intros id d (Hu & Hs & Hp & Ha). cbn. repeat split; try assumption.
      apply NoDup_map_filter, Hs.
    + intros t a b c l f s d id d' H (Hu & Hs & Hp & Ha).
      apply insert_project_Some in H as (kept & _ & -> & ->).
      cbn. repeat split; try assumption. rewrite map_app. cbn. apply NoDup_new_rowid, Hp.
    + intros t a b c l f s id d d' H (Hu & Hs & Hp & Ha).
      apply update_project_Some in H as [(_ & ->)|(kept & _ & ->)];
        [repeat split; assumption|].
      cbn. repeat split; try assumption.
      rewrite map_map. erewrite map_ext; [exact Hp|].
      intros r. cbn. destruct (id_is id (project_id r)); reflexivity.
    + intros id d (Hu & Hs & Hp & Ha). cbn. repeat split; try assumption.
      apply NoDup_map_filter, Hp.
    + intros t h s d (Hu & Hs & Hp & Ha). cbn. repeat split; assumption.
Qed.



(** X13.  Deleting a skill answers [{ ok: true }] and leaves exactly the rows
    whose id is not [Number(:id)], in their order; with unique ids at most
    one row is gone; the projects are untouched, and a second delete of the
    same id removes nothing more. *)
Theorem deleted_skill_is_gone E req st u param :
  session_user_of req st = Some u ->
  target req = DeleteAdminSkill param ->
  let id := StringToNumber param in
  let st' := snd (handle E req st) in
  fst (handle E req st) = json Ok
  /\ (forall r, r ∈ skills (db st') <-> r ∈ skills (db st) /\ id_is id (skill_id r) = false)
  /\ sublist (skills (db st')) (skills (db st))
  /\ (NoDup (List.map skill_id (skills (db st))) ->
      (length (skills (db st)) <= S (length (skills (db st'))))%nat)
  /\ projects (db st') = projects (db st)
  /\ skills (db (snd (handle E req st'))) = skills (db st').
Proof.
  intros Hu Ht id st'.
  assert (forall E0 s, session_user_of req s = Some u ->
            handle E0 req s
            = (json Ok,
               {| db := insert_audit (now E0) (su_username u) (lit "delete") (lit "skill")
                          (EntityParam id) (lit "{}") (delete_skill id (db s));
                  sessions := sessions s |})) as Hrun.
  { intros E0 s Hs. unfold handle, dispatch. rewrite Ht. unfold delete_admin_skill, run.
    rewrite (requireAuth_pass _ _ _ u) by assumption. monad.
    cbn [db sessions]. rewrite session_user_of_db, Hs. reflexivity. }
  subst st'. rewrite (Hrun E st Hu). cbn [fst snd].
  rewrite Hrun by exact Hu. cbn [fst snd db skills insert_audit delete_skill projects].
  split; [reflexivity|]. split; [|split; [|split; [|split; [reflexivity|]]]].
  - intros r. rewrite !list_elem_of_In, filter_In, negb_true_iff. reflexivity.
  - apply sublist_List_filter.
  - apply delete_filter_id.
  - apply filter_all. apply Forall_forall. intros r Hr.
    apply list_elem_of_In, filter_In in Hr as [_ Hr]. exact Hr.
Qed.



(** X16.  Deleting a project answers [{ ok: true }], leaves exactly the rows
    whose id is not [Number(:id)], in their order, leaves the skills, and
    appends one audit entry (delete, project) with that id. *)
Theorem deleted_project_is_gone E req st u param :
  session_user_of req st = Some u ->
  target req = DeleteAdminProject param ->
  let id := StringToNumber param in
  let st' := snd (handle E req st) in
  fst (handle E req st) = json Ok
  /\ (forall r, r ∈ projects (db st')
                <-> r ∈ projects (db st) /\ id_is id (project_id r) = false)
  /\ sublist (projects (db st')) (projects (db st))
  /\ skills (db st') = skills (db st)
  /\ audit_log (db st')
     = audit_log (db st)
       ++ [ {| audit_id := new_rowid (List.map audit_id (audit_log (db st)));
               actor := su_username u;
               action := lit "delete";
               entity := lit "project";
               entity_id := EntityParam id;
               meta_json := lit "{}";
               audit_created_at := now E |} ].
Proof.
  intros Hu Ht id st'.
  assert (handle E req st
          = (json Ok,
             {| db := insert_audit (now E) (su_username u) (lit "delete") (lit "project")
                        (EntityParam id) (lit "{}") (delete_project id (db st));
                sessions := sessions st |})) as Hrun.
  { unfold handle, dispatch. rewrite Ht. unfold delete_admin_project, run.
    rewrite (requireAuth_pass _ _ _ u) by assumption. monad.
    cbn [db sessions]. rewrite session_user_of_db, Hu. reflexivity. }
  subst st'. rewrite Hrun. cbn [fst snd db skills insert_audit delete_project projects audit_log].
  split; [reflexivity|]. split; [|split; [|split; reflexivity]].
  - intros r. rewrite !list_elem_of_In, filter_In, negb_true_iff. reflexivity.
  - clear. induction (projects (db st)) as [ | x l IH ]; cbn; [constructor|].
    destruct (negb _); [apply sublist_skip|apply sublist_cons]; exact IH.
Qed.

(** X17.  Starting the process again on the data it left changes nothing in the
    data: the content row is not seeded twice, and the admin user is neither
    duplicated nor given the password of the new environment. *)
Theorem restart_keeps_the_data pe pe' t t' d requests :
  content_schema d ->
  ADMIN_USERNAME pe' = ADMIN_USERNAME pe ->
  (ADMIN_PASSWORD pe = None -> ADMIN_PASSWORD pe' = None) ->
  let st := serve_all requests (boot pe t d) in
  db (boot pe' t' (db st)) = db st.
Proof.
  intros Hschema Hname Hpw st. unfold boot at 1. cbn [db].
  assert (Db.open t' (db st) = db st) as ->.
  { destruct (serve_all_singleton requests (boot pe t d)) as (row & Hrow & Hid);
      [apply boot_singleton, Hschema|].
    fold st in Hrow. unfold Db.open, select_content. rewrite Hrow. cbn. rewrite Hid.
    reflexivity. }
  unfold ensureAdminUser. rewrite Hname.
  rewrite (select_user_users (boot pe t d).(db) (db st)) by apply serve_all_users.
  destruct (boot_has_the_admin pe t d) as [[row ->]| Hnone]; [reflexivity|].
  rewrite (Hpw Hnone). destruct (select_user _ _); reflexivity.
Qed.

(** X18.  When no user has the admin name and a password is configured, the
    start of the process appends the admin with the hash of that password
    and the role admin; if the library accepts a password against its own
    hash, a login with these credentials then succeeds and opens the only
    session. *)
Theorem seeded_admin_can_log_in pe t d E req password :
  select_user d (ADMIN_USERNAME pe) = None ->
  ADMIN_PASSWORD pe = Some password ->
  compareSync (JStr password) (hashSync password 12) = Some true ->
  target req = PostLogin (JObj [(lit "username", JStr (ADMIN_USERNAME pe));
                                (lit "password", JStr password)]) ->
  let st := boot pe t d in
  let row := {| user_id := new_rowid (List.map user_id (users d));
                username := ADMIN_USERNAME pe;
                password_hash := hashSync password 12;
                role := lit "admin";
                user_created_at := t |} in
  users (db st) = users d ++ [row]
  /\ fst (handle E req st)
     = json (OkUser {| su_username := ADMIN_USERNAME pe; su_role := lit "admin" |})
  /\ sessions (snd (handle E req st))
     = {[ session_id E req st := {| su_username := ADMIN_USERNAME pe;
                                    su_role := lit "admin" |} ]}.
Proof.
  intros Hnone Hpw Hcmp Ht st row.
  assert (select_user (Db.open t d) (ADMIN_USERNAME pe) = None) as Hnone'.
  { rewrite (select_user_users d); [exact Hnone|].
    unfold Db.open. destruct (select_content d); reflexivity. }
  assert (users (Db.open t d) = users d) as Husers
    by (unfold Db.open; destruct (select_content d); reflexivity).
  destruct (ensureAdminUser_seeds pe t _ password Hnone' Hpw) as [Hrows Hsel].
  rewrite Husers in Hrows, Hsel. fold row in Hrows, Hsel.
  split; [exact Hrows|].
  assert (handle E req st
          = (json (OkUser {| su_username := ADMIN_USERNAME pe; su_role := lit "admin" |}),
             {| db := insert_audit (now E) (ADMIN_USERNAME pe) (lit "login") (lit "auth")
                        NoEntity (lit "{}") (db st);
                sessions := <[session_id E req st :=
                                {| su_username := ADMIN_USERNAME pe;
                                   su_role := lit "admin" |}]> (sessions st) |})) as Hrun.
  { unfold handle, dispatch. rewrite Ht. unfold post_login. lazy zeta. monad.
    change (get_prop (js_or (JObj [(lit "username", JStr (ADMIN_USERNAME pe));
                                   (lit "password", JStr password)]) (JObj []))
              (lit "username")) with (JStr (ADMIN_USERNAME pe)).
    change (get_prop (js_or (JObj [(lit "username", JStr (ADMIN_USERNAME pe));
                                   (lit "password", JStr password)]) (JObj []))
              (lit "password")) with (JStr password).
    cbn [select_user_by]. subst st. unfold boot. cbn [db]. rewrite Hsel.
    cbv beta iota. cbn [password_hash row]. rewrite Hcmp. reflexivity. }
  rewrite Hrun. cbn [fst snd sessions]. split; [reflexivity|].
  subst st. unfold boot. cbn [sessions]. reflexivity.
Qed.

(** X19.  Without a configured password a new data file gets no account, and
    every login with a user name is answered 401. *)
Theorem no_password_no_account pe t d E req name password :
  ADMIN_PASSWORD pe = None ->
  users d = [] ->
  target req = PostLogin (JObj [(lit "username", JStr name); (lit "password", password)]) ->
  users (db (boot pe t d)) = []
  /\ handle E req (boot pe t d)
     = (status_json 401 (Error "Invalid credentials"), boot pe t d).
Proof.
  intros Hpw Husers Ht.
  assert (users (db (boot pe t d)) = []) as Hnone.
  { unfold boot, ensureAdminUser. cbn [db]. rewrite Hpw.
    destruct (select_user _ _); unfold Db.open; destruct (select_content d); exact Husers. }
  split; [exact Hnone|].
  unfold handle, dispatch. rewrite Ht. unfold post_login. lazy zeta. monad.
  change (get_prop (js_or (JObj [(lit "username", JStr name); (lit "password", password)])
                      (JObj [])) (lit "username")) with (JStr name).
  cbn [select_user_by]. unfold select_user. rewrite Hnone. reflexivity.
Qed.

(** X20.  The skill handlers read [percent] through [Number] only: two bodies
    with the same label and sort whose percents convert to the same number
    get the same response and leave the same state; so [null] and [false]
    are handled as 0 and [true] as 1. *)
Theorem percent_is_read_through_Number E req1 req2 st b1 b2 :
  cookie req1 = cookie req2 ->
  (target req1 = PostAdminSkills b1 /\ target req2 = PostAdminSkills b2)
  \/ (exists param, target req1 = PutAdminSkill param b1
                    /\ target req2 = PutAdminSkill param b2) ->
  get_prop (js_or b1 (JObj [])) (lit "label") = get_prop (js_or b2 (JObj [])) (lit "label") ->
  get_prop (js_or b1 (JObj [])) (lit "sort") = get_prop (js_or b2 (JObj [])) (lit "sort") ->
  ToNumber (get_prop (js_or b1 (JObj [])) (lit "percent"))
  = ToNumber (get_prop (js_or b2 (JObj [])) (lit "percent")) ->
  handle E req1 st = handle E req2 st.
Proof.
  intros Hc Ht Hl Hs Hp. eapply skill_handlers_read_percent; eassumption.
Qed.

(** X21.  The two skill routes check in different orders: for a body without a
    label whose percent cannot be converted, the creation answers 400 "Label
    required" and the update raises, since it converts the percent first. *)
Theorem skill_checks_run_in_different_order E req st u param body :
  session_user_of req st = Some u ->
  ToBoolean (get_prop (js_or body (JObj [])) (lit "label")) = false ->
  ToNumber (get_prop (js_or body (JObj [])) (lit "percent")) = None ->
  (target req = PostAdminSkills body ->
   handle E req st = (status_json 400 (Error "Label required"), st))
  /\ (target req = PutAdminSkill param body ->
      handle E req st = (uncaught TypeError, st)).
Proof.
  intros Hu Hl Hp. split; intros Ht; unfold handle, dispatch; rewrite Ht.
  - unfold post_admin_skills, run. rewrite (requireAuth_pass _ _ _ u) by assumption.
    lazy zeta. rewrite Hl. reflexivity.
  - unfold put_admin_skill, run. rewrite (requireAuth_pass _ _ _ u) by assumption.
    lazy zeta. monad. rewrite Hp. reflexivity.
Qed.

(** X22.  The server keeps the stored links readable: if every stored link text
    parses and the numbers in the links of the request are written as JSON
    numbers, every stored link text parses after the request, and the public
    content is served. *)
Theorem links_stay_readable E req st :
  projects_readable (db st) ->
  (forall body,
     target req = PostAdminProjects body
     \/ (exists param, target req = PutAdminProject param body) ->
     JSON.lexable (get_prop (js_or body (JObj [])) (lit "links"))) ->
  let st' := snd (handle E req st) in
  projects_readable (db st')
  /\ forall E' pub,
       target pub = GetPublicContent ->
       exists content skills projects,
         handle E' pub st' = (json (Public content skills projects), st').
Proof.
  intros Hread Hlex st'.
  assert (projects_readable (db st')) as Hread'.
  { subst st'. unfold projects_readable in *.
    destruct (target req) eqn:Ht;
      try (rewrite projects_after_request by (intros; congruence); exact Hread).
    - specialize (Hlex body0 (or_introl eq_refl)).
      apply (lexable_default _ (JArr [])) in Hlex; [|exact I].
      handlers. rewrite Ht. paths; statements;
        cbn [db insert_audit projects]; try exact Hread.
      all: apply stored_links_are_read in Hlex.
      all: apply Forall_app; split; [exact Hread|].
      all: constructor; [|constructor].
      all: unfold expand_links; cbn [links_json].
      all: match goal with
           | H : isArray _ = _ |- _ => rewrite H in Hlex
           end.
      all: destruct Hlex as [v ->]; eauto.
    - specialize (Hlex body0 (or_intror (ex_intro _ id eq_refl))).
      apply (lexable_default _ (JArr [])) in Hlex; [|exact I].
      handlers. rewrite Ht. paths; statements;
        cbn [db insert_audit projects]; try exact Hread.
      all: apply stored_links_are_read in Hlex.
      all: apply Forall_forall; intros r' Hr'.
      all: apply list_elem_of_fmap in Hr' as (r & -> & Hr).
      all: pose proof (proj1 (Forall_forall _ _) Hread r Hr) as Hold.
      all: destruct (id_is _ _); [|exact Hold].
      all: unfold expand_links; cbn [links_json].
      all: match goal with
           | H : isArray _ = _ |- _ => rewrite H in Hlex
           end.
      all: destruct Hlex as [v ->]; eauto.
    - handlers. rewrite Ht. paths; cbn [db insert_audit delete_project projects];
        try exact Hread.
      all: apply Forall_forall; intros r Hr.
      all: apply list_elem_of_In, filter_In in Hr as [Hr _].
      all: exact (proj1 (Forall_forall _ _) Hread r (proj2 (list_elem_of_In _ _) Hr)). }
  split; [exact Hread'|].
  intros E' pub Hpub. destruct (list_projects_readable st' Hread') as (views & Hlist & _).
  unfold handle, dispatch. rewrite Hpub. unfold get_public_content, run.
  unfold bind, query. rewrite Hlist. eexists _, _, _. reflexivity.
Qed.

(** X23.  The texts the server stores carry no white space at either end: the
    seed of the content row and every label, title, summary, stack, headline
    and subtitle a request writes are trimmed. *)
Theorem stored_text_is_trimmed :
  (forall pe t d, texts_trimmed d -> texts_trimmed (db (boot pe t d)))
  /\ (forall E req st, texts_trimmed (db st) -> texts_trimmed (db (snd (handle E req st)))).
Proof.
  split.
  - intros pe t d (Hs & Hp & Hc). unfold boot. cbn [db].
    assert (texts_trimmed (Db.open t d)) as Hopen.
    { unfold Db.open. destruct (select_content d); [repeat split; assumption|].
      repeat split; cbn; try assumption. apply Forall_app. split; [exact Hc|].
      constructor; [|constructor]. unfold trimmed. vm_compute. auto. }
    unfold ensureAdminUser. destruct (select_user _ _) eqn:Hsel; [exact Hopen|].
    destruct (ADMIN_PASSWORD pe); [|exact Hopen].
    unfold insert_user. rewrite Hsel. exact Hopen.
  - intros E req st Hst. handlers. destruct (target req) eqn:Ht; paths.
    all: cbn [db sessions].
    all: repeat first
           [ assumption
           | apply trimmed_audit
           | apply trimmed_delete_skill
           | apply trimmed_delete_project
           | apply trimmed_update_content
           | apply trim_trimmed
           | eapply trimmed_insert_skill; [eassumption| |]
           | eapply trimmed_insert_project; [eassumption| | | |]
           | match goal with
             | H : _ <$> update_skill _ _ _ _ _ = Some _ |- _ =>
                 apply fmap_Some in H; destruct H as (? & H & ?); simplify_eq;
                 eapply trimmed_update_skill; [exact H| |]
             | H : _ <$> update_project _ _ _ _ _ _ _ _ _ = Some _ |- _ =>
                 apply fmap_Some in H; destruct H as (? & H & ?); simplify_eq;
                 eapply trimmed_update_project; [exact H| | | |]
             end ].
Qed.

(** X24.  The text [escapeHtml] returns holds none of the characters that open
    or close a tag or an attribute value, and every ampersand in it starts
    one of the five entities. *)
Theorem escaped_text_is_inert v out :
  escapeHtml v = Some out ->
  Forall inert out
  /\ forall before after,
       out = before ++ 0x26%N :: after ->
       exists name, name ∈ entity_names /\ name `prefix_of` after.
Proof.
  unfold escapeHtml, entity_names. intros H. apply fmap_Some in H as (text & _ & ->). split.
  - apply replace_markup_inert.
  - intros before after H. eapply replace_markup_ampersand, H.
Qed.

(** X25.  [escapeHtml] loses nothing: two values with the same escaped text have
    the same text, and a text without the five characters is returned as it
    is. *)
Theorem escapeHtml_loses_nothing :
  (forall v w out,
     escapeHtml v = Some out -> escapeHtml w = Some out -> ToString v = ToString w)
  /\ (forall text,
        Forall (fun c => markup_entity c = None) text ->
        escapeHtml (JStr text) = Some text).
Proof.
  unfold escapeHtml. split.
  - intros v w out Hv Hw.
    apply fmap_Some in Hv as (s & -> & ->). apply fmap_Some in Hw as (t & -> & Ht).
    apply replace_markup_inj in Ht. congruence.
  - intros text Hplain. cbn. rewrite replace_markup_plain by exact Hplain. reflexivity.
Qed.

(** X26.  [api] on the response it received: a 2xx response is returned as its
    parsed body, or as [{}] when the body is no JSON; any other response
    throws an Error with the [error] of the body as message, with "Request
    failed" when the body is no JSON or has an empty [error], and a
    TypeError when the body is [null]. *)
Theorem api_reports_the_error res :
  (res_ok res = true ->
   api res = Returned (default (JObj []) (JSON.parse (res_text res))))
  /\ (res_ok res = false -> JSON.parse (res_text res) = None ->
      api res = ThrownError (lit "Request failed"))
  /\ (res_ok res = false -> JSON.parse (res_text res) = Some JNull ->
      api res = ThrownTypeError)
  /\ (forall message,
        res_ok res = false ->
        res_text res = JSON.stringify (JObj [(lit "error", JStr message)]) ->
        api res = ThrownError (match message with
                               | [] => lit "Request failed"
                               | _ => message
                               end)).
Proof.
  unfold api. split; [|split; [|split]].
  - intros ->. reflexivity.
  - intros -> ->. reflexivity.
  - intros -> ->. reflexivity.
  - intros message -> ->. rewrite JSONFacts.parse_stringify.
    + destruct message; reflexivity.
    + constructor.
      * cbn. apply NoDup_singleton.
      * repeat constructor.
      * repeat constructor.
Qed.

(** X27.  A percent the admin page cannot read as a finite number is sent as
    [null], and the server handles the request exactly as one with percent
    0. *)
Theorem unreadable_percent_is_sent_as_null E c st skillLabel skillPercent :
  skillPercent <> [] ->
  is_finite (StringToNumber skillPercent) = false ->
  JSON.number_text 0%float ->
  exists body,
    received (add_skill_body skillLabel skillPercent) = Some body
    /\ get_prop body (lit "percent") = JNull
    /\ handle E {| cookie := c; target := PostAdminSkills body |} st
       = handle E {| cookie := c;
                     target := PostAdminSkills
                                 (JObj [(lit "label", JStr skillLabel);
                                        (lit "percent", JNum 0);
                                        (lit "sort",
                                         JNum (StringToNumber (NumberToString 0)))]) |} st.
Proof.
  intros Hne Hnan Hzero. unfold received, add_skill_body.
  destruct skillPercent as [ | ch text ]; [congruence|].
  rewrite parse_stringify_echo.
  - assert (is_finite 0 = true) as Hfin by reflexivity.
    eexists. split; [reflexivity|].
    cbn [JSON.echo]. rewrite Hnan, Hfin.
    split; [vm_compute; reflexivity|].
    eapply skill_handlers_read_percent.
    + reflexivity.
    + left. split; reflexivity.
    + vm_compute. reflexivity.
    + vm_compute. reflexivity.
    + vm_compute. reflexivity.
  - cbn [JSON.lexable]. repeat split; try congruence. intros _. exact Hzero.
Qed.

(** X28.  Every error a handler reports with [res.status(code).json({ error })]
    reaches the caller of [api] as an Error with the same message, and the
    request that was refused has changed nothing. *)
Theorem server_errors_reach_the_page E req st message :
  body (fst (handle E req st)) = Error message ->
  exists res,
    error_response (fst (handle E req st)) = Some res
    /\ api res = ThrownError (lit message)
    /\ snd (handle E req st) = st.
Proof.
  handlers. destruct (target req) eqn:Ht; paths.
  all: try (let H := fresh in intros H; discriminate H).
  all: let H := fresh in intros H; injection H as <-.
  all: eexists; split; [reflexivity|]; split; [|reflexivity].
  all: apply api_on_error_response; [reflexivity|discriminate].
Qed.


(** X30.  Every stored session holds the name and role of a row of the users
    table: at the start there is no session, every request keeps the
    property, and so it holds in every state the server reaches. *)
Theorem sessions_belong_to_accounts :
  (forall pe t d, sessions_of_accounts (boot pe t d))
  /\ (forall E req st,
        sessions_of_accounts st -> sessions_of_accounts (snd (handle E req st)))
  /\ (forall st, reachable st -> sessions_of_accounts st).
Proof.
  assert (forall E req st,
            sessions_of_accounts st -> sessions_of_accounts (snd (handle E req st)))
    as Hstep.
  { intros E req st Hst c su.
    pose proof (users_after_request E req st) as Husers. rewrite Husers.
    revert Husers. handlers. destruct (target req) eqn:Ht; paths.
    all: cbn [db sessions]; intros _; try apply Hst.
    - intros Hc. apply lookup_insert_Some in Hc as [[_ <-]|[_ Hc]]; [|eapply Hst, Hc].
      match goal with
      | H : select_user_by _ _ = Some (Some ?row) |- _ =>
          exists row; split; [exact (select_user_by_Some _ _ _ H)|split; reflexivity]
      end.
    - intros Hc. apply lookup_delete_Some in Hc as [_ Hc]. eapply Hst, Hc. }
  split; [|split; [exact Hstep|]].
  - intros pe t d c su Hc. unfold boot in Hc. cbn [sessions] in Hc.
    rewrite lookup_empty in Hc. discriminate Hc.
  - intros st Hreach. induction Hreach as [pe t d _ | E req st _ IH].
    + intros c su Hc. unfold boot in Hc. cbn [sessions] in Hc.
      rewrite lookup_empty in Hc. discriminate Hc.
    + apply Hstep, IH.
Qed.

End Coverage.

(** ** The further properties on the sample process *)

Section CoverageWitnesses.
Import Sample.

(** The sample runtime writes 0 and 7 as JSON numbers. *)
Lemma sample_number_text (f : float) :
  f = 0%float \/ f = 7%float -> JSON.number_text f.
Proof.
  intros [-> | ->] rest Hrest; (destruct rest as [ | c rest ]; [reflexivity|]);
    cbn in Hrest; destruct Hrest as [-> | [-> | ->]]; reflexivity.
Qed.

Lemma login_opens_session_witness :
  let req := anonymous (PostLogin (credentials (lit "admin") (lit "secret"))) in
  let st' := snd (handle clock req started) in
  fst (handle clock req started) = json (OkUser admin)
  /\ sessions st' = <[session_id clock req started := admin]> (sessions started)
  /\ db st' = insert_audit (now clock) (lit "admin") (lit "login") (lit "auth") NoEntity
                (lit "{}") (db started)
  /\ handle later {| cookie := Some (session_id clock req started); target := GetMe |} st'
     = (json (Me (Some admin)), st').
Proof.
  intros req.
  apply (login_opens_session clock later req started
           (credentials (lit "admin") (lit "secret")) seeded).
  - reflexivity.
  - vm_compute. reflexivity.
  - vm_compute. reflexivity.
Defined.

Lemma logout_ends_one_session_witness :
  let req := as_admin PostLogout in
  let st' := snd (handle later req populated) in
  fst (handle later req populated) = json Ok
  /\ sessions st' = delete (lit "sid-1") (sessions populated)
  /\ (forall c', c' <> lit "sid-1" -> sessions st' !! c' = sessions populated !! c')
  /\ db st' = insert_audit (now later) (su_username admin) (lit "logout") (lit "auth")
                NoEntity (lit "{}") (db populated).
Proof.
  intros req.
  apply (logout_ends_one_session later req populated (lit "sid-1") admin).
  - reflexivity.
  - reflexivity.
  - vm_compute. reflexivity.
Defined.

Lemma sessions_change_at_login_and_logout_only_witness :
  sessions (snd (handle clock (as_admin (DeleteAdminSkill (lit "1"))) populated))
  = sessions populated.
Proof.
  apply (sessions_change_at_login_and_logout_only clock
           (as_admin (DeleteAdminSkill (lit "1"))) populated).
  - intros body. discriminate.
  - discriminate.
Defined.

Lemma failed_requests_change_nothing_witness :
  snd (handle clock (as_admin (PostAdminProjects (JObj [(lit "title", JStr (lit "T"))])))
         populated)
  = populated.
Proof.
  apply (failed_requests_change_nothing clock
           (as_admin (PostAdminProjects (JObj [(lit "title", JStr (lit "T"))]))) populated).
  vm_compute. discriminate.
Defined.

Lemma mutations_are_audited_witness :
  let req := as_admin (DeleteAdminProject (lit "2")) in
  exists row,
    audit_log (db (snd (handle later req populated))) = audit_log (db populated) ++ [row]
    /\ actor row = su_username admin
    /\ action row = lit "delete"
    /\ entity row = lit "project"
    /\ audit_created_at row = now later.
Proof.
  intros req.
  apply (mutations_are_audited later req populated admin "delete" "project").
  - reflexivity.
  - intros body. discriminate.
  - vm_compute. reflexivity.
  - vm_compute. reflexivity.
Defined.

Lemma reads_change_nothing_witness :
  snd (handle later (anonymous GetPublicContent) populated) = populated.
Proof.
  apply (reads_change_nothing later (anonymous GetPublicContent) populated).
  reflexivity.
Defined.

Lemma percents_stay_in_range_witness :
  let body := JObj [(lit "label", JStr (lit "Go")); (lit "percent", JNum 100)] in
  percents_in_range (db (snd (handle later (as_admin (PutAdminSkill (lit "2") body))
                                populated))).
Proof.
  intros body.
  apply (percents_stay_in_range later (as_admin (PutAdminSkill (lit "2") body)) populated).
  unfold percents_in_range. apply (bool_decide_unpack _). vm_compute. exact I.
Defined.

Lemma row_ids_stay_unique_witness :
  keys_unique (db (boot environment (now clock) Db.empty))
  /\ keys_unique (db (snd (handle clock (as_admin (DeleteAdminSkill (lit "1"))) populated))).
Proof.
  split.
  - apply (proj1 row_ids_stay_unique). repeat split; constructor.
  - apply (proj2 row_ids_stay_unique).
    unfold keys_unique. apply (bool_decide_unpack _). vm_compute. exact I.
Defined.



Lemma deleted_skill_is_gone_witness :
  let req := as_admin (DeleteAdminSkill (lit "1")) in
  let id := StringToNumber (lit "1") in
  let st' := snd (handle later req populated) in
  fst (handle later req populated) = json Ok
  /\ (forall r, r ∈ skills (db st')
                <-> r ∈ skills (db populated) /\ id_is id (skill_id r) = false)
  /\ sublist (skills (db st')) (skills (db populated))
  /\ (NoDup (List.map skill_id (skills (db populated))) ->
      (length (skills (db populated)) <= S (length (skills (db st'))))%nat)
  /\ projects (db st') = projects (db populated)
  /\ skills (db (snd (handle later req st'))) = skills (db st').
Proof.
  intros req.
  apply (deleted_skill_is_gone later req populated admin (lit "1")).
  - vm_compute. reflexivity.
  - reflexivity.
Defined.



Lemma deleted_project_is_gone_witness :
  let req := as_admin (DeleteAdminProject (lit "2")) in
  let id := StringToNumber (lit "2") in
  let st' := snd (handle later req populated) in
  fst (handle later req populated) = json Ok
  /\ (forall r, r ∈ projects (db st')
                <-> r ∈ projects (db populated) /\ id_is id (project_id r) = false)
  /\ sublist (projects (db st')) (projects (db populated))
  /\ skills (db st') = skills (db populated)
  /\ audit_log (db st')
     = audit_log (db populated)
       ++ [ {| audit_id := new_rowid (List.map audit_id (audit_log (db populated)));
               actor := su_username admin;
               action := lit "delete";
               entity := lit "project";
               entity_id := EntityParam id;
               meta_json := lit "{}";
               audit_created_at := now later |} ].
Proof.
  intros req.
  apply (deleted_project_is_gone later req populated admin (lit "2")).
  - vm_compute. reflexivity.
  - reflexivity.
Defined.

Lemma restart_keeps_the_data_witness :
  let requests :=
    [ (clock, anonymous (PostLogin (credentials (lit "admin") (lit "secret"))));
      (clock, as_admin (PutAdminContent
                          (JObj [(lit "hero_headline", JStr (lit "Hello"));
                                 (lit "hero_subtitle", JStr (lit "World"))]))) ] in
  let st := serve_all requests (boot environment (now clock) Db.empty) in
  db (boot rotated (now later) (db st)) = db st.
Proof.
  intros requests.
  apply (restart_keeps_the_data environment rotated (now clock) (now later) Db.empty
           requests).
  - split; constructor.
  - reflexivity.
  - discriminate.
Defined.

Lemma seeded_admin_can_log_in_witness :
  let req := anonymous (PostLogin (JObj [(lit "username", JStr (ADMIN_USERNAME environment));
                                         (lit "password", JStr (lit "secret"))])) in
  let st := boot environment (now clock) Db.empty in
  let row := {| user_id := new_rowid (List.map user_id (users Db.empty));
                username := ADMIN_USERNAME environment;
                password_hash := hashSync (lit "secret") 12;
                role := lit "admin";
                user_created_at := now clock |} in
  users (db st) = users Db.empty ++ [row]
  /\ fst (handle later req st)
     = json (OkUser {| su_username := ADMIN_USERNAME environment;
                       su_role := lit "admin" |})
  /\ sessions (snd (handle later req st))
     = {[ session_id later req st := {| su_username := ADMIN_USERNAME environment;
                                        su_role := lit "admin" |} ]}.
Proof.
  intros req.
  apply (seeded_admin_can_log_in environment (now clock) Db.empty later req (lit "secret")).
  - reflexivity.
  - reflexivity.
  - vm_compute. reflexivity.
  - reflexivity.
Defined.

Lemma no_password_no_account_witness :
  let req := anonymous (PostLogin (credentials (lit "admin") (lit "admin"))) in
  let st := boot unconfigured (now clock) Db.empty in
  users (db st) = []
  /\ handle later req st = (status_json 401 (Error "Invalid credentials"), st).
Proof.
  intros req.
  apply (no_password_no_account unconfigured (now clock) Db.empty later req
           (lit "admin") (JStr (lit "admin"))).
  - reflexivity.
  - reflexivity.
  - reflexivity.
Defined.

Lemma percent_is_read_through_Number_witness :
  handle clock (as_admin (PostAdminSkills
                            (JObj [(lit "label", JStr (lit "Go")); (lit "percent", JNull)])))
    logged_in
  = handle clock (as_admin (PostAdminSkills
                              (JObj [(lit "label", JStr (lit "Go"));
                                     (lit "percent", JNum 0)])))
      logged_in.
Proof.
  apply (percent_is_read_through_Number clock _ _ logged_in
           (JObj [(lit "label", JStr (lit "Go")); (lit "percent", JNull)])
           (JObj [(lit "label", JStr (lit "Go")); (lit "percent", JNum 0)])).
  - reflexivity.
  - left. split; reflexivity.
  - reflexivity.
  - reflexivity.
  - reflexivity.
Defined.

Lemma skill_checks_run_in_different_order_witness :
  let body := JObj [(lit "percent", JObj [(lit "toString", JNum 1)])] in
  handle clock (as_admin (PostAdminSkills body)) populated
  = (status_json 400 (Error "Label required"), populated)
  /\ handle clock (as_admin (PutAdminSkill (lit "1") body)) populated
     = (uncaught TypeError, populated).
Proof.
  intros body. split.
  - apply (proj1 (skill_checks_run_in_different_order clock
                    (as_admin (PostAdminSkills body)) populated admin (lit "1") body
                    ltac:(vm_compute; reflexivity) eq_refl eq_refl)).
    reflexivity.
  - apply (proj2 (skill_checks_run_in_different_order clock
                    (as_admin (PutAdminSkill (lit "1") body)) populated admin (lit "1") body
                    ltac:(vm_compute; reflexivity) eq_refl eq_refl)).
    reflexivity.
Defined.

Lemma links_stay_readable_witness :
  let body := JObj [(lit "title", JStr (lit "Site")); (lit "summary", JStr (lit "Mine"));
                    (lit "links", JArr [JNum 7; JStr (lit "x"); JUndefined])] in
  let st' := snd (handle later (as_admin (PostAdminProjects body)) populated) in
  projects_readable (db st')
  /\ forall E' pub,
       target pub = GetPublicContent ->
       exists content skills projects,
         handle E' pub st' = (json (Public content skills projects), st').
Proof.
  intros body.
  apply (links_stay_readable later (as_admin (PostAdminProjects body)) populated).
  - repeat constructor; vm_compute; eexists; reflexivity.
  - intros body' [Hpost | [param Hput]]; [|discriminate Hput].
    injection Hpost as <-. cbn. repeat split.
    intros _. apply sample_number_text. right. reflexivity.
Defined.

Lemma stored_text_is_trimmed_witness :
  texts_trimmed (db (boot environment (now clock) Db.empty))
  /\ texts_trimmed
       (db (snd (handle clock
                   (as_admin (PostAdminSkills
                                (JObj [(lit "label", JStr (lit "  Go "));
                                       (lit "percent", JNum 80)])))
                   logged_in))).
Proof.
  split.
  - apply (proj1 stored_text_is_trimmed). repeat split; constructor.
  - apply (proj2 stored_text_is_trimmed).
    unfold texts_trimmed, trimmed. vm_compute. repeat constructor.
Defined.

Lemma escaped_text_is_inert_witness :
  let out := lit "&lt;b&gt;Tom &amp; Jerry&#039;s&lt;/b&gt;" in
  Forall (fun c => c <> 0x3C /\ c <> 0x3E /\ c <> 0x22 /\ c <> 0x27)%N out
  /\ forall before after,
       out = before ++ 0x26%N :: after ->
       exists name,
         name ∈ [lit "amp;"; lit "lt;"; lit "gt;"; lit "quot;"; lit "#039;"]
         /\ name `prefix_of` after.
Proof.
  intros out.
  apply (escaped_text_is_inert (JStr (lit "<b>Tom & Jerry's</b>")) out).
  vm_compute. reflexivity.
Defined.

Lemma escapeHtml_loses_nothing_witness :
  ToString (JStr (lit "a<b")) = ToString (JStr (lit "a<b"))
  /\ escapeHtml (JStr (lit "Rust 2021")) = Some (lit "Rust 2021").
Proof.
  split.
  - apply (proj1 escapeHtml_loses_nothing (JStr (lit "a<b")) (JStr (lit "a<b"))
             (lit "a&lt;b")); vm_compute; reflexivity.
  - apply (proj2 escapeHtml_loses_nothing (lit "Rust 2021")).
    repeat constructor.
Defined.

Lemma api_reports_the_error_witness :
  api {| res_status := 200; res_text := lit "<html>" |} = Returned (JObj [])
  /\ api {| res_status := 500; res_text := lit "<html>" |}
     = ThrownError (lit "Request failed")
  /\ api {| res_status := 400; res_text := lit "null" |} = ThrownTypeError
  /\ api {| res_status := 401;
            res_text := JSON.stringify (JObj [(lit "error", JStr (lit "Unauthorized"))]) |}
     = ThrownError (lit "Unauthorized").
Proof.
  split; [|split; [|split]].
  - apply (proj1 (api_reports_the_error {| res_status := 200; res_text := lit "<html>" |})).
    reflexivity.
  - apply (proj1 (proj2 (api_reports_the_error
                           {| res_status := 500; res_text := lit "<html>" |})));
      reflexivity.
  - apply (proj1 (proj2 (proj2 (api_reports_the_error
                                  {| res_status := 400; res_text := lit "null" |}))));
      reflexivity.
  - apply (proj2 (proj2 (proj2 (api_reports_the_error
                                  {| res_status := 401;
                                     res_text :=
                                       JSON.stringify
                                         (JObj [(lit "error",
                                                 JStr (lit "Unauthorized"))]) |})))
             (lit "Unauthorized")); reflexivity.
Defined.

Lemma unreadable_percent_is_sent_as_null_witness :
  exists body,
    received (add_skill_body (lit "Go") (lit "high")) = Some body
    /\ get_prop body (lit "percent") = JNull
    /\ handle clock {| cookie := Some (lit "sid-1"); target := PostAdminSkills body |}
         logged_in
       = handle clock
           {| cookie := Some (lit "sid-1");
              target := PostAdminSkills
                          (JObj [(lit "label", JStr (lit "Go"));
                                 (lit "percent", JNum 0);
                                 (lit "sort",
                                  JNum (StringToNumber (NumberToString 0)))]) |}
           logged_in.
Proof.
  apply (unreadable_percent_is_sent_as_null clock (Some (lit "sid-1")) logged_in
           (lit "Go") (lit "high")).
  - discriminate.
  - reflexivity.
  - apply sample_number_text. left. reflexivity.
Defined.

Lemma server_errors_reach_the_page_witness :
  let req := anonymous (PostLogin (credentials (lit "admin") (lit "guess"))) in
  exists res,
    error_response (fst (handle clock req populated)) = Some res
    /\ api res = ThrownError (lit "Invalid credentials")
    /\ snd (handle clock req populated) = populated.
Proof.
  intros req.
  apply (server_errors_reach_the_page clock req populated "Invalid credentials").
  vm_compute. reflexivity.
Defined.


Lemma sessions_belong_to_accounts_witness :
  sessions_of_accounts (boot environment (now clock) Db.empty)
  /\ sessions_of_accounts populated.
Proof.
  split.
  - apply (proj1 sessions_belong_to_accounts).
  - apply (proj2 (proj2 sessions_belong_to_accounts)).
    unfold populated, serve, logged_in, started. cbn [fold_left].
    repeat apply reachable_handle. apply reachable_boot. split; constructor.
Defined.

(** The word typed into the percent field makes a skill of 0 percent. *)
Example word_in_the_percent_field :
  exists body,
    received (add_skill_body (lit "Go") (lit "high")) = Some body
    /\ fst (handle clock (as_admin (PostAdminSkills body)) logged_in) = json (OkId 1)
    /\ List.map percent
         (skills (db (snd (handle clock (as_admin (PostAdminSkills body)) logged_in))))
       = [SqlInteger 0].
Proof.
  eexists. split; [vm_compute; reflexivity|]. split; vm_compute; reflexivity.
Qed.

End CoverageWitnesses.
